(** * GH200 support utilities: UVM hints, diagnostic parsing, in-memory backend

    A shallow embedding of
    - [src/simpletuner/gh200/uvm.py],
    - [src/gh200_diagnostic.py] ([check_uvm_env]),
    - [src/simpletuner/gh200/in_memory_backend.py],
    and the properties the specification states about them.

    Conventions.  Python [str] values are modelled by [string], read as
    sequences of ASCII characters: [lower], [upper] and [strip] act on the
    ASCII letters and the ASCII white space only.  Python [bytes] are lists
    of [Byte.byte].  A raised exception is a result: [Uvm.Exc] for the hint
    functions, [Backend.Err] with the exception's class for the backend. *)

From Stdlib Require Import ZArith List Bool Ascii String Permutation QArith_base.
From stdpp Require Import base gmap list strings fin_maps.
Import ListNotations.
Local Open Scope string_scope.
Local Open Scope Z_scope.
Set Warnings "-register-all".

(** ** Python string primitives *)

Module PyStr.

Definition is_upper (c : ascii) : bool :=
  let n := nat_of_ascii c in (Nat.leb 65 n && Nat.leb n 90)%bool.

Definition is_lower (c : ascii) : bool :=
  let n := nat_of_ascii c in (Nat.leb 97 n && Nat.leb n 122)%bool.

Definition ascii_lower (c : ascii) : ascii :=
  if is_upper c then ascii_of_nat (nat_of_ascii c + 32) else c.

Definition ascii_upper (c : ascii) : ascii :=
  if is_lower c then ascii_of_nat (nat_of_ascii c - 32) else c.

(** [str.isspace] on the ASCII range: TAB, LF, VT, FF, CR, FS, GS, RS, US
    and the space. *)
Definition is_space (c : ascii) : bool :=
  let n := nat_of_ascii c in
  ((Nat.leb 9 n && Nat.leb n 13) || (Nat.leb 28 n && Nat.leb n 32))%bool.

Fixpoint map_chars (f : ascii -> ascii) (s : string) : string :=
  match s with
  | EmptyString => EmptyString
  | String c r => String (f c) (map_chars f r)
  end.

(** [s.lower()] and [s.upper()] *)
Definition lower : string -> string := map_chars ascii_lower.
Definition upper : string -> string := map_chars ascii_upper.

(** [s.lstrip(chars)] for a membership test [p] on characters *)
Fixpoint lstrip_by (p : ascii -> bool) (s : string) : string :=
  match s with
  | EmptyString => EmptyString
  | String c r => if p c then lstrip_by p r else s
  end.

Fixpoint rstrip_by (p : ascii -> bool) (s : string) : string :=
  match s with
  | EmptyString => EmptyString
  | String c r =>
      match rstrip_by p r with
      | EmptyString => if p c then EmptyString else String c EmptyString
      | r' => String c r'
      end
  end.

(** [s.strip()] *)
Definition strip (s : string) : string := rstrip_by is_space (lstrip_by is_space s).

(** [s.lstrip(".")] *)
Definition lstrip_dots : string -> string :=
  lstrip_by (fun c => Ascii.eqb c "."%char).

(** [s.partition(sep)] for a one-character [sep]: the text before the first
    [sep] and the text after it, or [None] when [sep] does not occur. *)
Fixpoint partition (sep : ascii) (s : string) : option (string * string) :=
  match s with
  | EmptyString => None
  | String c r =>
      if Ascii.eqb c sep then Some (EmptyString, r)
      else match partition sep r with
           | Some (a, b) => Some (String c a, b)
           | None => None
           end
  end.

(** [s.split(sep)] for a one-character [sep]; never the empty list. *)
Fixpoint split (sep : ascii) (s : string) : list string :=
  match s with
  | EmptyString => [EmptyString]
  | String c r =>
      if Ascii.eqb c sep then EmptyString :: split sep r
      else match split sep r with
           | [] => [String c EmptyString]
           | h :: t => String c h :: t
           end
  end.

(** [sub in s] *)
Fixpoint contains (sub s : string) : bool :=
  if String.prefix sub s then true
  else match s with
       | EmptyString => false
       | String _ r => contains sub r
       end.

(** [s.endswith(suffix)] *)
Fixpoint endswith (s suffix : string) : bool :=
  if String.eqb s suffix then true
  else match s with
       | EmptyString => false
       | String _ r => endswith r suffix
       end.

(** [x in {...}] for a set literal of strings *)
Definition mem (x : string) (l : list string) : bool :=
  existsb (String.eqb x) l.

(** [s.isascii()].  The functions above are Python's on such strings; on
    other characters [str.lower], [str.upper] and [str.strip] do more than
    they do here. *)
Fixpoint isascii (s : string) : bool :=
  match s with
  | EmptyString => true
  | String c r => Nat.ltb (nat_of_ascii c) 128 && isascii r
  end.

End PyStr.

(** ** [simpletuner/gh200/uvm.py]: the opt-in flag *)

Module Uvm.

(** [os.environ] *)
Abbreviation Environ := (gmap string string).

(** [os.environ.get(name, default)] *)
Definition environ_get (env : Environ) (name default : string) : string :=
  match env !! name with
  | Some v => v
  | None => default
  end.

(** The module-level [_UVM_HINT_OVERRIDE : Optional[bool]]; its initial
    value is [None]. *)
Definition Override := option bool.
Definition _UVM_HINT_OVERRIDE_init : Override := None.

Definition truthy_words : list string := ["1"; "true"; "yes"; "on"].

Definition gh200_uvm_enabled (ov : Override) (env : Environ) : bool :=
  match ov with
  | Some b => b
  | None =>
      let flag := environ_get env "SIMPLETUNER_GH200_ENABLE_UVM_HINTS" "" in
      PyStr.mem (PyStr.lower (PyStr.strip flag)) truthy_words
  end.

(** [set_uvm_hint_override(value)]: assigns the global, whatever it held. *)
Definition set_uvm_hint_override (value : option bool) (ov : Override) : Override :=
  value.

(** A program that only calls [set_uvm_hint_override], one call after the other. *)
Definition run_overrides (calls : list (option bool)) (ov : Override) : Override :=
  fold_left (fun st v => set_uvm_hint_override v st) calls ov.

(** *** The CUDA runtime as seen by the hint functions

    A tensor is identified by a number.  The functions of [uvm.py] talk to
    PyTorch and to the CUDA runtime through boolean probes, which cannot
    raise ([torch.cuda.is_available()], the [is_cuda] attribute, [hasattr]),
    and through operations, each of which either returns an integer or
    raises an [Exception]. *)

Definition Tensor := nat.

Inductive Loc := LocCpu | LocDev (d : Z).

Inductive Query :=
| QIsAvailable                      (* torch.cuda.is_available() *)
| QIsCuda (t : Tensor)              (* tensor.is_cuda *)
| QHasMemoryAdvise                  (* hasattr(torch.cuda, "memory_advise") *)
| QHasCudart.                       (* hasattr(torch.cuda, "cudart") *)

Inductive Op :=
| OCurrentDevice                    (* int(torch.cuda.current_device()) *)
| OMemoryAdvise (t : Tensor) (advice : string) (device : Loc)
                                    (* torch.cuda.memory_advise(t, advice, device=...) *)
| OCudart                           (* torch.cuda.cudart() *)
| OUntypedStorage (t : Tensor)      (* tensor.untyped_storage() *)
| OStorageNbytes (t : Tensor)       (* storage.nbytes() *)
| OElementSize (t : Tensor)         (* tensor.element_size() *)
| ONumel (t : Tensor)               (* tensor.numel() *)
| ODataPtr (t : Tensor)             (* tensor.data_ptr() *)
| OStorageDataPtr (t : Tensor)      (* tensor.storage().data_ptr() *)
| OGetAttr (name : string)          (* cudart.<name> *)
| OCudaMemAdvise (ptr size advice target : Z)
| OCudaMemPrefetchAsync (ptr size device : Z).

Inductive Outcome := Ret (v : Z) | Raise.

(** What happened, most recent event first. *)
Inductive Event :=
| EQuery (q : Query) (b : bool)
| EOp (o : Op) (r : Outcome).

Definition History := list Event.

(** The environment answers each probe and each operation, possibly
    depending on everything that happened before. *)
Record World := {
  probe : History -> Query -> bool;
  perform : History -> Op -> Outcome
}.

Inductive Res (A : Type) := Val (a : A) | Exc.
Arguments Val {A} a.
Arguments Exc {A}.

(** A computation: in a world, after a history, it returns a value or
    raises, and it reports the events it performed itself. *)
Definition M (A : Type) : Type := World -> History -> Res A * list Event.

Definition ret {A} (a : A) : M A := fun _ _ => (Val a, []).

Definition bind {A B} (m : M A) (k : A -> M B) : M B :=
  fun w h =>
    match m w h with
    | (Val a, e1) => let '(r, e2) := k a w (e1 ++ h)%list in (r, (e2 ++ e1)%list)
    | (Exc, e1) => (Exc, e1)
    end.

(** [try: m except Exception: handler] *)
Definition try_except {A} (m handler : M A) : M A :=
  fun w h =>
    match m w h with
    | (Val a, e1) => (Val a, e1)
    | (Exc, e1) => let '(r, e2) := handler w (e1 ++ h)%list in (r, (e2 ++ e1)%list)
    end.

Definition query (q : Query) : M bool :=
  fun w h => let b := probe w h q in (Val b, [EQuery q b]).

Definition op (o : Op) : M Z :=
  fun w h =>
    match perform w h o with
    | Ret v => (Val v, [EOp o (Ret v)])
    | Raise => (Exc, [EOp o Raise])
    end.

Notation "'let!' x ':=' m 'in' k" := (bind m (fun x => k))
  (at level 10, x name, m at level 200, k at level 200).

Fixpoint for_each {A} (l : list A) (body : A -> M unit) : M unit :=
  match l with
  | [] => ret tt
  | a :: r => let! _ := body a in for_each r body
  end.

Definition _element_span_bytes (tensor : Tensor) : M Z :=
  let! r := try_except
         (let! _ := op (OUntypedStorage tensor) in
          let! nbytes := op (OStorageNbytes tensor) in
          ret (if nbytes =? 0 then None else Some nbytes))
         (ret None) in
  match r with
  | Some nbytes => ret nbytes
  | None =>
      try_except
        (let! e := op (OElementSize tensor) in
         let! n := op (ONumel tensor) in
         ret (e * n))
        (ret 0)
  end.

(** [Some tt] stands for the runtime handle. *)
Definition _cudart : M (option unit) :=
  let! has := query QHasCudart in
  if negb has then ret None
  else try_except (let! _ := op OCudart in ret (Some tt)) (ret None).

Definition _current_cuda_device : M Z :=
  try_except (op OCurrentDevice) (ret 0).

(** [not torch.cuda.is_available() or not tensor.is_cuda], with the
    short-circuit of [or]. *)
Definition unavailable_or_not_cuda (tensor : Tensor) : M bool :=
  let! avail := query QIsAvailable in
  if negb avail then ret true
  else (let! c := query (QIsCuda tensor) in ret (negb c)).

(** [ptr = tensor.data_ptr()], falling back on the storage's pointer;
    [None] is the inner [return False]. *)
Definition tensor_pointer (tensor : Tensor) : M (option Z) :=
  try_except
    (let! p := op (ODataPtr tensor) in ret (Some p))
    (try_except
       (let! p := op (OStorageDataPtr tensor) in ret (Some p))
       (ret None)).

(** The first [try] block of [_apply_preferred_location]: the advice through
    [torch.cuda.memory_advise] when PyTorch has it.  [False] stands for
    falling through, after the [except] clause has logged the failure or
    because the attribute is missing. *)
Definition advise_through_torch (tensor : Tensor) (prefer_cpu : bool) : M bool :=
  try_except
    (let! has := query QHasMemoryAdvise in
     if (has : bool) then
       let! location := (if prefer_cpu then ret LocCpu
                         else (let! d := _current_cuda_device in ret (LocDev d))) in
       let! _ := op (OMemoryAdvise tensor "set_preferred_location" location) in
       let! d := _current_cuda_device in
       let! _ := op (OMemoryAdvise tensor "set_accessed_by" (LocDev d)) in
       ret true
     else ret false)
    (ret false).

(** The last [try] block of [_apply_preferred_location]: [cudaMemAdvise]
    through the runtime handle. *)
Definition advise_through_cudart (ptr size : Z) (prefer_cpu : bool) : M bool :=
  try_except
    (let! _ := op (OGetAttr "cudaMemAdvise") in
     let! preferred_location := op (OGetAttr "cudaMemAdviseSetPreferredLocation") in
     let! accessed_by := op (OGetAttr "cudaMemAdviseSetAccessedBy") in
     let! cpu_id := try_except (op (OGetAttr "cudaCpuDeviceId")) (ret (-1)) in
     let! target := (if prefer_cpu then ret cpu_id else _current_cuda_device) in
     let! _ := op (OCudaMemAdvise ptr size preferred_location target) in
     let! d := _current_cuda_device in
     let! _ := op (OCudaMemAdvise ptr size accessed_by d) in
     ret true)
    (ret false).

Definition _apply_preferred_location
    (ov : Override) (env : Environ) (tensor : Tensor) (prefer_cpu : bool) : M bool :=
  if negb (gh200_uvm_enabled ov env) then ret false else
  let! stop := unavailable_or_not_cuda tensor in
  if (stop : bool) then ret false else
  let! advised := advise_through_torch tensor prefer_cpu in
  if (advised : bool) then ret true else
  let! cudart := _cudart in
  match cudart with
  | None => ret false
  | Some _ =>
      let! size := _element_span_bytes tensor in
      if size <=? 0 then ret false else
      let! ptr := tensor_pointer tensor in
      match ptr with
      | None => ret false
      | Some ptr => advise_through_cudart ptr size prefer_cpu
      end
  end.

Definition prefer_cpu_residency (ov : Override) (env : Environ) (tensor : Tensor) : M bool :=
  _apply_preferred_location ov env tensor true.

Definition prefer_gpu_residency (ov : Override) (env : Environ) (tensor : Tensor) : M bool :=
  _apply_preferred_location ov env tensor false.

(** The last [try] block of [prefetch_to_device]. *)
Definition prefetch_through_cudart (ptr size device : Z) : M bool :=
  try_except
    (let! _ := op (OCudaMemPrefetchAsync ptr size device) in ret true)
    (ret false).

(** [device] is given already converted by [int(device)]. *)
Definition prefetch_to_device
    (ov : Override) (env : Environ) (tensor : Tensor) (device : option Z) : M bool :=
  if negb (gh200_uvm_enabled ov env) then ret false else
  let! stop := unavailable_or_not_cuda tensor in
  if (stop : bool) then ret false else
  let! device := match device with
                 | None => _current_cuda_device
                 | Some d => ret d
                 end in
  let! cudart := _cudart in
  match cudart with
  | None => ret false
  | Some _ =>
      let! size := _element_span_bytes tensor in
      if size <=? 0 then ret false else
      let! ptr := tensor_pointer tensor in
      match ptr with
      | None => ret false
      | Some ptr => prefetch_through_cudart ptr size device
      end
  end.

(** A batch value: a tensor, a mapping, a list or tuple, or anything else
    ([None] included). *)
Inductive Obj :=
| OTensor (t : Tensor)
| OMapping (items : list (string * Obj))
| OSeq (items : list Obj)
| OOther.

Fixpoint _iter_tensors (obj : Obj) : list Tensor :=
  match obj with
  | OTensor t => [t]
  | OMapping items => flat_map (fun kv => _iter_tensors (snd kv)) items
  | OSeq items => flat_map _iter_tensors items
  | OOther => []
  end.

(** [batch.get(key)] *)
Fixpoint batch_get (batch : list (string * Obj)) (key : string) : Obj :=
  match batch with
  | [] => OOther
  | (k, v) :: r => if String.eqb k key then v else batch_get r key
  end.

Definition optimize_batch_for_gh200
    (ov : Override) (env : Environ) (batch : list (string * Obj)) : M unit :=
  if negb (gh200_uvm_enabled ov env) then ret tt else
  let latents := batch_get batch "latents" in
  let! _ := for_each (_iter_tensors latents)
         (fun tensor => let! _ := prefer_cpu_residency ov env tensor in ret tt) in
  for_each ["encoder_hidden_states"; "text_embeddings"; "pooled_prompt_embeds"]
    (fun key =>
       let value := batch_get batch key in
       for_each (_iter_tensors value)
         (fun tensor =>
            let! _ := prefer_gpu_residency ov env tensor in
            let! _ := prefetch_to_device ov env tensor None in
            ret tt)).

(** The tensor an event is about, if any. *)
Definition event_tensor (e : Event) : option Tensor :=
  match e with
  | EQuery (QIsCuda t) _ => Some t
  | EOp (OMemoryAdvise t _ _) _ => Some t
  | EOp (OUntypedStorage t) _ | EOp (OStorageNbytes t) _
  | EOp (OElementSize t) _ | EOp (ONumel t) _
  | EOp (ODataPtr t) _ | EOp (OStorageDataPtr t) _ => Some t
  | _ => None
  end.

(** An event is a runtime operation when it is not a mere probe. *)
Definition is_runtime_op (e : Event) : bool :=
  match e with
  | EOp _ _ => true
  | EQuery _ _ => false
  end.

(** The three driver-facing calls the hint functions are wrappers of. *)
Definition is_hint_call (o : Op) : bool :=
  match o with
  | OMemoryAdvise _ _ _ | OCudaMemAdvise _ _ _ _ | OCudaMemPrefetchAsync _ _ _ => true
  | _ => false
  end.

Definition hint_call_failed (e : Event) : bool :=
  match e with
  | EOp o Raise => is_hint_call o
  | _ => false
  end.

Definition is_hint_event (e : Event) : bool :=
  match e with
  | EOp o _ => is_hint_call o
  | EQuery _ _ => false
  end.

(** The computation returns, and asks for no hint on the way. *)
Definition returns_without_hint {A} (m : M A) : Prop :=
  forall w h, exists a evs, m w h = (Val a, evs) /\ existsb is_hint_event evs = false.

(** A raised [cudaMemAdvise] or [cudaMemPrefetchAsync]. *)
Definition cudart_hint_failed (e : Event) : bool :=
  match e with
  | EOp (OCudaMemAdvise _ _ _ _) Raise => true
  | EOp (OCudaMemPrefetchAsync _ _ _) Raise => true
  | _ => false
  end.

(** The most recent event is a hint call that returned. *)
Definition ended_on_successful_hint (evs : list Event) : bool :=
  match evs with
  | EOp o (Ret _) :: _ => is_hint_call o
  | _ => false
  end.

(** Nothing but probes, and no tensor looked at. *)
Definition quiet (evs : list Event) : Prop :=
  Forall (fun e => is_runtime_op e = false /\ event_tensor e = None) evs.

(** How a hint function ends: it returns a boolean; [False] when a runtime
    hint call raised; [True] only right after a hint call that returned. *)
Definition best_effort (r : Res bool * list Event) : Prop :=
  exists b : bool,
    fst r = Val b
    /\ (existsb cudart_hint_failed (snd r) = true -> b = false)
    /\ (b = true -> ended_on_successful_hint (snd r) = true).

End Uvm.

(** ** [gh200_diagnostic.py]: [check_uvm_env] *)

Module Diagnostic.

Section CheckUvmEnv.

(** Python's floating-point numbers and [float(s)] on a string; [None]
    stands for [ValueError]. *)
Variable Float : Type.
Variable float : string -> option Float.

(** The value left in [ratio]: a float, or the raw text. *)
Inductive Ratio :=
| RatioFloat (x : Float)
| RatioRaw (s : string).

Record UvmEnv := {
  enabled : bool;
  raw : string;
  oversubscription_ratio : option Ratio;
  access_pattern : option string
}.

Definition parse_ratio (value : string) : Ratio :=
  match float value with
  | Some x => RatioFloat x
  | None => RatioRaw value
  end.

(** One turn of [for part in conf.split(",")] on the pair
    [(ratio, access_pattern)]. *)
Definition loop_body (acc : option Ratio * option string) (part : string)
  : option Ratio * option string :=
  match PyStr.partition ":" part with
  | None => acc
  | Some (key, value) =>
      let key := PyStr.lower (PyStr.strip key) in
      let value := PyStr.strip value in
      if String.eqb key "uvm_oversubscription_ratio" then (Some (parse_ratio value), snd acc)
      else if String.eqb key "uvm_access_pattern" then (fst acc, Some (PyStr.lower value))
      else acc
  end.

Definition check_uvm_env (env : Uvm.Environ) : UvmEnv :=
  let conf := Uvm.environ_get env "PYTORCH_CUDA_ALLOC_CONF" "" in
  let enabled := PyStr.contains "use_uvm:True" conf in
  let acc :=
    if String.eqb conf "" then (None, None)
    else fold_left loop_body (PyStr.split "," conf) (None, None) in
  {| enabled := enabled;
     raw := conf;
     oversubscription_ratio := fst acc;
     access_pattern := snd acc |}.

(** The [key:value] parts of the variable, as the loop reads them: the key
    stripped and lowercased, the value stripped; parts without a colon are
    skipped. *)
Definition key_values (conf : string) : list (string * string) :=
  flat_map
    (fun part =>
       match PyStr.partition ":" part with
       | None => []
       | Some (key, value) => [(PyStr.lower (PyStr.strip key), PyStr.strip value)]
       end)
    (PyStr.split "," conf).

Definition pick (key : string) (acc : option string) (kv : string * string) : option string :=
  if String.eqb (fst kv) key then Some (snd kv) else acc.

(** The value of the last part whose key is [key]. *)
Definition last_value (key : string) (kvs : list (string * string)) : option string :=
  fold_left (pick key) kvs None.

End CheckUvmEnv.

Arguments RatioFloat {Float} x.
Arguments RatioRaw {Float} s.
Arguments enabled {Float} u.
Arguments raw {Float} u.
Arguments oversubscription_ratio {Float} u.
Arguments access_pattern {Float} u.

End Diagnostic.

(** ** [simpletuner/gh200/in_memory_backend.py] *)

Module Backend.

Definition bytes := list Byte.byte.

Inductive exn :=
| KeyError (key : string)
| FileNotFoundError (what : string)
| IsADirectoryError
| TypeError
| ValueError
| RuntimeError
| MemoryError
| NotImplementedError
| LibraryError (code : nat).     (* raised inside zlib, lz4, snappy, PIL or torch *)

Inductive Result (A : Type) := Ok (a : A) | Err (e : exn).
Arguments Ok {A} a.
Arguments Err {A} e.

(** *** [pathlib] on POSIX

    A path is its anchor (the empty string, one slash or two) and its
    components.  [Path(s)] drops empty and [.] components and keeps [..]. *)

Record PurePath := { anchor : string; parts : list string }.

#[global] Instance PurePath_eq_dec : EqDecision PurePath.
Proof. solve_decision. Defined.

Definition anchor_of (s : string) : string :=
  match s with
  | String "/" (String "/" (String "/" _)) => "/"
  | String "/" (String "/" _) => "//"
  | String "/" _ => "/"
  | _ => ""
  end.

Definition Path (s : string) : PurePath :=
  {| anchor := anchor_of s;
     parts := List.filter (fun c => negb (String.eqb c "" || String.eqb c "."))
                (PyStr.split "/" s) |}.

(** [str(path)] *)
Definition str (p : PurePath) : string :=
  match parts p with
  | [] => if String.eqb (anchor p) "" then "." else anchor p
  | ps => anchor p ++ String.concat "/" ps
  end.

Fixpoint strip_prefix (pre l : list string) : option (list string) :=
  match pre, l with
  | [], _ => Some l
  | a :: pre', b :: l' => if String.eqb a b then strip_prefix pre' l' else None
  | _ :: _, [] => None
  end.

(** [path.relative_to(other)]; [ValueError] when [other] is not above [path]. *)
Definition relative_to (p other : PurePath) : Result PurePath :=
  if String.eqb (anchor p) (anchor other) then
    match strip_prefix (parts other) (parts p) with
    | Some rest => Ok {| anchor := ""; parts := rest |}
    | None => Err ValueError
    end
  else Err ValueError.

(** [p / q] *)
Definition joinpath (p q : PurePath) : PurePath :=
  if String.eqb (anchor q) "" then {| anchor := anchor p; parts := parts p ++ parts q |}
  else q.

Definition name (p : PurePath) : string := List.last (parts p) "".

Definition parent (p : PurePath) : PurePath :=
  {| anchor := anchor p; parts := removelast (parts p) |}.

(** The text from the last dot of [s] on. *)
Fixpoint from_last_dot (s : string) : option string :=
  match s with
  | EmptyString => None
  | String c r =>
      match from_last_dot r with
      | Some t => Some t
      | None => if Ascii.eqb c "."%char then Some s else None
      end
  end.

(** [path.suffix]: empty unless the last dot of the name is neither its
    first nor its last character. *)
Definition suffix (p : PurePath) : string :=
  match name p with
  | EmptyString => ""
  | String _ r =>
      match from_last_dot r with
      | Some t => if Nat.eqb (String.length t) 1 then "" else t
      | None => ""
      end
  end.

(** [os.path.isabs(s)] *)
Definition isabs (s : string) : bool := String.prefix "/" s.

(** Order of paths, component by component, as [sorted] uses it. *)
Fixpoint parts_leb (a b : list string) : bool :=
  match a, b with
  | [], _ => true
  | _ :: _, [] => false
  | x :: a', y :: b' =>
      match String.compare x y with
      | Lt => true
      | Gt => false
      | Eq => parts_leb a' b'
      end
  end.

Definition path_leb (p q : PurePath) : bool :=
  parts_leb (anchor p :: parts p) (anchor q :: parts q).

Fixpoint insert_sorted (p : PurePath) (l : list PurePath) : list PurePath :=
  match l with
  | [] => [p]
  | q :: r => if path_leb p q then p :: l else q :: insert_sorted p r
  end.

(** [sorted(paths)] *)
Definition sorted (l : list PurePath) : list PurePath :=
  fold_right insert_sorted [] l.

(** *** The file system

    A file system without symbolic links: the current directory and the
    nodes, each under the components of its absolute path.  It does not
    change while the backend is built. *)

Inductive Node :=
| RegularFile (content : bytes)
| Directory (size : Z).          (* what [stat().st_size] reports for it *)

Record FileSystem := {
  cwd : list string;
  entries : list (list string * Node)
}.

Fixpoint lookup_node (es : list (list string * Node)) (p : list string) : option Node :=
  match es with
  | [] => None
  | (k, n) :: r => if bool_decide (k = p) then Some n else lookup_node r p
  end.

(** Removal of [..] components, the parent of the root being the root. *)
Fixpoint normalize_onto (above : list string) (ps : list string) : list string :=
  match ps with
  | [] => rev above
  | p :: r =>
      if String.eqb p ".." then normalize_onto (tl above) r
      else normalize_onto (p :: above) r
  end.

Definition normalize (ps : list string) : list string := normalize_onto [] ps.

(** [path.resolve()]: absolute, without [..]. *)
Definition resolve (fs : FileSystem) (p : PurePath) : PurePath :=
  {| anchor := if String.eqb (anchor p) "//" then "//" else "/";
     parts := normalize (if String.eqb (anchor p) "" then cwd fs ++ parts p else parts p) |}.

Definition node_at (fs : FileSystem) (p : PurePath) : option Node :=
  match parts (resolve fs p) with
  | [] => Some (Directory 0)
  | q => lookup_node (entries fs) q
  end.

(** [path.exists()] *)
Definition path_exists (fs : FileSystem) (p : PurePath) : bool :=
  match node_at fs p with Some _ => true | None => false end.

(** [path.is_dir()] *)
Definition is_dir (fs : FileSystem) (p : PurePath) : bool :=
  match node_at fs p with Some (Directory _) => true | _ => false end.

(** [path.stat().st_size] *)
Definition st_size (fs : FileSystem) (p : PurePath) : Result Z :=
  match node_at fs p with
  | Some (RegularFile content) => Ok (Z.of_nat (length content))
  | Some (Directory size) => Ok size
  | None => Err (FileNotFoundError (str p))
  end.

(** [with path.open("rb") as handle: handle.read()] *)
Definition read_bytes (fs : FileSystem) (p : PurePath) : Result bytes :=
  match node_at fs p with
  | Some (RegularFile content) => Ok content
  | Some (Directory _) => Err IsADirectoryError
  | None => Err (FileNotFoundError (str p))
  end.

(** [fnmatch] of a name against the patterns [_gather_files] builds: a star
    followed by literal text.  The text is taken literally, which is what
    [fnmatch] does when it holds none of the characters [*], [?], [[] and
    no slash; on POSIX the comparison is case-sensitive. *)
Definition fnmatch (name pattern : string) : bool :=
  match pattern with
  | String "*" literal => PyStr.endswith name literal
  | _ => String.eqb name pattern
  end.

(** [dir.rglob(pattern)]: every node strictly below [dir] whose name matches,
    as a path that starts with [dir]. *)
Definition rglob (fs : FileSystem) (dir : PurePath) (pattern : string) : list PurePath :=
  match node_at fs dir with
  | Some (Directory _) =>
      flat_map
        (fun e : list string * Node =>
           match strip_prefix (parts (resolve fs dir)) (fst e) with
           | Some (c :: rel) =>
               if fnmatch (List.last (c :: rel) "") pattern
               then [{| anchor := anchor dir; parts := parts dir ++ c :: rel |}]
               else []
           | _ => []
           end)
        (entries fs)
  | _ => []
  end.

(** A name a directory entry can bear here: no slash in it, and not the
    parent link. *)
Definition valid_name (s : string) : Prop :=
  s <> ".." /\ PyStr.partition "/" s = None.

(** A well-formed file system: every node under valid names, and at most one
    node under a path. *)
Definition wf_fs (fs : FileSystem) : Prop :=
  Forall (fun e => Forall valid_name (fst e)) (entries fs)
  /\ List.NoDup (map fst (entries fs)).

(** Text that [fnmatch] reads literally: none of [*], [?], [[], and no slash,
    which would make the pattern span two components. *)
Definition glob_literal (s : string) : bool :=
  negb (PyStr.contains "*" s || PyStr.contains "?" s
        || PyStr.contains "[" s || PyStr.contains "/" s).

(** *** The backend *)

(** What [write] may be given, by [isinstance]: a [BytesIO], a [bytes], a
    [torch.Tensor] (named by a number), or an object of another type. *)
Inductive PyData :=
| DBytesIO (content : bytes)
| DBytes (content : bytes)
| DTensor (t : nat)
| DOther (type_name : string).

(** A compression library: its [compress] and its [decompress], which
    raises on bytes it does not understand. *)
Record Codec := {
  compress : bytes -> bytes;
  decompress : bytes -> Result bytes
}.

Record Backend := {
  id : string;
  instance_data_dir : PurePath;
  _file_extensions : list string;
  _compress_fn : option (bytes -> bytes);
  _decompress_fn : option (bytes -> Result bytes);
  _compression_name : string;
  _memory_limit_bytes : option Z;
  _num_workers : Z;
  _storage : gmap string bytes
}.

(** [self._storage = storage] *)
Definition set_storage (self : Backend) (storage : gmap string bytes) : Backend :=
  {| id := id self;
     instance_data_dir := instance_data_dir self;
     _file_extensions := _file_extensions self;
     _compress_fn := _compress_fn self;
     _decompress_fn := _decompress_fn self;
     _compression_name := _compression_name self;
     _memory_limit_bytes := _memory_limit_bytes self;
     _num_workers := _num_workers self;
     _storage := storage |}.

(** A method: it returns or raises, and leaves the object in some state. *)
Definition Meth (A : Type) : Type := Backend -> Result A * Backend.

(** [int(memory_limit_gb * (1024**3))] for the rational number the argument
    denotes: the product is exact, [int] rounds towards zero. *)
Definition limit_bytes_of_gb (memory_limit_gb : Q) : Z :=
  Z.quot (Qnum memory_limit_gb * 1024 ^ 3) (Z.pos (Qden memory_limit_gb)).

(** [sum(len(v) for v in storage.values())]: the bytes the backend holds. *)
Definition held_bytes (storage : gmap string bytes) : Z :=
  map_fold (fun (_ : string) (v : bytes) acc => Z.of_nat (length v) + acc) 0 storage.

(** A state that differs from [self] in its storage only, and there only
    under the identifiers in [keys]. *)
Definition differs_within (keys : list string) (self self' : Backend) : Prop :=
  exists storage,
    self' = set_storage self storage
    /\ forall k, ~ In k keys -> storage !! k = _storage self !! k.

(** [decompress] undoes [compress]. *)
Definition lossless (c : Codec) : Prop :=
  forall data : bytes, decompress c (compress c data) = Ok data.

(** [isinstance(data, (BytesIO, bytes, torch.Tensor))] *)
Definition is_supported (data : PyData) : bool :=
  match data with
  | DBytesIO _ | DBytes _ | DTensor _ => true
  | DOther _ => false
  end.

Section GH200InMemoryBackend.

(** The libraries the module imports.  [zlib] is always there, at level 1
    for [compress]; [lz4.frame] and [snappy] are optional, [None] being the
    [ImportError]. *)
Variable zlib : Codec.
Variable lz4_frame : option Codec.
Variable snappy : option Codec.

(** [simpletuner.helpers.training.image_file_extensions], which is not part
    of these sources. *)
Variable image_file_extensions : list string.

(** The order in which the thread pool hands the futures back. *)
Variable as_completed :
  list (Result (string * bytes)) -> list (Result (string * bytes)).

(** [torch.save(obj, buffer); buffer.getvalue()], [torch.load(buffer)], and
    [Image.open(buffer)] followed by [image.load()]. *)
Variable torch_save_bytes : PyData -> Result bytes.
Variable torch_load_bytes : bytes -> Result PyData.
Variable Image : Type.
Variable Image_open : bytes -> Result Image.

Definition _DEFAULT_EXTENSIONS : list string :=
  remove_dups (map PyStr.lower image_file_extensions).

Definition _resolve_compression (name : option string)
  : Result (option (bytes -> bytes) * option (bytes -> Result bytes) * string) :=
  match name with
  | None => Ok (None, None, "none")
  | Some name =>
      if String.eqb name "" then Ok (None, None, "none") else
      let normalized := PyStr.lower (PyStr.strip name) in
      if String.eqb normalized "zlib" then
        Ok (Some (compress zlib), Some (decompress zlib), "zlib")
      else if String.eqb normalized "lz4" then
        match lz4_frame with
        | None => Err RuntimeError
        | Some c => Ok (Some (compress c), Some (decompress c), "lz4")
        end
      else if String.eqb normalized "snappy" then
        match snappy with
        | None => Err RuntimeError
        | Some c => Ok (Some (compress c), Some (decompress c), "snappy")
        end
      else Err ValueError
  end.

(** [self._compress_fn(payload) if self._compress_fn else payload] *)
Definition compressed (self : Backend) (payload : bytes) : bytes :=
  match _compress_fn self with
  | Some f => f payload
  | None => payload
  end.

(** [self._decompress_fn(data) if self._decompress_fn else data] *)
Definition decompressed (self : Backend) (data : bytes) : Result bytes :=
  match _decompress_fn self with
  | Some f => f data
  | None => Ok data
  end.

Definition _relative_key (self : Backend) (path : string) : string :=
  let path_obj := Path path in
  match relative_to path_obj (instance_data_dir self) with
  | Ok rel => str rel
  | Err _ => str path_obj
  end.

Definition _gather_files (fs : FileSystem) (self : Backend) : list PurePath :=
  let extensions := remove_dups (map (fun ext => "." ++ ext) (_file_extensions self)) in
  let files :=
    flat_map
      (fun extension =>
         (rglob fs (instance_data_dir self) ("*" ++ extension)
          ++ rglob fs (instance_data_dir self) ("*" ++ PyStr.upper extension))%list)
      extensions in
  sorted (remove_dups (map (resolve fs) files)).

Definition _load_single_file (fs : FileSystem) (self : Backend) (path : PurePath)
  : Result (string * bytes) :=
  match read_bytes fs path with
  | Err e => Err e
  | Ok payload =>
      let payload := compressed self payload in
      match relative_to path (instance_data_dir self) with
      | Err e => Err e
      | Ok rel => Ok (str rel, payload)
      end
  end.

(** [sum(path.stat().st_size for path in files)] *)
Fixpoint total_size (fs : FileSystem) (files : list PurePath) : Result Z :=
  match files with
  | [] => Ok 0
  | path :: rest =>
      match st_size fs path with
      | Err e => Err e
      | Ok n =>
          match total_size fs rest with
          | Err e => Err e
          | Ok m => Ok (n + m)
          end
      end
  end.

(** [self._memory_limit_bytes and total_bytes > self._memory_limit_bytes] *)
Definition over_limit (limit : option Z) (total_bytes : Z) : bool :=
  match limit with
  | None => false
  | Some l => negb (l =? 0) && (l <? total_bytes)
  end.

(** The loop over the completed futures: [future.result()] raises what the
    worker raised, after the earlier results have been stored. *)
Fixpoint drain (completed : list (Result (string * bytes))) (storage : gmap string bytes)
  : Result unit * gmap string bytes :=
  match completed with
  | [] => (Ok tt, storage)
  | Ok (rel_path, payload) :: rest => drain rest (<[rel_path := payload]> storage)
  | Err e :: rest => (Err e, storage)
  end.

Definition _load_dataset (fs : FileSystem) : Meth unit := fun self =>
  let files := _gather_files fs self in
  match files with
  | [] => (Ok tt, self)
  | _ =>
      match total_size fs files with
      | Err e => (Err e, self)
      | Ok total_bytes =>
          if over_limit (_memory_limit_bytes self) total_bytes then (Err MemoryError, self)
          else
            let futures := map (_load_single_file fs self) files in
            let '(r, storage) := drain (as_completed futures) (_storage self) in
            (r, set_storage self storage)
      end
  end.

(** The attribute assignments of [__init__], before anything is loaded. *)
Definition fresh_backend (id instance_data_dir : string)
    (file_extensions : option (list string))
    (compress_fn : option (bytes -> bytes)) (decompress_fn : option (bytes -> Result bytes))
    (compression_name : string) (memory_limit_gb : option Q) (num_workers : Z) : Backend :=
  let given :=
    match file_extensions with
    | None | Some [] => _DEFAULT_EXTENSIONS
    | Some l => l
    end in
  {| id := id;
     instance_data_dir := Path instance_data_dir;
     _file_extensions := map (fun ext => PyStr.lstrip_dots (PyStr.lower ext)) given;
     _compress_fn := compress_fn;
     _decompress_fn := decompress_fn;
     _compression_name := compression_name;
     _memory_limit_bytes := option_map limit_bytes_of_gb memory_limit_gb;
     _num_workers := Z.max 1 num_workers;
     _storage := ∅ |}.

(** The constructor; the object exists only when it returns. *)
Definition __init__ (fs : FileSystem) (id instance_data_dir : string)
    (file_extensions : option (list string)) (compression : option string)
    (memory_limit_gb : option Q) (num_workers : Z) : Result Backend :=
  match _resolve_compression compression with
  | Err e => Err e
  | Ok (compress_fn, decompress_fn, compression_name) =>
      let self :=
        fresh_backend id instance_data_dir file_extensions
          compress_fn decompress_fn compression_name memory_limit_gb num_workers in
      if negb (path_exists fs (Path instance_data_dir))
      then Err (FileNotFoundError instance_data_dir)
      else
        match _load_dataset fs self with
        | (Ok _, self') => Ok self'
        | (Err e, _) => Err e
        end
  end.

Definition read (identifier : string) (as_byte_io : bool) : Meth PyData := fun self =>
  match _storage self !! identifier with
  | None => (Err (KeyError identifier), self)
  | Some data =>
      match decompressed self data with
      | Err e => (Err e, self)
      | Ok payload => (Ok (if as_byte_io then DBytesIO payload else DBytes payload), self)
      end
  end.

Definition write (identifier : string) (data : PyData) : Meth unit := fun self =>
  let payload :=
    match data with
    | DBytesIO content => Ok content
    | DBytes content => Ok content
    | DTensor _ => torch_save_bytes data
    | DOther _ => Err TypeError
    end in
  match payload with
  | Err e => (Err e, self)
  | Ok payload =>
      let payload := compressed self payload in
      (Ok tt, set_storage self (<[identifier := payload]> (_storage self)))
  end.

Definition delete (identifier : string) : Meth unit := fun self =>
  (Ok tt, set_storage self (base.delete identifier (_storage self))).

Definition exists_ (identifier : string) : Meth bool := fun self =>
  (Ok (bool_decide (is_Some (_storage self !! identifier))), self).

Definition open_file (identifier mode : string) : Meth PyData := fun self =>
  match PyStr.contains "r" mode, _storage self !! identifier with
  | true, Some payload =>
      match decompressed self payload with
      | Err e => (Err e, self)
      | Ok data => (Ok (DBytesIO data), self)
      end
  | _, _ => (Err NotImplementedError, self)
  end.

(** [results.setdefault(parent, []).append(file)] on a dictionary kept in
    insertion order. *)
Fixpoint setdefault_append (results : list (string * list string)) (parent file : string)
  : list (string * list string) :=
  match results with
  | [] => [(parent, [file])]
  | (k, files) :: rest =>
      if String.eqb k parent then (k, (files ++ [file])%list) :: rest
      else (k, files) :: setdefault_append rest parent file
  end.

(** The keys are visited in the order of [map_to_list]; the order in which a
    Python dictionary yields them is not modelled. *)
Definition list_files (file_extensions : option (list string))
  : Meth (list (string * list string * list string)) := fun self =>
  let given :=
    match file_extensions with
    | None | Some [] => _file_extensions self
    | Some l => l
    end in
  let extensions := remove_dups (map (fun ext => PyStr.lstrip_dots (PyStr.lower ext)) given) in
  let results :=
    fold_left
      (fun results rel_path =>
         let path_obj := Path rel_path in
         if match extensions with [] => false | _ => true end
            && negb (PyStr.mem (PyStr.lstrip_dots (PyStr.lower (suffix path_obj))) extensions)
         then results
         else setdefault_append results (str (parent path_obj))
                (str (joinpath (instance_data_dir self) path_obj)))
      (map fst (map_to_list (_storage self))) [] in
  (Ok (map (fun '(folder, files) => (folder, [], files)) results), self).

Definition get_abs_path (sample_path : option string) : Meth string := fun self =>
  match sample_path with
  | None => (Ok (str (instance_data_dir self)), self)
  | Some sample_path =>
      if isabs sample_path then (Ok sample_path, self)
      else (Ok (str (joinpath (instance_data_dir self) (Path sample_path))), self)
  end.

Definition read_image (filepath : string) : Meth Image := fun self =>
  let rel_path := _relative_key self filepath in
  match read rel_path false self with
  | (Err (KeyError _), self') => (Err (FileNotFoundError filepath), self')
  | (Err e, self') => (Err e, self')
  | (Ok (DBytes payload), self') =>
      match Image_open payload with
      | Err e => (Err e, self')
      | Ok image => (Ok image, self')
      end
  | (Ok _, self') => (Err TypeError, self')
  end.

Fixpoint read_image_batch (filepaths : list string) : Meth (list Image) := fun self =>
  match filepaths with
  | [] => (Ok [], self)
  | path :: rest =>
      match read_image path self with
      | (Err e, self') => (Err e, self')
      | (Ok image, self') =>
          match read_image_batch rest self' with
          | (Err e, self'') => (Err e, self'')
          | (Ok images, self'') => (Ok (image :: images), self'')
          end
      end
  end.

Definition create_directory (directory_path : string) : Meth string := fun self =>
  (Ok directory_path, self).

Definition torch_load (filename : string) : Meth PyData := fun self =>
  let rel_path := _relative_key self filename in
  match read rel_path false self with
  | (Err e, self') => (Err e, self')
  | (Ok (DBytes payload), self') =>
      match torch_load_bytes payload with
      | Err e => (Err e, self')
      | Ok obj => (Ok obj, self')
      end
  | (Ok _, self') => (Err TypeError, self')
  end.

Definition torch_save (data : PyData) (filename : string) : Meth unit := fun self =>
  match torch_save_bytes data with
  | Err e => (Err e, self)
  | Ok content => write (_relative_key self filename) (DBytes content) self
  end.

Fixpoint write_batch (items : list (string * PyData)) : Meth unit := fun self =>
  match items with
  | [] => (Ok tt, self)
  | (identifier, payload) :: rest =>
      let r :=
        match payload with
        | DTensor _ =>
            match torch_save_bytes payload with
            | Err e => (Err e, self)
            | Ok content => write (_relative_key self identifier) (DBytes content) self
            end
        | _ => write (_relative_key self identifier) payload self
        end in
      match r with
      | (Err e, self') => (Err e, self')
      | (Ok _, self') => write_batch rest self'
      end
  end.

(** *** Programs over the backend *)

Inductive Call :=
| CRead (identifier : string) (as_byte_io : bool)
| CWrite (identifier : string) (data : PyData)
| CDelete (identifier : string)
| CExists (identifier : string)
| COpenFile (identifier mode : string)
| CListFiles (file_extensions : option (list string))
| CGetAbsPath (sample_path : option string)
| CReadImage (filepath : string)
| CReadImageBatch (filepaths : list string)
| CCreateDirectory (directory_path : string)
| CTorchLoad (filename : string)
| CTorchSave (data : PyData) (filename : string)
| CWriteBatch (items : list (string * PyData)).

(** The state a call leaves, whether it returns or raises. *)
Definition after (c : Call) (self : Backend) : Backend :=
  match c with
  | CRead i b => snd (read i b self)
  | CWrite i d => snd (write i d self)
  | CDelete i => snd (delete i self)
  | CExists i => snd (exists_ i self)
  | COpenFile i m => snd (open_file i m self)
  | CListFiles e => snd (list_files e self)
  | CGetAbsPath p => snd (get_abs_path p self)
  | CReadImage f => snd (read_image f self)
  | CReadImageBatch fs => snd (read_image_batch fs self)
  | CCreateDirectory d => snd (create_directory d self)
  | CTorchLoad f => snd (torch_load f self)
  | CTorchSave d f => snd (torch_save d f self)
  | CWriteBatch items => snd (write_batch items self)
  end.

Definition run (calls : list Call) (self : Backend) : Backend :=
  fold_left (fun st c => after c st) calls self.

(** The identifiers a call hands to [write] or [delete]. *)
Definition targets (self : Backend) (c : Call) : list string :=
  match c with
  | CWrite i _ => [i]
  | CDelete i => [i]
  | CTorchSave _ f => [_relative_key self f]
  | CWriteBatch items => map (fun it => _relative_key self (fst it)) items
  | _ => []
  end.

End GH200InMemoryBackend.

End Backend.


(** ** Concrete worlds, libraries and file systems used to exercise the model *)

Module Samples.

(** A world without CUDA: every probe answers no, every operation raises. *)
Definition no_cuda : Uvm.World :=
  {| Uvm.probe := fun _ _ => false;
     Uvm.perform := fun _ _ => Uvm.Raise |}.

(** A world where [torch.cuda.memory_advise] exists and raises, while the
    runtime handle and [cudaMemAdvise] work. *)
Definition advise_raises : Uvm.World :=
  {| Uvm.probe := fun _ _ => true;
     Uvm.perform := fun _ o =>
       match o with
       | Uvm.OMemoryAdvise _ _ _ => Uvm.Raise
       | Uvm.OStorageNbytes _ => Uvm.Ret 4096
       | _ => Uvm.Ret 0
       end |}.

Definition hints_on : Uvm.Environ :=
  {[ "SIMPLETUNER_GH200_ENABLE_UVM_HINTS" := " True " ]}.

Definition sample_batch : list (string * Uvm.Obj) :=
  [ ("latents", Uvm.OTensor 1%nat);
    ("encoder_hidden_states", Uvm.OSeq [Uvm.OTensor 2%nat; Uvm.OTensor 3%nat]);
    ("text_embeddings", Uvm.OMapping [("a", Uvm.OTensor 4%nat)]) ].

(** A toy compression library: one tag byte in front of the data. *)
Definition tagged (tag : Byte.byte) : Backend.Codec :=
  {| Backend.compress := fun data => tag :: data;
     Backend.decompress := fun data =>
       match data with
       | t :: rest =>
           if Byte.eqb t tag then Backend.Ok rest
           else Backend.Err (Backend.LibraryError 1)
       | [] => Backend.Err (Backend.LibraryError 1)
       end |}.

(** A thread pool that completes the futures last to first. *)
Definition last_first (futures : list (Backend.Result (string * Backend.bytes)))
  : list (Backend.Result (string * Backend.bytes)) := rev futures.

(** [torch.save] and [torch.load] on tensors named by one byte. *)
Definition save_tensor (obj : Backend.PyData) : Backend.Result Backend.bytes :=
  match obj with
  | Backend.DTensor 0%nat => Backend.Ok [Byte.x00]
  | Backend.DTensor _ => Backend.Ok [Byte.x01]
  | _ => Backend.Err (Backend.LibraryError 2)
  end.

Definition load_tensor (data : Backend.bytes) : Backend.Result Backend.PyData :=
  match data with
  | [Byte.x00] => Backend.Ok (Backend.DTensor 0%nat)
  | [Byte.x01] => Backend.Ok (Backend.DTensor 1%nat)
  | _ => Backend.Err (Backend.LibraryError 2)
  end.

(** An image decoder that accepts any non-empty data and reports its size. *)
Definition open_image (data : Backend.bytes) : Backend.Result nat :=
  match data with
  | [] => Backend.Err (Backend.LibraryError 3)
  | _ => Backend.Ok (length data)
  end.

(** A backend object with the given configuration and contents. *)
Definition backend_with (codec : option Backend.Codec) (limit : option Z)
    (storage : gmap string Backend.bytes) : Backend.Backend :=
  {| Backend.id := "cache";
     Backend.instance_data_dir := Backend.Path "/data";
     Backend._file_extensions := ["png"];
     Backend._compress_fn := option_map Backend.compress codec;
     Backend._decompress_fn := option_map Backend.decompress codec;
     Backend._compression_name := match codec with Some _ => "zlib" | None => "none" end;
     Backend._memory_limit_bytes := limit;
     Backend._num_workers := 16;
     Backend._storage := storage |}.

(** A small tree under [/data]. *)
Definition dataset : Backend.FileSystem :=
  {| Backend.cwd := ["home"; "user"];
     Backend.entries :=
       [ (["data"], Backend.Directory 4096);
         (["data"; "a.png"], Backend.RegularFile [Byte.x01; Byte.x02]);
         (["data"; "sub"], Backend.Directory 4096);
         (["data"; "sub"; "b.PNG"], Backend.RegularFile [Byte.x03]);
         (["data"; "notes.txt"], Backend.RegularFile [Byte.x05]) ] |}.

(** A directory whose only picture has a mixed-case extension. *)
Definition mixed_case : Backend.FileSystem :=
  {| Backend.cwd := ["home"; "user"];
     Backend.entries :=
       [ (["data"], Backend.Directory 4096);
         (["data"; "a.Png"], Backend.RegularFile [Byte.x01; Byte.x02]) ] |}.

(** The same picture, reached from the current directory as [data]. *)
Definition relative_tree : Backend.FileSystem :=
  {| Backend.cwd := ["work"];
     Backend.entries :=
       [ (["work"; "data"], Backend.Directory 4096);
         (["work"; "data"; "a.png"], Backend.RegularFile [Byte.x01; Byte.x02]) ] |}.

(** [float] on the two texts the examples use, as tenths. *)
Definition tenths (s : string) : option Z :=
  if String.eqb s "2.5" then Some 25
  else if String.eqb s "4" then Some 40
  else None.

End Samples.

(** ** The rest of the backend's surface *)

Module Representation.
Import Backend.

(** The dictionary [get_instance_representation] returns and
    [from_instance_representation] reads: a key is absent ([None]) or holds
    a value of the type the constructor wants. *)
Record Representation := {
  r_backend_type : option string;
  r_id : option string;
  r_instance_data_dir : option string;
  r_file_extensions : option (list string);
  r_compression : option string;
  r_memory_limit_gb : option Q;
  r_num_workers : option Z
}.

(** [self._memory_limit_bytes / (1024**3)], as the rational number the float
    denotes; the division is exact for limits below [2 ^ 53] bytes. *)
Definition gb_of_limit_bytes (limit : Z) : Q := Qmake limit (2 ^ 30).

Definition get_instance_representation (self : Backend) : Representation :=
  {| r_backend_type := Some "in_memory";
     r_id := Some (id self);
     r_instance_data_dir := Some (str (instance_data_dir self));
     r_file_extensions := Some (_file_extensions self);
     r_compression := Some (_compression_name self);
     r_memory_limit_gb := option_map gb_of_limit_bytes (_memory_limit_bytes self);
     r_num_workers := Some (_num_workers self) |}.

Definition from_instance_representation
    (zlib : Codec) (lz4_frame snappy : option Codec) (image_file_extensions : list string)
    (as_completed : list (Result (string * bytes)) -> list (Result (string * bytes)))
    (fs : FileSystem) (representation : Representation) : Result Backend :=
  match r_backend_type representation with
  | Some "in_memory" =>
      match r_id representation with
      | None => Err (KeyError "id")
      | Some id =>
          match r_instance_data_dir representation with
          | None => Err (KeyError "instance_data_dir")
          | Some instance_data_dir =>
              __init__ zlib lz4_frame snappy image_file_extensions as_completed fs
                id instance_data_dir
                (r_file_extensions representation)
                (r_compression representation)
                (r_memory_limit_gb representation)
                (match r_num_workers representation with Some n => n | None => 16 end)
          end
      end
  | _ => Err ValueError
  end.

(** A component [Path] keeps: not empty, not the dot, no slash in it. *)
Definition proper_name (s : string) : Prop :=
  s <> "" /\ s <> "." /\ PyStr.partition "/" s = None.

(** A path as [Path] builds them. *)
Definition normal_path (p : PurePath) : Prop :=
  In (anchor p) [""; "/"; "//"] /\ Forall proper_name (parts p).

(** [file] is listed under [folder] in what [list_files] returns. *)
Definition listed (groups : list (string * list string * list string))
    (folder file : string) : Prop :=
  exists files, In (folder, [], files) groups /\ In file files.

(** The test [list_files] applies to a key. *)
Definition extension_wanted (wanted : list string) (rel_path : string) : bool :=
  match wanted with
  | [] => true
  | _ => PyStr.mem (PyStr.lstrip_dots (PyStr.lower (suffix (Path rel_path)))) wanted
  end.

(** The extensions [list_files] looks for. *)
Definition wanted_extensions (self : Backend) (file_extensions : option (list string))
  : list string :=
  remove_dups
    (map (fun ext => PyStr.lstrip_dots (PyStr.lower ext))
       match file_extensions with
       | None | Some [] => _file_extensions self
       | Some l => l
       end).

End Representation.

(** ** [simpletuner/gh200/audio_support_snippet.py] *)

Module Audio.
Import Uvm.

Definition AUDIO_KEYS : list string :=
  ["audio_latents"; "waveform"; "audio_samples"; "audio_features"].

(** [if torch.is_tensor(value) and value.is_cuda:] with its two calls; an
    object that is not a tensor is left alone. *)
Definition hint_if_cuda_tensor (ov : Override) (env : Environ) (value : Obj) : M unit :=
  match value with
  | OTensor t =>
      let! is_cuda := query (QIsCuda t) in
      if (is_cuda : bool) then
        let! _ := prefer_cpu_residency ov env t in
        let! _ := prefetch_to_device ov env t None in
        ret tt
      else ret tt
  | _ => ret tt
  end.

Definition apply_audio_uvm_hints
    (ov : Override) (env : Environ) (batch : list (string * Obj)) : M unit :=
  if negb (gh200_uvm_enabled ov env) then ret tt else
  for_each AUDIO_KEYS
    (fun key =>
       let value := batch_get batch key in
       match value with
       | OTensor _ => hint_if_cuda_tensor ov env value
       | OMapping items =>
           for_each items (fun kv => hint_if_cuda_tensor ov env (snd kv))
       | _ => ret tt
       end).

End Audio.

(** ** What a run of the hint functions may show *)

Module UvmSpec.
Import Uvm.

(** The events all satisfy [P], whatever the world and the history. *)
Definition emits (P : Event -> Prop) {A} (m : M A) : Prop :=
  forall w h, Forall P (snd (m w h)).

(** The computation returns, whatever the world and the history. *)
Definition never_raises {A} (m : M A) : Prop :=
  forall w h, exists a, fst (m w h) = Val a.

(** An event about [t] or about no tensor. *)
Definition about (t : Tensor) (e : Event) : Prop :=
  event_tensor e = None \/ event_tensor e = Some t.

(** An event about one of the tensors [ts] or about no tensor. *)
Definition about_one_of (ts : list Tensor) (e : Event) : Prop :=
  forall t, event_tensor e = Some t -> In t ts.

(** The runtime handle was asked for, or used. *)
Definition uses_cudart (e : Event) : bool :=
  match e with
  | EOp OCudart _ | EOp (OGetAttr _) _
  | EOp (OCudaMemAdvise _ _ _ _) _ | EOp (OCudaMemPrefetchAsync _ _ _) _ => true
  | _ => false
  end.

(** The tensors the audio snippet looks at under one key: the value itself,
    or the values of a mapping, one level down. *)
Definition shallow_tensors (value : Obj) : list Tensor :=
  match value with
  | OTensor t => [t]
  | OMapping items =>
      flat_map (fun kv => match snd kv with OTensor t => [t] | _ => [] end) items
  | _ => []
  end.

(** [torch.cuda.memory_advise] raised. *)
Definition memory_advise_failed (e : Event) : bool :=
  match e with
  | EOp (OMemoryAdvise _ _ _) Raise => true
  | _ => false
  end.

(** [_apply_preferred_location] from [cudart = _cudart()] on, below its
    first [try] block: the advice through the runtime handle. *)
Definition cudart_fallback (tensor : Tensor) (prefer_cpu : bool) : M bool :=
  let! cudart := _cudart in
  match cudart with
  | None => ret false
  | Some _ =>
      let! size := _element_span_bytes tensor in
      if size <=? 0 then ret false else
      let! ptr := tensor_pointer tensor in
      match ptr with
      | None => ret false
      | Some ptr => advise_through_cudart ptr size prefer_cpu
      end
  end.

(** How a hint function ends: it returns a boolean; [False] when
    [cudaMemAdvise] or [cudaMemPrefetchAsync] raised; and [True] exactly
    when the last thing it did was a hint call that returned. *)
Definition settled (r : Res bool * list Event) : Prop :=
  exists b : bool,
    fst r = Val b
    /\ (existsb cudart_hint_failed (snd r) = true -> b = false)
    /\ (b = true <-> ended_on_successful_hint (snd r) = true).

(** A run [r] from history [h] in which [torch.cuda.memory_advise] raised
    goes on, right after that call, as [cudart_fallback] does from there,
    and returns what it returns. *)
Definition falls_back_on_cudart (tensor : Tensor) (prefer_cpu : bool)
    (w : World) (h : History) (r : Res bool * list Event) : Prop :=
  existsb memory_advise_failed (snd r) = true ->
  exists e early late,
    snd r = (late ++ e :: early)%list
    /\ memory_advise_failed e = true
    /\ cudart_fallback tensor prefer_cpu w (e :: early ++ h)%list = (fst r, late).

(** What [_current_cuda_device] returns for an answer of
    [torch.cuda.current_device()]. *)
Definition device_of (answer : Outcome) : Z :=
  match answer with
  | Ret d => d
  | Raise => 0
  end.

(** The hint calls among the events, first call first. *)
Definition hint_calls (evs : list Event) : list Op :=
  rev (flat_map (fun e => match e with
                          | EOp o _ => if is_hint_call o then [o] else []
                          | EQuery _ _ => []
                          end) evs).

End UvmSpec.

(** ** [gh200_diagnostic.py]: [_truthy] *)

Module DiagnosticFlag.

Definition _truthy (value : option string) : bool :=
  match value with
  | None => false
  | Some v =>
      negb (String.eqb v "")
      && PyStr.mem (PyStr.lower (PyStr.strip v)) ["1"; "true"; "yes"; "on"]
  end.

End DiagnosticFlag.

(** ** More sample worlds *)

Module MoreSamples.

(** CUDA is there, the tensors are not on it. *)
Definition cpu_tensors : Uvm.World :=
  {| Uvm.probe := fun _ q => match q with Uvm.QIsCuda _ => false | _ => true end;
     Uvm.perform := fun _ _ => Uvm.Ret 0 |}.

(** PyTorch has [memory_advise] and every call returns; device 2 is current. *)
Definition torch_advises : Uvm.World :=
  {| Uvm.probe := fun _ _ => true;
     Uvm.perform := fun _ o =>
       match o with
       | Uvm.OCurrentDevice => Uvm.Ret 2
       | _ => Uvm.Ret 0
       end |}.

Definition audio_batch : list (string * Uvm.Obj) :=
  [ ("waveform", Uvm.OTensor 5%nat);
    ("audio_features", Uvm.OMapping [("mel", Uvm.OTensor 6%nat);
                                     ("nested", Uvm.OSeq [Uvm.OTensor 7%nat])]);
    ("latents", Uvm.OTensor 8%nat) ].

(** The sample tree staged without compression, by hand. *)
Definition staged : Backend.Backend :=
  Samples.backend_with None None
    {[ "a.png" := [Byte.x01; Byte.x02]; "sub/b.PNG" := [Byte.x03] ]}.

End MoreSamples.

(** * Properties *)

Local Open Scope list_scope.

(** ** Strings *)

Module PyStrFacts.
Import PyStr.

Lemma mem_In x l : mem x l = true <-> In x l.
Proof.
  unfold mem. rewrite existsb_exists. split.
  - intros (y & Hy & He). apply String.eqb_eq in He. now subst.
  - intros H. exists x. split; [exact H | apply String.eqb_refl].
Qed.

Lemma append_nil (b : string) : ("" ++ b)%string = b.
Proof. reflexivity. Qed.

Lemma append_cons (c : ascii) (a b : string) :
  (String c a ++ b)%string = String c (a ++ b)%string.
Proof. reflexivity. Qed.

Lemma prefix_app sub s : String.prefix sub s = true <-> exists b, s = (sub ++ b)%string.
Proof.
  revert s. induction sub as [|c sub IH]; intros s; simpl.
  - split; [intros _; exists s; reflexivity | now destruct s].
  - destruct s as [|d s]; simpl.
    + split; [discriminate | intros [b Hb]; discriminate].
    + destruct (ascii_dec c d) as [->|Hne].
      * rewrite IH. split; intros [b Hb]; exists b; rewrite append_cons in *; congruence.
      * split; [discriminate | intros [b Hb]; rewrite append_cons in Hb; congruence].
Qed.

Lemma contains_eq sub s :
  contains sub s =
  if String.prefix sub s then true
  else match s with
       | EmptyString => false
       | String _ r => contains sub r
       end.
Proof. destruct s; reflexivity. Qed.

Lemma contains_occurs sub s :
  contains sub s = true <-> exists a b, s = (a ++ sub ++ b)%string.
Proof.
  induction s as [|c s IH]; rewrite contains_eq.
  - destruct (String.prefix sub "") eqn:Hp.
    + apply prefix_app in Hp as [b Hb]. split; [|reflexivity].
      intros _. exists "", b. exact Hb.
    + split; [discriminate|]. intros (a & b & Hab).
      destruct a.
      * rewrite append_nil in Hab.
        assert (String.prefix sub "" = true) by (apply prefix_app; eauto). congruence.
      * rewrite append_cons in Hab. discriminate.
  - destruct (String.prefix sub (String c s)) eqn:Hp.
    + apply prefix_app in Hp as [b Hb]. split; [|reflexivity].
      intros _. exists "", b. exact Hb.
    + rewrite IH. split.
      * intros (a & b & ->). exists (String c a), b. reflexivity.
      * intros (a & b & Hab). destruct a as [|d a].
        -- rewrite append_nil in Hab.
           assert (String.prefix sub (String c s) = true) by (apply prefix_app; eauto).
           congruence.
        -- rewrite append_cons in Hab. injection Hab as -> ->. eauto.
Qed.

Lemma endswith_eq s suffix :
  endswith s suffix =
  if String.eqb s suffix then true
  else match s with
       | EmptyString => false
       | String _ r => endswith r suffix
       end.
Proof. destruct s; reflexivity. Qed.

Lemma endswith_ends s suffix :
  endswith s suffix = true <-> exists front, s = (front ++ suffix)%string.
Proof.
  induction s as [|c s IH]; rewrite endswith_eq.
  - destruct (String.eqb "" suffix) eqn:E.
    + apply String.eqb_eq in E. subst suffix. split; [|reflexivity].
      intros _. exists "". reflexivity.
    + apply String.eqb_neq in E. split; [discriminate|].
      intros [front H]. destruct front.
      * rewrite append_nil in H. congruence.
      * rewrite append_cons in H. discriminate.
  - destruct (String.eqb (String c s) suffix) eqn:E.
    + apply String.eqb_eq in E. split; [|reflexivity].
      intros _. exists "". rewrite append_nil. exact E.
    + apply String.eqb_neq in E. rewrite IH. split.
      * intros [front ->]. exists (String c front). reflexivity.
      * intros [front H]. destruct front as [|d front].
        -- rewrite append_nil in H. congruence.
        -- rewrite append_cons in H. injection H as -> ->. eauto.
Qed.

End PyStrFacts.

(** ** The opt-in flag and the hint functions *)

Module UvmFacts.
Import Uvm UvmSpec.

(** C10. After any sequence of [set_uvm_hint_override] calls, the last of
    which passes [True] or [False], [gh200_uvm_enabled] returns that value
    whatever the environment holds; when the last call passes [None], it
    returns [True] exactly when SIMPLETUNER_GH200_ENABLE_UVM_HINTS, stripped
    and lowercased, is one of "1", "true", "yes", "on" (the empty string
    standing for an unset variable). *)
Theorem gh200_uvm_enabled_follows_last_override :
  forall (earlier : list (option bool)) (value : option bool)
         (ov : Override) (env : Environ),
    let ov' := run_overrides (earlier ++ [value]) ov in
    match value with
    | Some b => gh200_uvm_enabled ov' env = b
    | None =>
        gh200_uvm_enabled ov' env = true <->
        In (PyStr.lower (PyStr.strip
              (environ_get env "SIMPLETUNER_GH200_ENABLE_UVM_HINTS" "")))
           ["1"; "true"; "yes"; "on"]
    end.
Proof.
  intros earlier value ov env ov'.
  assert (Hov : ov' = value).
  { unfold ov', run_overrides. rewrite fold_left_app. reflexivity. }
  rewrite Hov. destruct value as [b|].
  - reflexivity.
  - unfold gh200_uvm_enabled. apply PyStrFacts.mem_In.
Qed.

Lemma apply_preferred_location_disabled w ov env tensor prefer_cpu h :
  gh200_uvm_enabled ov env = false ->
  _apply_preferred_location ov env tensor prefer_cpu w h = (Val false, []).
Proof. intros H. unfold _apply_preferred_location. rewrite H. reflexivity. Qed.

Lemma prefetch_to_device_disabled w ov env tensor device h :
  gh200_uvm_enabled ov env = false ->
  prefetch_to_device ov env tensor device w h = (Val false, []).
Proof. intros H. unfold prefetch_to_device. rewrite H. reflexivity. Qed.

Lemma apply_preferred_location_no_cuda w ov env tensor prefer_cpu h :
  gh200_uvm_enabled ov env = true ->
  (forall h', probe w h' QIsAvailable = false) ->
  _apply_preferred_location ov env tensor prefer_cpu w h
  = (Val false, [EQuery QIsAvailable false]).
Proof.
  intros H Hno. unfold _apply_preferred_location. rewrite H. simpl.
  unfold bind, unavailable_or_not_cuda, bind, query. rewrite Hno. reflexivity.
Qed.

Lemma prefetch_to_device_no_cuda w ov env tensor device h :
  gh200_uvm_enabled ov env = true ->
  (forall h', probe w h' QIsAvailable = false) ->
  prefetch_to_device ov env tensor device w h
  = (Val false, [EQuery QIsAvailable false]).
Proof.
  intros H Hno. unfold prefetch_to_device. rewrite H. simpl.
  unfold bind, unavailable_or_not_cuda, bind, query. rewrite Hno. reflexivity.
Qed.

Lemma quiet_probe : quiet [EQuery QIsAvailable false].
Proof. repeat constructor. Qed.

Lemma quiet_app evs1 evs2 : quiet evs1 -> quiet evs2 -> quiet (evs1 ++ evs2).
Proof. unfold quiet. intros. apply Forall_app. split; assumption. Qed.

(** A loop whose every turn returns quietly returns quietly. *)
Lemma for_each_quiet {A} (l : list A) (body : A -> M unit) w :
  (forall a h, fst (body a w h) = Val tt /\ quiet (snd (body a w h))) ->
  forall h, fst (for_each l body w h) = Val tt /\ quiet (snd (for_each l body w h)).
Proof.
  intros Hbody. induction l as [|a l IH]; intros h; simpl.
  - split; [reflexivity | constructor].
  - unfold bind. destruct (Hbody a h) as [Hv Hq].
    destruct (body a w h) as [r e1]. simpl in Hv, Hq. subst r.
    destruct (IH (e1 ++ h)) as [Hv' Hq'].
    destruct (for_each l body w (e1 ++ h)) as [r' e2]. simpl in *.
    split; [assumption | apply quiet_app; assumption].
Qed.

Lemma hint_inert w ov env tensor prefer_cpu h :
  gh200_uvm_enabled ov env = false \/ (forall h', probe w h' QIsAvailable = false) ->
  fst (_apply_preferred_location ov env tensor prefer_cpu w h) = Val false
  /\ quiet (snd (_apply_preferred_location ov env tensor prefer_cpu w h)).
Proof.
  intros H. destruct (gh200_uvm_enabled ov env) eqn:He.
  - destruct H as [H|H]; [discriminate|].
    rewrite apply_preferred_location_no_cuda by assumption.
    split; [reflexivity | apply quiet_probe].
  - rewrite apply_preferred_location_disabled by assumption.
    split; [reflexivity | constructor].
Qed.

Lemma prefetch_inert w ov env tensor device h :
  gh200_uvm_enabled ov env = false \/ (forall h', probe w h' QIsAvailable = false) ->
  fst (prefetch_to_device ov env tensor device w h) = Val false
  /\ quiet (snd (prefetch_to_device ov env tensor device w h)).
Proof.
  intros H. destruct (gh200_uvm_enabled ov env) eqn:He.
  - destruct H as [H|H]; [discriminate|].
    rewrite prefetch_to_device_no_cuda by assumption.
    split; [reflexivity | apply quiet_probe].
  - rewrite prefetch_to_device_disabled by assumption.
    split; [reflexivity | constructor].
Qed.

Lemma optimize_batch_inert w ov env batch h :
  gh200_uvm_enabled ov env = false \/ (forall h', probe w h' QIsAvailable = false) ->
  fst (optimize_batch_for_gh200 ov env batch w h) = Val tt
  /\ quiet (snd (optimize_batch_for_gh200 ov env batch w h)).
Proof.
  intros H. unfold optimize_batch_for_gh200.
  destruct (gh200_uvm_enabled ov env) eqn:He; cbn [negb].
  2: { split; [reflexivity | constructor]. }
  set (cpu_body := fun tensor : Tensor =>
                     let! _ := prefer_cpu_residency ov env tensor in ret tt).
  set (gpu_body := fun tensor : Tensor =>
                     let! _ := prefer_gpu_residency ov env tensor in
                     let! _ := prefetch_to_device ov env tensor None in ret tt).
  set (key_body := fun key : string => for_each (_iter_tensors (batch_get batch key)) gpu_body).
  assert (Hcpu : forall t h0,
             fst (cpu_body t w h0) = Val tt /\ quiet (snd (cpu_body t w h0))).
  { intros t h0. unfold cpu_body, bind, prefer_cpu_residency.
    destruct (hint_inert w ov env t true h0) as [Hv Hq]; [rewrite He; exact H|].
    destruct (_apply_preferred_location ov env t true w h0) as [r e1].
    simpl in Hv, Hq. subst r. simpl. split; [reflexivity | assumption]. }
  assert (Hgpu : forall t h0,
             fst (gpu_body t w h0) = Val tt /\ quiet (snd (gpu_body t w h0))).
  { intros t h0. unfold gpu_body, bind, prefer_gpu_residency.
    destruct (hint_inert w ov env t false h0) as [Hv Hq]; [rewrite He; exact H|].
    destruct (_apply_preferred_location ov env t false w h0) as [r e1].
    simpl in Hv, Hq. subst r.
    destruct (prefetch_inert w ov env t None (e1 ++ h0)) as [Hv' Hq']; [rewrite He; exact H|].
    destruct (prefetch_to_device ov env t None w (e1 ++ h0)) as [r' e2].
    simpl in Hv', Hq'. subst r'. simpl.
    split; [reflexivity | apply quiet_app; assumption]. }
  assert (Hkey : forall key h0,
             fst (key_body key w h0) = Val tt /\ quiet (snd (key_body key w h0))).
  { intros key h0. unfold key_body. apply for_each_quiet, Hgpu. }
  unfold bind; cbv beta.
  destruct (for_each_quiet (_iter_tensors (batch_get batch "latents")) cpu_body w Hcpu h)
    as [Hv Hq].
  destruct (for_each (_iter_tensors (batch_get batch "latents")) cpu_body w h) as [r e1].
  simpl in Hv, Hq. subst r.
  destruct (for_each_quiet
              ["encoder_hidden_states"; "text_embeddings"; "pooled_prompt_embeds"]
              key_body w Hkey (e1 ++ h)) as [Hv' Hq'].
  destruct (for_each ["encoder_hidden_states"; "text_embeddings"; "pooled_prompt_embeds"]
              key_body w (e1 ++ h)) as [r' e2].
  simpl in Hv', Hq'. subst r'. simpl.
  split; [reflexivity | apply quiet_app; assumption].
Qed.

(** C5. When the hints are not enabled ([gh200_uvm_enabled] is false, as it
    is with no override and a flag that is not truthy) or
    [torch.cuda.is_available()] answers no, [prefer_cpu_residency],
    [prefer_gpu_residency] and [prefetch_to_device] return [False] and
    [optimize_batch_for_gh200] returns, and the events each of them performs
    are quiet: no runtime operation among them, and none that looks at a
    tensor. *)
Theorem hints_inert_unless_enabled_and_cuda :
  forall (w : World) (ov : Override) (env : Environ) (tensor : Tensor)
         (device : option Z) (batch : list (string * Obj)) (h : History),
    gh200_uvm_enabled ov env = false \/ (forall h', probe w h' QIsAvailable = false) ->
    (fst (prefer_cpu_residency ov env tensor w h) = Val false
     /\ quiet (snd (prefer_cpu_residency ov env tensor w h)))
    /\ (fst (prefer_gpu_residency ov env tensor w h) = Val false
        /\ quiet (snd (prefer_gpu_residency ov env tensor w h)))
    /\ (fst (prefetch_to_device ov env tensor device w h) = Val false
        /\ quiet (snd (prefetch_to_device ov env tensor device w h)))
    /\ (fst (optimize_batch_for_gh200 ov env batch w h) = Val tt
        /\ quiet (snd (optimize_batch_for_gh200 ov env batch w h))).
Proof.
  intros w ov env tensor device batch h H.
  repeat split.
  - apply hint_inert, H.
  - apply hint_inert, H.
  - apply hint_inert, H.
  - apply hint_inert, H.
  - apply prefetch_inert, H.
  - apply prefetch_inert, H.
  - apply optimize_batch_inert, H.
  - apply optimize_batch_inert, H.
Qed.

Lemma hints_inert_unless_enabled_and_cuda_witness :
  (fst (prefer_cpu_residency None Samples.hints_on 1%nat Samples.no_cuda []) = Val false
   /\ quiet (snd (prefer_cpu_residency None Samples.hints_on 1%nat Samples.no_cuda [])))
  /\ (fst (prefer_gpu_residency None Samples.hints_on 1%nat Samples.no_cuda []) = Val false
      /\ quiet (snd (prefer_gpu_residency None Samples.hints_on 1%nat Samples.no_cuda [])))
  /\ (fst (prefetch_to_device None Samples.hints_on 1%nat None Samples.no_cuda []) = Val false
      /\ quiet (snd (prefetch_to_device None Samples.hints_on 1%nat None Samples.no_cuda [])))
  /\ (fst (optimize_batch_for_gh200 None Samples.hints_on Samples.sample_batch
             Samples.no_cuda []) = Val tt
      /\ quiet (snd (optimize_batch_for_gh200 None Samples.hints_on Samples.sample_batch
                       Samples.no_cuda []))).
Proof.
  apply (hints_inert_unless_enabled_and_cuda
           Samples.no_cuda None Samples.hints_on 1%nat None Samples.sample_batch []).
  right. intros h'. reflexivity.
Defined.

(** One step of symbolic execution: split on the answer of the next probe or
    operation, or on the next test. *)
Ltac run_step :=
  match goal with
  | |- context [perform ?w ?h ?o] => destruct (perform w h o) eqn:?
  | |- context [probe ?w ?h ?q] => destruct (probe w h q) eqn:?
  | |- context [Z.eqb ?a ?b] => destruct (Z.eqb a b) eqn:?
  end; cbn.

Ltac run_all :=
  unfold bind, try_except, query, op, ret; cbn; repeat run_step.

Lemma current_cuda_device_plain : returns_without_hint _current_cuda_device.
Proof.
  intros w h. unfold _current_cuda_device. run_all; eauto.
Qed.

Lemma cudart_plain : returns_without_hint _cudart.
Proof.
  intros w h. unfold _cudart. run_all; eauto.
Qed.

Lemma element_span_bytes_plain tensor : returns_without_hint (_element_span_bytes tensor).
Proof.
  intros w h. unfold _element_span_bytes. run_all; eauto.
Qed.

Lemma tensor_pointer_plain tensor : returns_without_hint (tensor_pointer tensor).
Proof.
  intros w h. unfold tensor_pointer. run_all; eauto.
Qed.

Lemma unavailable_or_not_cuda_plain tensor :
  returns_without_hint (unavailable_or_not_cuda tensor).
Proof.
  intros w h. unfold unavailable_or_not_cuda. run_all; eauto.
Qed.

Lemma advise_through_torch_outcome tensor prefer_cpu w h :
  exists b evs,
    advise_through_torch tensor prefer_cpu w h = (Val b, evs)
    /\ existsb cudart_hint_failed evs = false
    /\ (b = true -> ended_on_successful_hint evs = true).
Proof.
  unfold advise_through_torch, _current_cuda_device.
  destruct prefer_cpu; run_all;
    (eexists; eexists; split; [reflexivity | split; [reflexivity | cbn; congruence]]).
Qed.

Lemma advise_through_cudart_outcome ptr size prefer_cpu w h :
  exists b evs,
    advise_through_cudart ptr size prefer_cpu w h = (Val b, evs)
    /\ (existsb cudart_hint_failed evs = true -> b = false)
    /\ (b = true -> ended_on_successful_hint evs = true).
Proof.
  unfold advise_through_cudart, _current_cuda_device.
  destruct prefer_cpu; run_all;
    (eexists; eexists; split; [reflexivity | split; cbn; congruence]).
Qed.

Lemma prefetch_through_cudart_outcome ptr size device w h :
  exists b evs,
    prefetch_through_cudart ptr size device w h = (Val b, evs)
    /\ (existsb cudart_hint_failed evs = true -> b = false)
    /\ (b = true -> ended_on_successful_hint evs = true).
Proof.
  unfold prefetch_through_cudart. run_all;
    (eexists; eexists; split; [reflexivity | split; cbn; congruence]).
Qed.

Lemma no_hint_no_failure evs :
  existsb is_hint_event evs = false -> existsb cudart_hint_failed evs = false.
Proof.
  induction evs as [|e evs IH]; [reflexivity|]. simpl.
  intros H. apply orb_false_iff in H as [He Hr]. rewrite (IH Hr), orb_false_r.
  destruct e as [q b|[] []]; simpl in *; congruence.
Qed.

Lemma ended_app evs earlier :
  ended_on_successful_hint evs = true ->
  ended_on_successful_hint (evs ++ earlier) = true.
Proof. destruct evs; [discriminate | intros H; exact H]. Qed.

Lemma best_effort_false evs : best_effort (Val false, evs).
Proof. exists false. split; [reflexivity|]. split; [reflexivity | discriminate]. Qed.

Lemma best_effort_last b evs earlier :
  (existsb cudart_hint_failed evs = true -> b = false) ->
  (b = true -> ended_on_successful_hint evs = true) ->
  existsb cudart_hint_failed earlier = false ->
  best_effort (Val b, evs ++ earlier).
Proof.
  intros Hf Hs He. exists b. simpl. split; [reflexivity|]. split.
  - rewrite existsb_app, He, orb_false_r. exact Hf.
  - intros Hb. apply ended_app, Hs, Hb.
Qed.

(** Replace the run of the next block by what the block's lemma says. *)
Ltac run_block :=
  match goal with
  | |- context [unavailable_or_not_cuda ?t ?w ?h] =>
      let H := fresh "Hplain" in
      destruct (unavailable_or_not_cuda_plain t w h) as (? & ? & -> & H);
      apply no_hint_no_failure in H
  | |- context [_current_cuda_device ?w ?h] =>
      let H := fresh "Hplain" in
      destruct (current_cuda_device_plain w h) as (? & ? & -> & H);
      apply no_hint_no_failure in H
  | |- context [_cudart ?w ?h] =>
      let H := fresh "Hplain" in
      destruct (cudart_plain w h) as (? & ? & -> & H);
      apply no_hint_no_failure in H
  | |- context [_element_span_bytes ?t ?w ?h] =>
      let H := fresh "Hplain" in
      destruct (element_span_bytes_plain t w h) as (? & ? & -> & H);
      apply no_hint_no_failure in H
  | |- context [tensor_pointer ?t ?w ?h] =>
      let H := fresh "Hplain" in
      destruct (tensor_pointer_plain t w h) as (? & ? & -> & H);
      apply no_hint_no_failure in H
  end; cbv beta iota.

Ltac no_failure :=
  repeat rewrite existsb_app; cbn [existsb];
  repeat match goal with H : existsb cudart_hint_failed _ = false |- _ => rewrite H end;
  reflexivity.

Lemma apply_preferred_location_best_effort w ov env tensor prefer_cpu h :
  best_effort (_apply_preferred_location ov env tensor prefer_cpu w h).
Proof.
  unfold _apply_preferred_location.
  destruct (gh200_uvm_enabled ov env); cbn [negb]; [|apply best_effort_false].
  unfold bind. run_block.
  match goal with |- context [if ?b then _ else _] => destruct b end;
    [apply best_effort_false|].
  match goal with
  | |- context [advise_through_torch ?t ?p ?w ?h] =>
      destruct (advise_through_torch_outcome t p w h) as (advised & ev & -> & Hno & Hok)
  end; cbv beta iota.
  destruct advised.
  { unfold ret. cbn [app].
    apply (best_effort_last true); [congruence | exact Hok | no_failure]. }
  run_block.
  match goal with |- context [match ?c with Some _ => _ | None => _ end] => destruct c end;
    [|apply best_effort_false].
  run_block.
  match goal with |- context [Z.leb ?a ?b] => destruct (Z.leb a b) end;
    [apply best_effort_false|].
  run_block.
  match goal with |- context [match ?c with Some _ => _ | None => _ end] => destruct c end;
    [|apply best_effort_false].
  match goal with
  | |- context [advise_through_cudart ?p ?s ?c ?w ?h] =>
      destruct (advise_through_cudart_outcome p s c w h) as (b & ev' & -> & Hf & Hs)
  end; cbv beta iota.
  repeat rewrite <- app_assoc.
  apply best_effort_last; [exact Hf | exact Hs | no_failure].
Qed.

Lemma prefetch_to_device_best_effort w ov env tensor device h :
  best_effort (prefetch_to_device ov env tensor device w h).
Proof.
  unfold prefetch_to_device.
  destruct (gh200_uvm_enabled ov env); cbn [negb]; [|apply best_effort_false].
  unfold bind. run_block.
  match goal with |- context [if ?b then _ else _] => destruct b end;
    [apply best_effort_false|].
  assert (Hdev : exists d evs,
             match device with Some d => ret d | None => _current_cuda_device end
               w (x0 ++ h) = (Val d, evs)
             /\ existsb cudart_hint_failed evs = false).
  { destruct device as [d|].
    - exists d, []. split; reflexivity.
    - destruct (current_cuda_device_plain w (x0 ++ h)) as (d & evs & -> & H).
      exists d, evs. split; [reflexivity | apply no_hint_no_failure, H]. }
  destruct Hdev as (d & evs & -> & Hdev); cbv beta iota.
  run_block.
  match goal with |- context [match ?c with Some _ => _ | None => _ end] => destruct c end;
    [|apply best_effort_false].
  run_block.
  match goal with |- context [Z.leb ?a ?b] => destruct (Z.leb a b) end;
    [apply best_effort_false|].
  run_block.
  match goal with |- context [match ?c with Some _ => _ | None => _ end] => destruct c end;
    [|apply best_effort_false].
  match goal with
  | |- context [prefetch_through_cudart ?p ?s ?c ?w ?h] =>
      destruct (prefetch_through_cudart_outcome p s c w h) as (b & ev' & -> & Hf & Hs)
  end; cbv beta iota.
  repeat rewrite <- app_assoc.
  apply best_effort_last; [exact Hf | exact Hs | no_failure].
Qed.

(** *** How the hint functions end *)

Lemma no_hint_no_advise_failure evs :
  existsb is_hint_event evs = false -> existsb memory_advise_failed evs = false.
Proof.
  induction evs as [|e evs IH]; [reflexivity|]. simpl.
  intros H. apply orb_false_iff in H as [He Hr]. rewrite (IH Hr), orb_false_r.
  destruct e as [q b|[] []]; simpl in *; congruence.
Qed.

(** Events without a hint call in front of a list do not make it end on one. *)
Lemma ended_after_plain evs earlier :
  existsb is_hint_event evs = false ->
  ended_on_successful_hint (evs ++ earlier) = true ->
  ended_on_successful_hint earlier = true.
Proof.
  destruct evs as [|e evs]; [intros _ H; exact H|].
  cbn [app existsb]. intros H. apply orb_false_iff in H as [He _].
  destruct e as [q b|o []]; cbn in *; congruence.
Qed.

Lemma plain_not_ended evs earlier :
  existsb is_hint_event evs = false -> evs <> [] ->
  ended_on_successful_hint (evs ++ earlier) = false.
Proof.
  destruct evs as [|e evs]; [congruence|].
  cbn [app existsb]. intros H _. apply orb_false_iff in H as [He _].
  destruct e as [q b|o []]; cbn in *; congruence.
Qed.

Lemma plain_alone_not_ended evs :
  existsb is_hint_event evs = false -> evs <> [] ->
  ended_on_successful_hint evs = false.
Proof.
  intros H N. rewrite <- (app_nil_r evs). apply plain_not_ended; assumption.
Qed.

Lemma unavailable_or_not_cuda_asks tensor w h :
  exists stop evs,
    unavailable_or_not_cuda tensor w h = (Val stop, evs)
    /\ existsb is_hint_event evs = false /\ evs <> [].
Proof.
  unfold unavailable_or_not_cuda. run_all; eexists; eexists;
    (split; [reflexivity | split; [reflexivity | discriminate]]).
Qed.

Lemma cudart_asks w h :
  exists handle evs,
    _cudart w h = (Val handle, evs)
    /\ existsb is_hint_event evs = false /\ evs <> [].
Proof.
  unfold _cudart. run_all; eexists; eexists;
    (split; [reflexivity | split; [reflexivity | discriminate]]).
Qed.

(** The first [try] block: it returns [True] right after its second call
    returned; a call that raises is the last thing it does. *)
Lemma advise_through_torch_ends tensor prefer_cpu w h :
  exists b evs,
    advise_through_torch tensor prefer_cpu w h = (Val b, evs)
    /\ existsb cudart_hint_failed evs = false
    /\ (forall earlier, ended_on_successful_hint (evs ++ earlier) = b)
    /\ (b = true -> existsb memory_advise_failed evs = false)
    /\ (existsb memory_advise_failed evs = true ->
        exists e rest, evs = e :: rest /\ memory_advise_failed e = true).
Proof.
  unfold advise_through_torch, _current_cuda_device.
  destruct prefer_cpu; run_all;
    (eexists; eexists; split; [reflexivity|];
     split; [reflexivity|]; split; [intros earlier; reflexivity|];
     split; [cbn; congruence|];
     cbn; first [discriminate | intros _; eexists; eexists; split; reflexivity]).
Qed.

Lemma advise_through_cudart_ends ptr size prefer_cpu w h :
  exists b evs,
    advise_through_cudart ptr size prefer_cpu w h = (Val b, evs)
    /\ (existsb cudart_hint_failed evs = true -> b = false)
    /\ (forall earlier, ended_on_successful_hint (evs ++ earlier) = b)
    /\ existsb memory_advise_failed evs = false.
Proof.
  unfold advise_through_cudart, _current_cuda_device.
  destruct prefer_cpu; run_all;
    (eexists; eexists; split; [reflexivity|];
     split; [cbn; congruence|]; split; [intros earlier; reflexivity | reflexivity]).
Qed.

Lemma prefetch_through_cudart_ends ptr size device w h :
  exists b evs,
    prefetch_through_cudart ptr size device w h = (Val b, evs)
    /\ (existsb cudart_hint_failed evs = true -> b = false)
    /\ (forall earlier, ended_on_successful_hint (evs ++ earlier) = b).
Proof.
  unfold prefetch_through_cudart. run_all;
    (eexists; eexists; split; [reflexivity|];
     split; [cbn; congruence | intros earlier; reflexivity]).
Qed.

(** A run that stops with [False] after blocks that ask for no hint. *)
Ltac plain_false :=
  eexists; eexists; split; [reflexivity|];
  split; [intros _; reflexivity|]; split;
  [ intros earlier; cbn [app]; rewrite <- ?app_assoc;
    repeat match goal with
           | H : existsb is_hint_event ?x = false, N : ?x <> [] |- context [?x ++ _] =>
               exact (plain_not_ended x _ H N)
           | H : existsb is_hint_event ?x = false
             |- ended_on_successful_hint (?x ++ ?r) = false =>
               destruct (ended_on_successful_hint (x ++ r)) eqn:Eend; [|reflexivity];
               apply (ended_after_plain x r H) in Eend; rewrite <- Eend; clear Eend
           end
  | cbn [app]; rewrite ?existsb_app;
    repeat match goal with
           | H : existsb is_hint_event ?x = false |- context [existsb memory_advise_failed ?x] =>
               rewrite (no_hint_no_advise_failure x H)
           end; reflexivity ].

Lemma cudart_fallback_ends tensor prefer_cpu w h :
  exists b late,
    cudart_fallback tensor prefer_cpu w h = (Val b, late)
    /\ (existsb cudart_hint_failed late = true -> b = false)
    /\ (forall earlier, ended_on_successful_hint (late ++ earlier) = b)
    /\ existsb memory_advise_failed late = false.
Proof.
  unfold cudart_fallback, bind.
  destruct (cudart_asks w h) as (handle & xc & -> & Hc & Nc); cbv beta iota.
  destruct handle as [[]|]; [|unfold ret; plain_false].
  destruct (element_span_bytes_plain tensor w (xc ++ h)) as (size & xs & -> & Hs);
    cbv beta iota.
  destruct (size <=? 0); [unfold ret; plain_false|].
  destruct (tensor_pointer_plain tensor w (xs ++ xc ++ h)) as (ptr & xp & -> & Hp);
    cbv beta iota.
  destruct ptr as [ptr|]; [|unfold ret; plain_false].
  destruct (advise_through_cudart_ends ptr size prefer_cpu w (xp ++ xs ++ xc ++ h))
    as (b & evc & -> & Hf & He & Hm); cbv beta iota.
  exists b. eexists. split; [reflexivity|]. split; [|split].
  - rewrite !existsb_app.
    rewrite (no_hint_no_failure _ Hc), (no_hint_no_failure _ Hs), (no_hint_no_failure _ Hp).
    rewrite !orb_false_r. exact Hf.
  - intros earlier. rewrite <- !app_assoc. apply He.
  - rewrite !existsb_app, Hm.
    rewrite (no_hint_no_advise_failure _ Hc), (no_hint_no_advise_failure _ Hs),
      (no_hint_no_advise_failure _ Hp). reflexivity.
Qed.

Lemma settled_from b evs :
  (existsb cudart_hint_failed evs = true -> b = false) ->
  ended_on_successful_hint evs = b ->
  settled (Val b, evs).
Proof.
  intros Hf He. exists b. cbn [fst snd]. split; [reflexivity|]. split; [exact Hf|].
  rewrite He. tauto.
Qed.

(** [cudart_fallback] is the rest of [_apply_preferred_location]. *)
Lemma apply_preferred_location_rest ov env tensor prefer_cpu :
  _apply_preferred_location ov env tensor prefer_cpu
  = (if negb (gh200_uvm_enabled ov env) then ret false else
     let! stop := unavailable_or_not_cuda tensor in
     if (stop : bool) then ret false else
     let! advised := advise_through_torch tensor prefer_cpu in
     if (advised : bool) then ret true else cudart_fallback tensor prefer_cpu).
Proof. reflexivity. Qed.

Lemma apply_preferred_location_ends w ov env tensor prefer_cpu h :
  settled (_apply_preferred_location ov env tensor prefer_cpu w h)
  /\ falls_back_on_cudart tensor prefer_cpu w h
       (_apply_preferred_location ov env tensor prefer_cpu w h).
Proof.
  unfold falls_back_on_cudart. rewrite apply_preferred_location_rest.
  destruct (gh200_uvm_enabled ov env); cbn [negb];
    [|split; [apply settled_from; [reflexivity | reflexivity] | discriminate]].
  unfold bind.
  destruct (unavailable_or_not_cuda_asks tensor w h) as (stop & x0 & -> & H0 & N0);
    cbv beta iota.
  destruct stop.
  { unfold ret. cbv beta iota. cbn [app fst snd]. split.
    - apply settled_from; [intros _; reflexivity | exact (plain_alone_not_ended x0 H0 N0)].
    - rewrite (no_hint_no_advise_failure x0 H0). discriminate. }
  destruct (advise_through_torch_ends tensor prefer_cpu w (x0 ++ h))
    as (advised & ev & -> & Hno & Hend & Hgood & Hbad); cbv beta iota.
  destruct advised.
  { unfold ret. cbv beta iota. cbn [app fst snd]. split.
    - apply settled_from; [|apply Hend].
      rewrite existsb_app, Hno, (no_hint_no_failure x0 H0). discriminate.
    - rewrite existsb_app, (Hgood eq_refl), (no_hint_no_advise_failure x0 H0). discriminate. }
  destruct (cudart_fallback_ends tensor prefer_cpu w (ev ++ x0 ++ h))
    as (b & late & Hrun & Hf & He & Hm).
  rewrite Hrun. cbn [fst snd]. split.
  - apply settled_from.
    + rewrite !existsb_app, Hno, (no_hint_no_failure x0 H0), !orb_false_r. exact Hf.
    + rewrite <- !app_assoc. apply He.
  - rewrite !existsb_app, Hm, (no_hint_no_advise_failure x0 H0), orb_false_r. cbn [orb].
    intros Hfailed. destruct (Hbad Hfailed) as (e & rest & -> & Hfe).
    exists e, (rest ++ x0), late. split; [|split; [exact Hfe|]].
    + rewrite <- !app_assoc. reflexivity.
    + rewrite <- app_assoc. exact Hrun.
Qed.

Lemma prefetch_to_device_ends w ov env tensor device h :
  settled (prefetch_to_device ov env tensor device w h).
Proof.
  unfold prefetch_to_device.
  destruct (gh200_uvm_enabled ov env); cbn [negb];
    [|apply settled_from; reflexivity].
  unfold bind.
  destruct (unavailable_or_not_cuda_asks tensor w h) as (stop & x0 & -> & H0 & N0);
    cbv beta iota.
  destruct stop.
  { unfold ret. cbn [app]. apply settled_from;
      [intros _; reflexivity | exact (plain_alone_not_ended x0 H0 N0)]. }
  assert (Hdev : exists d xd,
             match device with Some d => ret d | None => _current_cuda_device end
               w (x0 ++ h) = (Val d, xd)
             /\ existsb is_hint_event xd = false).
  { destruct device as [d|].
    - exists d, []. split; reflexivity.
    - apply current_cuda_device_plain. }
  destruct Hdev as (d & xd & -> & Hd); cbv beta iota.
  destruct (cudart_asks w (xd ++ x0 ++ h)) as (handle & xc & -> & Hc & Nc); cbv beta iota.
  assert (Hstop : forall xs : list Event,
             existsb is_hint_event xs = false ->
             settled (Val false, xs ++ xc ++ xd ++ x0)).
  { intros xs Hxs. apply settled_from.
    - intros _. reflexivity.
    - destruct (ended_on_successful_hint (xs ++ xc ++ xd ++ x0)) eqn:E; [|reflexivity].
      apply (ended_after_plain xs _ Hxs) in E.
      rewrite (plain_not_ended xc _ Hc Nc) in E. discriminate. }
  destruct handle as [[]|];
    [|unfold ret; cbv beta iota; rewrite <- ?app_assoc; apply (Hstop []); reflexivity].
  destruct (element_span_bytes_plain tensor w (xc ++ xd ++ x0 ++ h))
    as (size & xs & -> & Hs); cbv beta iota.
  destruct (size <=? 0).
  { unfold ret. cbv beta iota. rewrite <- ?app_assoc. cbn [app]. apply (Hstop xs Hs). }
  destruct (tensor_pointer_plain tensor w (xs ++ xc ++ xd ++ x0 ++ h))
    as (ptr & xp & -> & Hp); cbv beta iota.
  destruct ptr as [ptr|].
  2:{ unfold ret. cbv beta iota. rewrite <- ?app_assoc. cbn [app].
      rewrite (app_assoc xp xs).
      apply Hstop. rewrite existsb_app, Hp, Hs. reflexivity. }
  destruct (prefetch_through_cudart_ends ptr size d w (xp ++ xs ++ xc ++ xd ++ x0 ++ h))
    as (b & evp & -> & Hf & He); cbv beta iota.
  apply settled_from.
  - rewrite !existsb_app.
    rewrite (no_hint_no_failure _ H0), (no_hint_no_failure _ Hd), (no_hint_no_failure _ Hc),
      (no_hint_no_failure _ Hs), (no_hint_no_failure _ Hp).
    rewrite !orb_false_r. exact Hf.
  - rewrite <- !app_assoc. apply He.
Qed.

(** C6, as the code has it.  For every world, tensor and history,
    [prefer_cpu_residency], [prefer_gpu_residency] and [prefetch_to_device]
    return a boolean, whatever the runtime calls raise; they return [False]
    when [cudaMemAdvise] or [cudaMemPrefetchAsync] raised; and they return
    [True] exactly when the last thing they did was a hint call that
    returned.  A raising [torch.cuda.memory_advise] is not the end: from
    that call on the run is the run of the [cudaMemAdvise] path, whose
    events follow and whose result is the result. *)
Theorem hint_functions_best_effort :
  forall (w : World) (ov : Override) (env : Environ) (tensor : Tensor)
         (device : option Z) (h : History),
    (settled (prefer_cpu_residency ov env tensor w h)
     /\ falls_back_on_cudart tensor true w h (prefer_cpu_residency ov env tensor w h))
    /\ (settled (prefer_gpu_residency ov env tensor w h)
        /\ falls_back_on_cudart tensor false w h (prefer_gpu_residency ov env tensor w h))
    /\ settled (prefetch_to_device ov env tensor device w h).
Proof.
  intros w ov env tensor device h.
  split; [apply apply_preferred_location_ends|].
  split; [apply apply_preferred_location_ends | apply prefetch_to_device_ends].
Qed.

(** C6 as stated fails: [torch.cuda.memory_advise] raises, the fallback
    through [cudaMemAdvise] succeeds, and [prefer_cpu_residency] returns
    [True]. *)
Lemma memory_advise_failure_returns_true :
  existsb hint_call_failed
    (snd (prefer_cpu_residency (Some true) ∅ 1%nat Samples.advise_raises [])) = true
  /\ fst (prefer_cpu_residency (Some true) ∅ 1%nat Samples.advise_raises []) = Val true.
Proof. split; vm_compute; reflexivity. Qed.

End UvmFacts.

(** ** The diagnostic's reading of PYTORCH_CUDA_ALLOC_CONF *)

Module DiagnosticFacts.
Import Diagnostic.

Section Loop.

Variable Float : Type.
Variable float : string -> option Float.

Lemma last_value_from key kvs init :
  fold_left (pick key) kvs init =
  match last_value key kvs with
  | Some v => Some v
  | None => init
  end.
Proof.
  unfold last_value.
  revert init. induction kvs as [|kv kvs IH]; intros init; simpl; [reflexivity|].
  rewrite IH, (IH (pick key None kv)). unfold pick.
  destruct (fold_left _ kvs None); [reflexivity|].
  destruct (String.eqb (fst kv) key); reflexivity.
Qed.

Lemma last_value_app key l1 l2 :
  last_value key (l1 ++ l2) =
  match last_value key l2 with
  | Some v => Some v
  | None => last_value key l1
  end.
Proof.
  unfold last_value at 1. rewrite fold_left_app.
  rewrite last_value_from. reflexivity.
Qed.

Lemma key_values_parts (parts : list string) (acc : option (Ratio Float) * option string) :
  let kvs :=
    flat_map
      (fun part =>
         match PyStr.partition ":" part with
         | None => []
         | Some (key, value) => [(PyStr.lower (PyStr.strip key), PyStr.strip value)]
         end) parts in
  fold_left (loop_body Float float) parts acc =
  (match last_value "uvm_oversubscription_ratio" kvs with
   | Some v => Some (parse_ratio Float float v)
   | None => fst acc
   end,
   match last_value "uvm_access_pattern" kvs with
   | Some v => Some (PyStr.lower v)
   | None => snd acc
   end).
Proof.
  revert acc. induction parts as [|part parts IH]; intros acc.
  - destruct acc; reflexivity.
  - cbn [fold_left flat_map]. rewrite IH. rewrite !last_value_app.
    set (rest := flat_map _ parts).
    unfold loop_body.
    destruct (PyStr.partition ":" part) as [[key value]|];
      [|destruct (last_value "uvm_oversubscription_ratio" rest),
                 (last_value "uvm_access_pattern" rest); reflexivity].
    destruct (last_value "uvm_oversubscription_ratio" rest),
             (last_value "uvm_access_pattern" rest);
      unfold last_value, pick; cbn [fold_left fst snd];
      destruct (String.eqb (PyStr.lower (PyStr.strip key)) "uvm_oversubscription_ratio") eqn:E1;
      try reflexivity;
      destruct (String.eqb (PyStr.lower (PyStr.strip key)) "uvm_access_pattern") eqn:E2;
      try reflexivity.
    all: apply String.eqb_eq in E1; rewrite E1 in E2; discriminate.
Qed.

End Loop.

Lemma last_value_absent key kvs :
  last_value key kvs = None <-> forall v, ~ In (key, v) kvs.
Proof.
  induction kvs as [|[k v] kvs IH].
  - split; [intros _ v [] | reflexivity].
  - change ((k, v) :: kvs) with ([(k, v)] ++ kvs). rewrite last_value_app.
    unfold last_value at 2, pick. cbn [fold_left fst snd].
    destruct (last_value key kvs) as [v'|] eqn:E.
    + split; [discriminate|]. intros H.
      destruct IH as [_ IH].
      assert (Hn : Some v' = None)
        by (apply IH; intros v0 Hin; apply (H v0); right; exact Hin).
      discriminate Hn.
    + destruct IH as [IH _]. specialize (IH eq_refl).
      destruct (String.eqb k key) eqn:Ek.
      * apply String.eqb_eq in Ek. subst k. split; [discriminate|].
        intros H. exfalso. apply (H v). left. reflexivity.
      * apply String.eqb_neq in Ek. split; [|reflexivity].
        intros _ v0 [Heq|Hin]; [congruence | exact (IH v0 Hin)].
Qed.

(** C7. [check_uvm_env] reports [enabled] exactly when the text
    [use_uvm:True] occurs, with this very case, in PYTORCH_CUDA_ALLOC_CONF
    (empty when unset).  Its ratio is read from the last comma-separated part
    whose key is [uvm_oversubscription_ratio]: the float [float(value)] when
    that parses, the stripped text otherwise.  Its access pattern is the
    lowercased value of the last part whose key is [uvm_access_pattern].
    Either is [None] exactly when no part has that key. *)
Theorem check_uvm_env_reads_alloc_conf :
  forall (Float : Type) (float : string -> option Float) (env : Uvm.Environ),
    let conf := Uvm.environ_get env "PYTORCH_CUDA_ALLOC_CONF" "" in
    let r := check_uvm_env Float float env in
    (enabled r = true <-> exists a b, conf = (a ++ "use_uvm:True" ++ b)%string)
    /\ raw r = conf
    /\ oversubscription_ratio r =
       match last_value "uvm_oversubscription_ratio" (key_values conf) with
       | Some value =>
           Some (match float value with
                 | Some x => RatioFloat x
                 | None => RatioRaw value
                 end)
       | None => None
       end
    /\ access_pattern r =
       match last_value "uvm_access_pattern" (key_values conf) with
       | Some value => Some (PyStr.lower value)
       | None => None
       end
    /\ (oversubscription_ratio r = None <->
        forall v, ~ In ("uvm_oversubscription_ratio", v) (key_values conf))
    /\ (access_pattern r = None <->
        forall v, ~ In ("uvm_access_pattern", v) (key_values conf)).
Proof.
  intros Float float env conf r.
  assert (Hacc :
    oversubscription_ratio r =
    match last_value "uvm_oversubscription_ratio" (key_values conf) with
    | Some v => Some (parse_ratio Float float v)
    | None => None
    end
    /\ access_pattern r =
       match last_value "uvm_access_pattern" (key_values conf) with
       | Some v => Some (PyStr.lower v)
       | None => None
       end).
  { unfold r, check_uvm_env. fold conf. cbn [oversubscription_ratio access_pattern].
    destruct (String.eqb conf "") eqn:E.
    - apply String.eqb_eq in E. rewrite E. split; reflexivity.
    - rewrite (key_values_parts Float float (PyStr.split "," conf) (None, None)).
      split; reflexivity. }
  destruct Hacc as [Hr Ha].
  split; [apply PyStrFacts.contains_occurs|].
  split; [reflexivity|].
  split; [exact Hr|].
  split; [exact Ha|].
  split.
  - rewrite Hr, <- last_value_absent.
    destruct (last_value "uvm_oversubscription_ratio" (key_values conf));
      split; congruence.
  - rewrite Ha, <- last_value_absent.
    destruct (last_value "uvm_access_pattern" (key_values conf));
      split; congruence.
Qed.

End DiagnosticFacts.

(** ** The in-memory backend *)

Module BackendFacts.
Import Backend.

Lemma set_storage_id self : set_storage self (_storage self) = self.
Proof. destruct self; reflexivity. Qed.

Lemma set_storage_twice self a b : set_storage (set_storage self a) b = set_storage self b.
Proof. reflexivity. Qed.

(** *** Paths *)

Lemma strip_prefix_app pre l rest :
  strip_prefix pre l = Some rest <-> l = pre ++ rest.
Proof.
  revert l. induction pre as [|a pre IH]; intros l; simpl.
  - split; congruence.
  - destruct l as [|b l]; [split; discriminate|].
    destruct (String.eqb a b) eqn:E.
    + apply String.eqb_eq in E. subst b. rewrite IH. split; congruence.
    + apply String.eqb_neq in E. split; [discriminate | congruence].
Qed.

Lemma normalize_onto_plain above ps :
  Forall (fun s => s <> "..") ps -> normalize_onto above ps = rev above ++ ps.
Proof.
  revert above. induction ps as [|p ps IH]; intros above H; simpl.
  - rewrite app_nil_r. reflexivity.
  - apply Forall_cons in H as [Hp Hps].
    apply String.eqb_neq in Hp. rewrite Hp, IH by exact Hps.
    simpl. rewrite <- app_assoc. reflexivity.
Qed.

Lemma normalize_onto_app above a b :
  Forall (fun s => s <> "..") b ->
  normalize_onto above (a ++ b) = normalize_onto above a ++ b.
Proof.
  revert above. induction a as [|p a IH]; intros above H; simpl.
  - rewrite normalize_onto_plain by exact H. reflexivity.
  - destruct (String.eqb p ".."); apply IH, H.
Qed.

Lemma normalize_plain ps : Forall (fun s => s <> "..") ps -> normalize ps = ps.
Proof. intros H. unfold normalize. rewrite normalize_onto_plain by exact H. reflexivity. Qed.

Lemma valid_names_plain ps : Forall valid_name ps -> Forall (fun s => s <> "..") ps.
Proof. intros H. eapply Forall_impl; [exact H|]. intros s [Hs _]. exact Hs. Qed.

(** A slash-free text in front of a slash is what [partition] splits off. *)
Lemma partition_slash_free a b :
  PyStr.partition "/" a = None ->
  PyStr.partition "/" (a ++ String "/" b)%string = Some (a, b).
Proof.
  induction a as [|c a IH]; intros H.
  - reflexivity.
  - rewrite PyStrFacts.append_cons. simpl in *.
    destruct (Ascii.eqb c "/"); [discriminate|].
    destruct (PyStr.partition "/" a) as [[x y]|]; [discriminate|].
    rewrite IH by reflexivity. reflexivity.
Qed.

Lemma concat_cons2 sep x y r :
  String.concat sep (x :: y :: r) = (x ++ sep ++ String.concat sep (y :: r))%string.
Proof. reflexivity. Qed.

(** [str] of a relative path tells its components apart. *)
Lemma concat_slash_inj l1 l2 :
  Forall valid_name l1 -> Forall valid_name l2 ->
  l1 <> [] -> l2 <> [] ->
  String.concat "/" l1 = String.concat "/" l2 -> l1 = l2.
Proof.
  revert l2. induction l1 as [|x l1 IH]; intros l2 H1 H2 N1 N2 E; [congruence|].
  destruct l2 as [|x' l2]; [congruence|].
  apply Forall_cons in H1 as [[_ Hx] H1]. apply Forall_cons in H2 as [[_ Hx'] H2].
  destruct l1 as [|y l1], l2 as [|y' l2].
  - simpl in E. congruence.
  - rewrite concat_cons2 in E. change (String.concat "/" [x]) with x in E.
    pose proof (partition_slash_free x' (String.concat "/" (y' :: l2)) Hx') as P.
    change ("/" ++ String.concat "/" (y' :: l2))%string
      with (String "/" (String.concat "/" (y' :: l2))) in E.
    rewrite <- E in P. congruence.
  - rewrite concat_cons2 in E. change (String.concat "/" [x']) with x' in E.
    pose proof (partition_slash_free x (String.concat "/" (y :: l1)) Hx) as P.
    change ("/" ++ String.concat "/" (y :: l1))%string
      with (String "/" (String.concat "/" (y :: l1))) in E.
    rewrite E in P. congruence.
  - rewrite !concat_cons2 in E.
    change ("/" ++ String.concat "/" (y :: l1))%string
      with (String "/" (String.concat "/" (y :: l1))) in E.
    change ("/" ++ String.concat "/" (y' :: l2))%string
      with (String "/" (String.concat "/" (y' :: l2))) in E.
    pose proof (partition_slash_free x (String.concat "/" (y :: l1)) Hx) as P.
    pose proof (partition_slash_free x' (String.concat "/" (y' :: l2)) Hx') as P'.
    rewrite E, P' in P. injection P as -> E'.
    f_equal. apply IH; [exact H1 | exact H2 | discriminate | discriminate |].
    symmetry. exact E'.
Qed.

Lemma insert_sorted_perm p l : Permutation (insert_sorted p l) (p :: l).
Proof.
  induction l as [|q l IH]; simpl; [reflexivity|].
  destruct (path_leb p q); [reflexivity|].
  rewrite IH. apply perm_swap.
Qed.

Lemma sorted_perm l : Permutation (sorted l) l.
Proof.
  induction l as [|p l IH]; simpl; [reflexivity|].
  rewrite insert_sorted_perm. constructor. exact IH.
Qed.

Lemma sorted_In p l : In p (sorted l) <-> In p l.
Proof.
  split; apply Permutation_in; [apply sorted_perm | symmetry; apply sorted_perm].
Qed.

Lemma remove_dups_In {A} `{EqDecision A} (x : A) (l : list A) :
  In x (remove_dups l) <-> In x l.
Proof. rewrite <- !list_elem_of_In. apply elem_of_remove_dups. Qed.

Lemma lookup_node_In es p n : lookup_node es p = Some n -> In (p, n) es.
Proof.
  induction es as [|[k m] es IH]; simpl; [discriminate|].
  case_bool_decide as E.
  - intros [= ->]. left. congruence.
  - intros H. right. apply IH, H.
Qed.

Lemma In_lookup_node es p n :
  List.NoDup (map fst es) -> In (p, n) es -> lookup_node es p = Some n.
Proof.
  induction es as [|[k m] es IH]; simpl; intros ND Hin; [contradiction|].
  inversion ND as [|? ? Hk ND']; subst.
  case_bool_decide as E.
  - subst k. destruct Hin as [Heq|Hin]; [congruence|].
    exfalso. apply Hk. apply in_map_iff. exists (p, n). split; [reflexivity | exact Hin].
  - destruct Hin as [Heq|Hin]; [congruence|]. apply IH; assumption.
Qed.

(** *** What [_gather_files] finds *)

Lemma resolve_anchor_absolute fs dir : anchor (resolve fs dir) <> "".
Proof. unfold resolve. simpl. destruct (String.eqb (anchor dir) "//"); discriminate. Qed.

Lemma resolve_below fs dir rel :
  Forall valid_name rel ->
  resolve fs {| anchor := anchor dir; parts := parts dir ++ rel |}
  = {| anchor := anchor (resolve fs dir); parts := parts (resolve fs dir) ++ rel |}.
Proof.
  intros H. apply valid_names_plain in H. unfold resolve, normalize. cbn [anchor parts].
  f_equal. destruct (String.eqb (anchor dir) "").
  - rewrite app_assoc. apply normalize_onto_app, H.
  - apply normalize_onto_app, H.
Qed.

Lemma node_at_entry fs a p node :
  wf_fs fs -> a <> "" -> p <> [] -> In (p, node) (entries fs) ->
  node_at fs {| anchor := a; parts := p |} = Some node.
Proof.
  intros [Hvalid Hnodup] Ha Hp Hin. unfold node_at, resolve. cbn [anchor parts].
  apply String.eqb_neq in Ha. rewrite Ha.
  assert (Hv : Forall valid_name p).
  { rewrite Forall_forall in Hvalid. apply (Hvalid (p, node)).
    apply list_elem_of_In. exact Hin. }
  rewrite normalize_plain by (apply valid_names_plain, Hv).
  destruct p as [|c rel]; [congruence|].
  apply In_lookup_node; assumption.
Qed.

Lemma rglob_In fs dir pattern x :
  In x (rglob fs dir pattern) <->
  (exists size, node_at fs dir = Some (Directory size))
  /\ exists p node c rel,
       In (p, node) (entries fs)
       /\ p = parts (resolve fs dir) ++ c :: rel
       /\ fnmatch (List.last (c :: rel) "") pattern = true
       /\ x = {| anchor := anchor dir; parts := parts dir ++ c :: rel |}.
Proof.
  unfold rglob. destruct (node_at fs dir) as [[content|size]|].
  - split; [contradiction | intros [[size H] _]; discriminate].
  - rewrite in_flat_map. split.
    + intros ([p node] & Hin & Hx). split; [eauto|]. cbn [fst] in Hx.
      destruct (strip_prefix (parts (resolve fs dir)) p) as [[|c rel]|] eqn:E;
        try contradiction.
      apply strip_prefix_app in E.
      destruct (fnmatch (List.last (c :: rel) "") pattern) eqn:F; [|contradiction].
      destruct Hx as [<-|[]]. exists p, node, c, rel. auto.
    + intros (_ & p & node & c & rel & Hin & Hp & F & ->).
      exists (p, node). split; [exact Hin|]. cbn [fst].
      apply strip_prefix_app in Hp. rewrite Hp, F. left. reflexivity.
  - split; [contradiction | intros [[size H] _]; discriminate].
Qed.

Section Gathering.

Variable fs : FileSystem.
Variable self : Backend.
Hypothesis fs_wf : wf_fs fs.

Let dir := instance_data_dir self.
Let rdir := resolve fs dir.

Lemma entry_names p node : In (p, node) (entries fs) -> Forall valid_name p.
Proof.
  intros Hin. destruct fs_wf as [Hvalid _]. rewrite Forall_forall in Hvalid.
  apply (Hvalid (p, node)). apply list_elem_of_In. exact Hin.
Qed.

(** The patterns are a star and, after it, a dot and an extension, as typed
    or in upper case. *)
Lemma gathered_In f :
  In f (_gather_files fs self) <->
  exists ext x,
    In ext (_file_extensions self)
    /\ (In x (rglob fs dir (String "*" ("." ++ ext)))
        \/ In x (rglob fs dir (String "*" (PyStr.upper ("." ++ ext)))))
    /\ f = resolve fs x.
Proof.
  unfold _gather_files. fold dir.
  rewrite sorted_In.
  rewrite remove_dups_In, in_map_iff. split.
  - intros (x & <- & Hx). apply in_flat_map in Hx as (extension & Hext & Hx).
    rewrite remove_dups_In in Hext.
    apply in_map_iff in Hext as (ext & <- & Hext).
    exists ext, x. split; [exact Hext|]. split; [|reflexivity].
    apply in_app_or in Hx. exact Hx.
  - intros (ext & x & Hext & Hx & ->). exists x. split; [reflexivity|].
    apply in_flat_map. exists ("." ++ ext)%string. split.
    + rewrite remove_dups_In.
      apply in_map_iff. exists ext. split; [reflexivity | exact Hext].
    + apply in_or_app. exact Hx.
Qed.

Lemma gathered_shape f :
  In f (_gather_files fs self) ->
  exists p node c rel,
    In (p, node) (entries fs)
    /\ p = parts rdir ++ c :: rel
    /\ f = {| anchor := anchor rdir; parts := p |}.
Proof.
  intros Hf. apply gathered_In in Hf as (ext & x & _ & Hx & ->).
  assert (Hx' : exists pattern, In x (rglob fs dir pattern))
    by (destruct Hx; eauto).
  destruct Hx' as (pattern & Hx').
  apply rglob_In in Hx' as (_ & p & node & c & rel & Hin & Hp & _ & ->).
  exists p, node, c, rel. split; [exact Hin|]. split; [exact Hp|].
  rewrite resolve_below; [rewrite Hp; reflexivity|].
  apply entry_names in Hin. rewrite Hp in Hin. apply Forall_app in Hin. apply Hin.
Qed.

Lemma gathered_NoDup : NoDup (_gather_files fs self).
Proof.
  unfold _gather_files. apply NoDup_ListNoDup.
  eapply Permutation_NoDup; [symmetry; apply sorted_perm|].
  apply NoDup_ListNoDup, NoDup_remove_dups.
Qed.

(** A worker that returns has read a regular file below the directory, which
    was given in resolved form, and reports the file's relative path. *)
Lemma load_shape f k v :
  In f (_gather_files fs self) ->
  _load_single_file fs self f = Ok (k, v) ->
  exists c rel content,
    parts f = parts dir ++ c :: rel
    /\ anchor f = anchor dir
    /\ rdir = dir
    /\ Forall valid_name (c :: rel)
    /\ k = String.concat "/" (c :: rel)
    /\ In (parts f, RegularFile content) (entries fs)
    /\ v = compressed self content.
Proof.
  intros Hf Hload.
  destruct (gathered_shape f Hf) as (p & node & c & rel & Hin & Hp & ->).
  pose proof (entry_names p node Hin) as Hvalid.
  unfold _load_single_file, read_bytes in Hload.
  rewrite (node_at_entry fs (anchor rdir) p node fs_wf) in Hload;
    [| apply resolve_anchor_absolute | rewrite Hp; destruct (parts rdir); discriminate
     | exact Hin].
  destruct node as [content|size]; [|discriminate].
  unfold relative_to in Hload. cbn [anchor parts] in Hload. fold dir in Hload.
  destruct (String.eqb (anchor rdir) (anchor dir)) eqn:Ea; [|discriminate].
  apply String.eqb_eq in Ea.
  destruct (strip_prefix (parts dir) p) as [rest|] eqn:Es; [|discriminate].
  apply strip_prefix_app in Es.
  injection Hload as <- <-.
  assert (Hdir : parts rdir = parts dir).
  { unfold rdir, resolve. cbn [parts].
    assert (Hne : String.eqb (anchor dir) "" = false).
    { apply String.eqb_neq. rewrite <- Ea. apply resolve_anchor_absolute. }
    rewrite Hne. apply normalize_plain, valid_names_plain.
    rewrite Es in Hvalid. apply Forall_app in Hvalid. apply Hvalid. }
  assert (Hrest : rest = c :: rel).
  { rewrite Hp, Hdir in Es. apply app_inv_head in Es. congruence. }
  subst rest. exists c, rel, content. cbn [anchor parts].
  split; [exact Es|]. split; [exact Ea|].
  split; [destruct rdir, dir; simpl in *; congruence|].
  split; [rewrite Hp in Hvalid; apply Forall_app in Hvalid; apply Hvalid|].
  split; [reflexivity|]. split; [exact Hin | reflexivity].
Qed.

(** Two distinct files are never staged under one key. *)
Lemma load_key_inj f1 f2 k v1 v2 :
  In f1 (_gather_files fs self) -> In f2 (_gather_files fs self) ->
  _load_single_file fs self f1 = Ok (k, v1) ->
  _load_single_file fs self f2 = Ok (k, v2) ->
  f1 = f2.
Proof.
  intros H1 H2 L1 L2.
  destruct (load_shape f1 k v1 H1 L1) as (c1 & rel1 & ? & P1 & A1 & _ & V1 & K1 & _).
  destruct (load_shape f2 k v2 H2 L2) as (c2 & rel2 & ? & P2 & A2 & _ & V2 & K2 & _).
  assert (E : c1 :: rel1 = c2 :: rel2).
  { apply concat_slash_inj; try assumption; try discriminate. congruence. }
  destruct f1, f2; simpl in *; congruence.
Qed.

Lemma loaded_from files results kv :
  map (_load_single_file fs self) files = map Ok results ->
  In kv results ->
  exists f, In f files /\ _load_single_file fs self f = Ok kv.
Proof.
  revert results. induction files as [|f files IH]; intros [|r results] E Hin;
    try contradiction; try discriminate.
  injection E as E1 E2. destruct Hin as [->|Hin].
  - exists f. split; [left; reflexivity | exact E1].
  - destruct (IH results E2 Hin) as (f' & Hf' & L). exists f'. split; [right|]; assumption.
Qed.

Lemma loaded_keys_NoDup files results :
  NoDup files ->
  (forall f, In f files -> In f (_gather_files fs self)) ->
  map (_load_single_file fs self) files = map Ok results ->
  NoDup (map fst results).
Proof.
  revert results. induction files as [|f files IH]; intros [|[k v] results] ND Hsub E;
    try discriminate; [constructor|].
  injection E as E1 E2. apply NoDup_cons in ND as [Hf ND].
  cbn [map fst]. apply NoDup_cons. split.
  - intros Hk. apply list_elem_of_In, in_map_iff in Hk as ([k' v'] & Hk' & Hin).
    cbn [fst] in Hk'. subst k'.
    destruct (loaded_from files results (k, v') E2 Hin) as (f' & Hf' & L').
    assert (f = f').
    { eapply load_key_inj; [apply Hsub; left; reflexivity | apply Hsub; right; exact Hf'
                           | exact E1 | exact L']. }
    subst f'. apply Hf, list_elem_of_In, Hf'.
  - apply IH; [exact ND | intros f' Hf'; apply Hsub; right; exact Hf' | exact E2].
Qed.

End Gathering.

(** *** What the staging loop leaves *)

Lemma drain_ok_inv completed storage storage' :
  drain completed storage = (Ok tt, storage') ->
  exists kvs, completed = map Ok kvs.
Proof.
  revert storage. induction completed as [|[[k v]|e] rest IH]; intros storage H.
  - exists []. reflexivity.
  - simpl in H. destruct (IH _ H) as [kvs ->]. exists ((k, v) :: kvs). reflexivity.
  - discriminate.
Qed.

Lemma drain_returns kvs storage : fst (drain (map Ok kvs) storage) = Ok tt.
Proof.
  revert storage. induction kvs as [|[k v] kvs IH]; intros storage; [reflexivity|].
  apply IH.
Qed.

Lemma drain_lookup_other kvs (storage : gmap string bytes) k :
  ~ In k (map fst kvs) ->
  snd (drain (map Ok kvs) storage) !! k = storage !! k.
Proof.
  revert storage. induction kvs as [|[k' v'] kvs IH]; intros storage Hk; [reflexivity|].
  cbn [map drain]. rewrite IH.
  - apply lookup_insert_ne. intros ->. apply Hk. left. reflexivity.
  - intros Hin. apply Hk. right. exact Hin.
Qed.

Lemma drain_lookup kvs (storage : gmap string bytes) k v :
  NoDup (map fst kvs) -> In (k, v) kvs ->
  snd (drain (map Ok kvs) storage) !! k = Some v.
Proof.
  revert storage. induction kvs as [|[k' v'] kvs IH]; intros storage ND Hin; [contradiction|].
  cbn [map fst] in ND. apply NoDup_cons in ND as [Hk ND].
  cbn [map drain]. destruct Hin as [[= -> ->]|Hin].
  - rewrite drain_lookup_other; [apply lookup_insert_eq|].
    intros H. apply Hk, list_elem_of_In, H.
  - apply IH; assumption.
Qed.

Lemma held_bytes_insert (storage : gmap string bytes) k v :
  storage !! k = None ->
  held_bytes (<[k := v]> storage) = Z.of_nat (length v) + held_bytes storage.
Proof.
  intros H. unfold held_bytes.
  rewrite (map_fold_insert_L
             (fun (_ : string) (v : bytes) acc => Z.of_nat (length v) + acc) 0 k v storage);
    [reflexivity | intros; lia | exact H].
Qed.

Lemma drain_held kvs (storage : gmap string bytes) :
  NoDup (map fst kvs) ->
  (forall k, In k (map fst kvs) -> storage !! k = None) ->
  held_bytes (snd (drain (map Ok kvs) storage))
  = fold_right (fun kv acc => Z.of_nat (length (snd kv)) + acc) 0 kvs + held_bytes storage.
Proof.
  revert storage. induction kvs as [|[k v] kvs IH]; intros storage ND Hfree; [reflexivity|].
  cbn [map fst] in ND. apply NoDup_cons in ND as [Hk ND].
  cbn [map drain fold_right snd]. rewrite IH.
  - rewrite held_bytes_insert by (apply Hfree; left; reflexivity). lia.
  - exact ND.
  - intros k' Hk'. rewrite lookup_insert_ne.
    + apply Hfree. right. exact Hk'.
    + intros ->. apply Hk, list_elem_of_In, Hk'.
Qed.

Lemma payload_sum_perm (l1 l2 : list (string * bytes)) :
  Permutation l1 l2 ->
  fold_right (fun kv acc => Z.of_nat (length (snd kv)) + acc) 0 l1
  = fold_right (fun kv acc => Z.of_nat (length (snd kv)) + acc) 0 l2.
Proof.
  induction 1; simpl; lia.
Qed.


Lemma loaded_to fs self files results f :
  map (_load_single_file fs self) files = map Ok results ->
  In f files ->
  exists kv, In kv results /\ _load_single_file fs self f = Ok kv.
Proof.
  revert results. induction files as [|f' files IH]; intros [|r results] E Hin;
    try contradiction; try discriminate.
  injection E as E1 E2. destruct Hin as [->|Hin].
  - exists r. split; [left; reflexivity | exact E1].
  - destruct (IH results E2 Hin) as (kv & Hkv & L). exists kv. split; [right|]; assumption.
Qed.

(** Without compression the staged payloads add up to the sizes [stat]
    reported. *)
Lemma total_size_of_results fs self files results :
  _compress_fn self = None ->
  map (_load_single_file fs self) files = map Ok results ->
  total_size fs files
  = Ok (fold_right (fun kv acc => Z.of_nat (length (snd kv)) + acc) 0 results).
Proof.
  intros Hc. revert results.
  induction files as [|f files IH]; intros [|[k v] results] E; try discriminate;
    [reflexivity|].
  injection E as E1 E2. cbn [total_size fold_right snd]. rewrite (IH results E2).
  unfold _load_single_file, read_bytes, compressed in E1. rewrite Hc in E1.
  unfold st_size.
  destruct (node_at fs f) as [[content|size]|]; try discriminate.
  destruct (relative_to f (instance_data_dir self)); [|discriminate].
  injection E1 as _ <-. reflexivity.
Qed.

Section Loading.

Variable as_completed :
  list (Result (string * bytes)) -> list (Result (string * bytes)).
Hypothesis completion : forall l, Permutation (as_completed l) l.

(** When [_load_dataset] returns, every worker has returned, no two of them
    under one key, every result is in the storage, and the raw total passed
    the limit check. *)
Lemma load_dataset_staged fs self self' :
  wf_fs fs ->
  _load_dataset as_completed fs self = (Ok tt, self') ->
  exists results,
    map (_load_single_file fs self) (_gather_files fs self) = map Ok results
    /\ NoDup (map fst results)
    /\ self' = set_storage self (_storage self')
    /\ (forall k v, In (k, v) results -> _storage self' !! k = Some v)
    /\ ((forall k, In k (map fst results) -> _storage self !! k = None) ->
        held_bytes (_storage self')
        = fold_right (fun kv acc => Z.of_nat (length (snd kv)) + acc) 0 results
          + held_bytes (_storage self))
    /\ exists total,
         total_size fs (_gather_files fs self) = Ok total
         /\ (_gather_files fs self <> [] ->
             over_limit (_memory_limit_bytes self) total = false).
Proof.
  intros Hwf. unfold _load_dataset.
  destruct (_gather_files fs self) as [|f0 files0] eqn:Efiles.
  { intros [= <-]. exists []. split; [reflexivity|]. split; [constructor|].
    split; [symmetry; apply set_storage_id|]. split; [intros k v []|].
    split; [intros _; reflexivity|]. exists 0. split; [reflexivity | congruence]. }
  rewrite <- Efiles.
  destruct (total_size fs (_gather_files fs self)) as [total|e]; [|discriminate].
  destruct (over_limit (_memory_limit_bytes self) total) eqn:Eover; [discriminate|].
  destruct (drain _ (_storage self)) as [r storage'] eqn:Edrain.
  intros [= -> <-].
  destruct (drain_ok_inv _ _ _ Edrain) as [kvs Ekvs].
  pose proof (completion (map (_load_single_file fs self) (_gather_files fs self))) as Hperm.
  rewrite Ekvs in Hperm. symmetry in Hperm.
  apply Permutation_map_inv in Hperm as (results & Eres & Hperm).
  assert (NDr : NoDup (map fst results)).
  { apply (loaded_keys_NoDup fs self Hwf (_gather_files fs self) results);
      [apply gathered_NoDup | auto | exact Eres]. }
  assert (NDk : NoDup (map fst kvs)).
  { apply NoDup_ListNoDup. eapply Permutation_NoDup.
    - apply Permutation_map. symmetry. exact Hperm.
    - apply NoDup_ListNoDup, NDr. }
  rewrite Ekvs in Edrain.
  assert (Est : storage' = snd (drain (map Ok kvs) (_storage self)))
    by (rewrite Edrain; reflexivity).
  exists results. split; [exact Eres|]. split; [exact NDr|].
  split; [reflexivity|]. cbn [_storage set_storage]. split; [|split].
  - intros k v Hin. rewrite Est. apply drain_lookup; [exact NDk|].
    eapply Permutation_in; [symmetry; exact Hperm | exact Hin].
  - intros Hfree. rewrite Est, drain_held.
    + rewrite (payload_sum_perm _ _ Hperm). reflexivity.
    + exact NDk.
    + intros k Hk. apply Hfree.
      eapply Permutation_in; [apply Permutation_map; exact Hperm | exact Hk].
  - exists total. split; [reflexivity | intros _; exact Eover].
Qed.

End Loading.

Section Methods.

Variable zlib : Codec.
Variable lz4_frame : option Codec.
Variable snappy : option Codec.
Variable torch_save_bytes : PyData -> Result bytes.
Variable torch_load_bytes : bytes -> Result PyData.
Variable Image : Type.
Variable Image_open : bytes -> Result Image.

(** Whatever [_resolve_compression] returns is a matching pair: nothing at
    all, or the two functions of one library. *)
Lemma resolve_compression_pair name c d n :
  _resolve_compression zlib lz4_frame snappy name = Ok (c, d, n) ->
  (c = None /\ d = None /\ n = "none")
  \/ (exists codec,
        c = Some (compress codec) /\ d = Some (decompress codec)
        /\ ((codec = zlib /\ n = "zlib")
            \/ (lz4_frame = Some codec /\ n = "lz4")
            \/ (snappy = Some codec /\ n = "snappy"))).
Proof.
  unfold _resolve_compression. intros H.
  destruct name as [name|]; [|injection H as <- <- <-; left; auto].
  destruct (String.eqb name ""); [injection H as <- <- <-; left; auto|].
  destruct (String.eqb _ "zlib").
  { injection H as <- <- <-. right. exists zlib. intuition. }
  destruct (String.eqb _ "lz4").
  { destruct lz4_frame as [codec|]; [|discriminate].
    injection H as <- <- <-. right. exists codec. intuition. }
  destruct (String.eqb _ "snappy"); [|discriminate].
  destruct snappy as [codec|]; [|discriminate].
  injection H as <- <- <-. right. exists codec. intuition.
Qed.

(** C1. Let the libraries be lossless and let the backend hold the pair that
    [_resolve_compression] returns for its compression setting, which is one
    of none, zlib, lz4 and snappy.  Then [write(identifier, payload)] with a
    [bytes] payload returns, and [read(identifier)] right after it returns
    exactly [payload] and leaves the backend as [write] left it. *)
Theorem write_then_read_returns_payload :
  forall (name : option string)
         (c : option (bytes -> bytes)) (d : option (bytes -> Result bytes)) (n : string)
         (self : Backend) (identifier : string) (payload : bytes),
    lossless zlib ->
    (forall codec, lz4_frame = Some codec -> lossless codec) ->
    (forall codec, snappy = Some codec -> lossless codec) ->
    _resolve_compression zlib lz4_frame snappy name = Ok (c, d, n) ->
    _compress_fn self = c ->
    _decompress_fn self = d ->
    In n ["none"; "zlib"; "lz4"; "snappy"]
    /\ fst (write torch_save_bytes identifier (DBytes payload) self) = Ok tt
    /\ read identifier false (snd (write torch_save_bytes identifier (DBytes payload) self))
       = (Ok (DBytes payload), snd (write torch_save_bytes identifier (DBytes payload) self)).
Proof.
  intros name c d n self identifier payload Hz Hl Hs Hres Hc Hd.
  assert (Hround : decompressed (set_storage self (<[identifier := compressed self payload]>
                                                     (_storage self)))
                     (compressed self payload) = Ok payload).
  { unfold decompressed, compressed. cbn [_decompress_fn set_storage]. rewrite Hc, Hd.
    destruct (resolve_compression_pair _ _ _ _ Hres)
      as [(-> & -> & _)|(codec & -> & -> & Hcodec)]; [reflexivity|].
    destruct Hcodec as [[-> _]|[[Hc' _]|[Hc' _]]]; [apply Hz | apply (Hl _ Hc') | apply (Hs _ Hc')]. }
  split.
  { destruct (resolve_compression_pair _ _ _ _ Hres)
      as [(_ & _ & ->)|(codec & _ & _ & [[_ ->]|[[_ ->]|[_ ->]]])]; simpl; auto. }
  split; [reflexivity|].
  unfold write, read. cbn [snd _storage set_storage].
  rewrite lookup_insert_eq.
  cbn [set_storage] in Hround. unfold decompressed in *. cbn [_decompress_fn] in *.
  rewrite Hround. reflexivity.
Qed.

(** C9. [write] raises [TypeError] for every argument that is neither a
    [BytesIO], nor a [bytes], nor a [torch.Tensor], and the backend is then
    exactly as before. *)
Theorem write_rejects_other_types :
  forall (self : Backend) (identifier : string) (data : PyData),
    is_supported data = false ->
    write torch_save_bytes identifier data self = (Err TypeError, self).
Proof.
  intros self identifier data H. destruct data; try discriminate H. reflexivity.
Qed.

(** C8. When the identifier is not staged, [read] raises [KeyError] and
    [delete] returns and leaves the backend as it is; when the relative key
    of a path is not staged, [read_image] raises [FileNotFoundError] and
    [torch_load] raises [KeyError].  None of them changes the backend. *)
Theorem missing_identifier_errors :
  forall (self : Backend) (identifier filepath : string) (as_byte_io : bool),
    _storage self !! identifier = None ->
    _storage self !! _relative_key self filepath = None ->
    read identifier as_byte_io self = (Err (KeyError identifier), self)
    /\ delete identifier self = (Ok tt, self)
    /\ read_image Image Image_open filepath self = (Err (FileNotFoundError filepath), self)
    /\ torch_load torch_load_bytes filepath self
       = (Err (KeyError (_relative_key self filepath)), self).
Proof.
  intros self identifier filepath as_byte_io Hid Hkey.
  repeat split.
  - unfold read. rewrite Hid. reflexivity.
  - unfold delete. rewrite delete_id by exact Hid. rewrite set_storage_id. reflexivity.
  - unfold read_image, read. rewrite Hkey. reflexivity.
  - unfold torch_load, read. rewrite Hkey. reflexivity.
Qed.

Lemma read_keeps identifier as_byte_io self : snd (read identifier as_byte_io self) = self.
Proof.
  unfold read. destruct (_storage self !! identifier); [|reflexivity].
  destruct (decompressed self b); reflexivity.
Qed.

Lemma exists_keeps identifier self : snd (exists_ identifier self) = self.
Proof. reflexivity. Qed.

Lemma open_file_keeps identifier mode self : snd (open_file identifier mode self) = self.
Proof.
  unfold open_file. destruct (PyStr.contains "r" mode); [|reflexivity].
  destruct (_storage self !! identifier); [|reflexivity].
  destruct (decompressed self b); reflexivity.
Qed.

Lemma list_files_keeps file_extensions self : snd (list_files file_extensions self) = self.
Proof. reflexivity. Qed.

Lemma get_abs_path_keeps sample_path self : snd (get_abs_path sample_path self) = self.
Proof.
  unfold get_abs_path. destruct sample_path as [p|]; [|reflexivity].
  destruct (isabs p); reflexivity.
Qed.

Lemma read_image_keeps filepath self :
  snd (read_image Image Image_open filepath self) = self.
Proof.
  unfold read_image.
  pose proof (read_keeps (_relative_key self filepath) false self) as H.
  destruct (read (_relative_key self filepath) false self) as [[v|e] self'];
    simpl in H; subst self'.
  - destruct v; try reflexivity. destruct (Image_open content); reflexivity.
  - destruct e; reflexivity.
Qed.

Lemma read_image_batch_keeps filepaths self :
  snd (read_image_batch Image Image_open filepaths self) = self.
Proof.
  induction filepaths as [|path rest IH]; [reflexivity|]. simpl.
  pose proof (read_image_keeps path self) as H.
  destruct (read_image Image Image_open path self) as [[image|e] self'];
    simpl in H; subst self'; [|reflexivity].
  destruct (read_image_batch Image Image_open rest self) as [[images|e] self'];
    simpl in IH; subst self'; reflexivity.
Qed.

Lemma torch_load_keeps filename self :
  snd (torch_load torch_load_bytes filename self) = self.
Proof.
  unfold torch_load.
  pose proof (read_keeps (_relative_key self filename) false self) as H.
  destruct (read (_relative_key self filename) false self) as [[v|e] self'];
    simpl in H; subst self'; [|reflexivity].
  destruct v; try reflexivity. destruct (torch_load_bytes content); reflexivity.
Qed.

(** [write] leaves the backend as it is, or stores under its identifier. *)
Lemma write_effect identifier data self :
  snd (write torch_save_bytes identifier data self) = self
  \/ exists payload,
       snd (write torch_save_bytes identifier data self)
       = set_storage self (<[identifier := payload]> (_storage self)).
Proof.
  unfold write.
  destruct data; try (right; eexists; reflexivity); [|left; reflexivity].
  destruct (torch_save_bytes (DTensor t)); [right; eexists; reflexivity | left; reflexivity].
Qed.

Lemma differs_within_refl keys self : differs_within keys self self.
Proof. exists (_storage self). split; [symmetry; apply set_storage_id | reflexivity]. Qed.

Lemma differs_within_trans keys1 keys2 a b c :
  differs_within keys1 a b -> differs_within keys2 b c ->
  differs_within (keys1 ++ keys2) a c.
Proof.
  intros (s1 & -> & H1) (s2 & -> & H2). exists s2. split; [reflexivity|].
  intros k Hk. rewrite H2, <- H1.
  - reflexivity.
  - intros Hin. apply Hk, in_or_app. left. exact Hin.
  - intros Hin. apply Hk, in_or_app. right. exact Hin.
Qed.

Lemma write_differs identifier data self :
  differs_within [identifier] self (snd (write torch_save_bytes identifier data self)).
Proof.
  destruct (write_effect identifier data self) as [->|[payload ->]].
  - apply differs_within_refl.
  - eexists. split; [reflexivity|]. intros k Hk.
    apply lookup_insert_ne. intros ->. apply Hk. left. reflexivity.
Qed.

Lemma delete_differs identifier self :
  differs_within [identifier] self (snd (delete identifier self)).
Proof.
  eexists. split; [reflexivity|]. intros k Hk.
  apply lookup_delete_ne. intros ->. apply Hk. left. reflexivity.
Qed.

Lemma relative_key_set_storage self storage path :
  _relative_key (set_storage self storage) path = _relative_key self path.
Proof. reflexivity. Qed.

Lemma write_batch_differs items self :
  differs_within (map (fun it => _relative_key self (fst it)) items) self
    (snd (write_batch torch_save_bytes items self)).
Proof.
  revert self. induction items as [|[identifier payload] rest IH]; intros self.
  - apply differs_within_refl.
  - cbn [write_batch map fst].
    set (r := match payload with
              | DTensor _ =>
                  match torch_save_bytes payload with
                  | Ok content =>
                      write torch_save_bytes (_relative_key self identifier) (DBytes content) self
                  | Err e => (Err e, self)
                  end
              | _ => write torch_save_bytes (_relative_key self identifier) payload self
              end).
    assert (Hr : differs_within [_relative_key self identifier] self (snd r)).
    { unfold r. destruct payload; try apply write_differs.
      destruct (torch_save_bytes (DTensor t)); [apply write_differs | apply differs_within_refl]. }
    destruct r as [[u|e] self'] eqn:Er; cbn [snd] in *.
    + change (_relative_key self identifier :: map (fun it => _relative_key self (fst it)) rest)
        with ([_relative_key self identifier] ++ map (fun it => _relative_key self (fst it)) rest).
      eapply differs_within_trans; [exact Hr|].
      destruct Hr as (st & -> & _).
      exact (IH (set_storage self st)).
    + destruct Hr as (st & -> & Hst). exists st. split; [reflexivity|].
      intros k Hk. apply Hst. intros [<-|[]]. apply Hk. left. reflexivity.
Qed.

Lemma after_differs c self :
  differs_within (targets self c) self
    (after torch_save_bytes torch_load_bytes Image Image_open c self).
Proof.
  destruct c; cbn [after targets].
  - rewrite read_keeps. apply differs_within_refl.
  - apply write_differs.
  - apply delete_differs.
  - apply differs_within_refl.
  - rewrite open_file_keeps. apply differs_within_refl.
  - apply differs_within_refl.
  - rewrite get_abs_path_keeps. apply differs_within_refl.
  - rewrite read_image_keeps. apply differs_within_refl.
  - rewrite read_image_batch_keeps. apply differs_within_refl.
  - apply differs_within_refl.
  - rewrite torch_load_keeps. apply differs_within_refl.
  - unfold torch_save. destruct (torch_save_bytes data);
      [apply write_differs | apply differs_within_refl].
  - apply write_batch_differs.
Qed.

Lemma targets_set_storage self storage c :
  targets (set_storage self storage) c = targets self c.
Proof. destruct c; reflexivity. Qed.

Lemma run_differs calls self :
  differs_within (flat_map (targets self) calls) self
    (run torch_save_bytes torch_load_bytes Image Image_open calls self).
Proof.
  revert self. induction calls as [|c calls IH]; intros self.
  - apply differs_within_refl.
  - cbn [run fold_left flat_map].
    eapply differs_within_trans; [apply after_differs|].
    destruct (after_differs c self) as (st & Hst & _).
    fold (run torch_save_bytes torch_load_bytes Image Image_open calls
            (after torch_save_bytes torch_load_bytes Image Image_open c self)).
    rewrite Hst.
    replace (flat_map (targets self) calls)
      with (flat_map (targets (set_storage self st)) calls).
    + apply IH.
    + apply flat_map_ext. intros c'. apply targets_set_storage.
Qed.

(** C3. Nothing is evicted.  [read], [exists], [open_file], [list_files],
    [read_image], [torch_load] and [get_abs_path] leave the backend, its
    storage included, exactly as it was, whether they return or raise.
    [write(identifier, data)] and [delete(identifier)] leave every entry
    under another identifier [k] as it was.  And after any sequence of calls
    to the backend's methods, the entry under [k] is what it was unless one
    of the calls handed [k] to [write] or [delete]. *)
Theorem storage_changes_only_under_written_or_deleted_key :
  forall (self : Backend) (identifier k : string) (data : PyData) (calls : list Call)
         (as_byte_io : bool) (mode filepath : string)
         (file_extensions : option (list string)) (sample_path : option string),
    k <> identifier ->
    (forall c, In c calls -> ~ In k (targets self c)) ->
    (snd (read identifier as_byte_io self) = self
     /\ snd (exists_ identifier self) = self
     /\ snd (open_file identifier mode self) = self
     /\ snd (list_files file_extensions self) = self
     /\ snd (read_image Image Image_open filepath self) = self
     /\ snd (torch_load torch_load_bytes filepath self) = self
     /\ snd (get_abs_path sample_path self) = self)
    /\ _storage (snd (write torch_save_bytes identifier data self)) !! k = _storage self !! k
    /\ _storage (snd (delete identifier self)) !! k = _storage self !! k
    /\ _storage (run torch_save_bytes torch_load_bytes Image Image_open calls self) !! k
       = _storage self !! k.
Proof.
  intros self identifier k data calls as_byte_io mode filepath file_extensions sample_path
         Hne Hcalls.
  split.
  { repeat split.
    - apply read_keeps.
    - apply open_file_keeps.
    - apply read_image_keeps.
    - apply torch_load_keeps.
    - apply get_abs_path_keeps. }
  assert (Hk : ~ In k [identifier]) by (intros [->|[]]; congruence).
  split; [|split].
  - destruct (write_differs identifier data self) as (st & -> & Hst). exact (Hst k Hk).
  - destruct (delete_differs identifier self) as (st & -> & Hst). exact (Hst k Hk).
  - destruct (run_differs calls self) as (st & -> & Hst). apply Hst.
    intros Hin. apply in_flat_map in Hin as (c & Hc & Hkc). exact (Hcalls c Hc Hkc).
Qed.

End Methods.

Section Construction.

Variable zlib : Codec.
Variable lz4_frame : option Codec.
Variable snappy : option Codec.
Variable image_file_extensions : list string.
Variable as_completed :
  list (Result (string * bytes)) -> list (Result (string * bytes)).

Lemma init_inv fs id dir file_extensions compression memory_limit_gb workers self :
  __init__ zlib lz4_frame snappy image_file_extensions as_completed
    fs id dir file_extensions compression memory_limit_gb workers = Ok self ->
  exists c d n,
    _resolve_compression zlib lz4_frame snappy compression = Ok (c, d, n)
    /\ path_exists fs (Path dir) = true
    /\ _load_dataset as_completed fs
         (fresh_backend image_file_extensions id dir file_extensions c d n
            memory_limit_gb workers)
       = (Ok tt, self).
Proof.
  unfold __init__.
  destruct (_resolve_compression zlib lz4_frame snappy compression) as [[[c d] n]|e];
    [|discriminate].
  destruct (path_exists fs (Path dir)); [|discriminate]. cbn [negb].
  destruct (_load_dataset _ _ _) as [[[]|e] self'] eqn:E; [|discriminate].
  intros [= <-]. exists c, d, n. auto.
Qed.

Lemma over_limit_false limit total :
  0 < limit -> over_limit (Some limit) total = false -> total <= limit.
Proof.
  unfold over_limit. intros Hpos H.
  destruct (limit =? 0) eqn:E; [apply Z.eqb_eq in E; lia|].
  cbn [negb andb] in H. apply Z.ltb_ge in H. exact H.
Qed.

(** C4, as the code has it.  Let the configured limit amount to at least one
    byte, the compression setting resolve and the directory exist.  When the
    sizes [stat] reports for the discovered files add up to more than the
    limit, [_load_dataset] raises [MemoryError] with the storage still empty,
    and so does the constructor.  When the constructor returns, those sizes
    add up to at most the limit, and without compression they are the bytes
    the new backend holds.  (Nothing bounds what [write] adds later.) *)
Theorem memory_limit_checked_when_loading :
  forall (fs : FileSystem) (id dir : string) (file_extensions : option (list string))
         (compression : option string) (gb : Q) (workers : Z)
         (c : option (bytes -> bytes)) (d : option (bytes -> Result bytes)) (n : string),
    (forall l, Permutation (as_completed l) l) ->
    wf_fs fs ->
    0 < limit_bytes_of_gb gb ->
    _resolve_compression zlib lz4_frame snappy compression = Ok (c, d, n) ->
    path_exists fs (Path dir) = true ->
    let self0 :=
      fresh_backend image_file_extensions id dir file_extensions c d n (Some gb) workers in
    let built :=
      __init__ zlib lz4_frame snappy image_file_extensions as_completed
        fs id dir file_extensions compression (Some gb) workers in
    (forall total,
        total_size fs (_gather_files fs self0) = Ok total ->
        limit_bytes_of_gb gb < total ->
        _load_dataset as_completed fs self0 = (Err MemoryError, self0)
        /\ _storage self0 = ∅
        /\ built = Err MemoryError)
    /\ (forall self,
          built = Ok self ->
          exists total,
            total_size fs (_gather_files fs self0) = Ok total
            /\ total <= limit_bytes_of_gb gb
            /\ (n = "none" -> held_bytes (_storage self) = total)).
Proof.
  intros fs id dir file_extensions compression gb workers c d n
         Hperm Hwf Hpos Hres Hexists self0 built.
  split.
  - intros total Htotal Hover.
    assert (Hload : _load_dataset as_completed fs self0 = (Err MemoryError, self0)).
    { unfold _load_dataset.
      destruct (_gather_files fs self0) as [|f files] eqn:Efiles.
      - simpl in Htotal. injection Htotal as <-. lia.
      - rewrite Htotal.
        assert (Ho : over_limit (_memory_limit_bytes self0) total = true).
        { cbn [self0 fresh_backend _memory_limit_bytes option_map over_limit].
          destruct (limit_bytes_of_gb gb =? 0) eqn:E; [apply Z.eqb_eq in E; lia|].
          cbn [negb andb]. apply Z.ltb_lt. exact Hover. }
        rewrite Ho. reflexivity. }
    split; [exact Hload|]. split; [reflexivity|].
    unfold built, __init__. rewrite Hres, Hexists. cbn [negb].
    fold self0. rewrite Hload. reflexivity.
  - intros self Hbuilt.
    apply init_inv in Hbuilt as (c' & d' & n' & Hres' & _ & Hload).
    rewrite Hres in Hres'. injection Hres' as <- <- <-. fold self0 in Hload.
    destruct (load_dataset_staged as_completed Hperm fs self0 self Hwf Hload)
      as (results & Eres & ND & _ & _ & Hheld & total & Htotal & Hlimit).
    exists total. split; [exact Htotal|]. split.
    + destruct (_gather_files fs self0) as [|f files] eqn:Efiles.
      * simpl in Htotal. injection Htotal as <-. lia.
      * apply over_limit_false; [exact Hpos|]. apply Hlimit. discriminate.
    + intros Hn.
      assert (Hc : _compress_fn self0 = None).
      { cbn [self0 fresh_backend _compress_fn].
        destruct (resolve_compression_pair _ _ _ _ _ _ _ Hres)
          as [(-> & _)|(codec & _ & _ & [[_ E]|[[_ E]|[_ E]]])];
          [reflexivity | | |]; rewrite E in Hn; discriminate. }
      rewrite (total_size_of_results fs self0 _ results Hc Eres) in Htotal.
      injection Htotal as <-. rewrite Hheld; [|intros; apply lookup_empty].
      assert (He : held_bytes (_storage self0) = 0)
        by (unfold held_bytes; apply map_fold_empty).
      rewrite He. lia.
Qed.

(** X25.  Let the file system be well formed, the
    libraries lossless, the configured extensions free of glob characters,
    and let the constructor return [self] for a directory.  Then every
    regular file below the directory whose name ends with a dot and one of
    the extensions of [self] (the configured ones, lowercased and without
    leading dots), in lower case or all in upper case, is in the storage
    under its path relative to the directory, compressed as configured, and
    [read] of that key, which looks at the storage only, returns the file's
    contents. *)
Theorem globbed_files_are_staged_and_served :
  forall (fs : FileSystem) (id dir : string) (file_extensions : option (list string))
         (compression : option string) (memory_limit_gb : option Q) (workers : Z)
         (self : Backend) (rel : list string) (content : bytes) (ext : string),
    (forall l, Permutation (as_completed l) l) ->
    wf_fs fs ->
    lossless zlib ->
    (forall codec, lz4_frame = Some codec -> lossless codec) ->
    (forall codec, snappy = Some codec -> lossless codec) ->
    __init__ zlib lz4_frame snappy image_file_extensions as_completed
      fs id dir file_extensions compression memory_limit_gb workers = Ok self ->
    is_dir fs (Path dir) = true ->
    Forall (fun e => glob_literal e = true) (_file_extensions self) ->
    In ext (_file_extensions self) ->
    rel <> [] ->
    In (parts (resolve fs (Path dir)) ++ rel, RegularFile content) (entries fs) ->
    PyStr.endswith (List.last rel "") ("." ++ ext) = true
    \/ PyStr.endswith (List.last rel "") (PyStr.upper ("." ++ ext)) = true ->
    _storage self !! String.concat "/" rel = Some (compressed self content)
    /\ read (String.concat "/" rel) false self = (Ok (DBytes content), self).
Proof.
  intros fs id dir file_extensions compression memory_limit_gb workers self rel content ext
         Hperm Hwf Hz Hl Hs Hbuilt Hdir _ Hext Hrel Hentry Hname.
  apply init_inv in Hbuilt as (c & d & n & Hres & _ & Hload).
  set (self0 := fresh_backend image_file_extensions id dir file_extensions c d n
                  memory_limit_gb workers) in *.
  destruct (load_dataset_staged as_completed Hperm fs self0 self Hwf Hload)
    as (results & Eres & _ & Hself & Hstaged & _).
  destruct rel as [|c0 rel0]; [congruence|].
  assert (Hvalid : Forall valid_name (c0 :: rel0)).
  { pose proof (entry_names fs Hwf _ _ Hentry) as H. apply Forall_app in H. apply H. }
  set (x := {| anchor := anchor (Path dir); parts := parts (Path dir) ++ c0 :: rel0 |}).
  assert (Hexts : _file_extensions self = _file_extensions self0)
    by (rewrite Hself; reflexivity).
  assert (Hgathered : In (resolve fs x) (_gather_files fs self0)).
  { apply gathered_In. exists ext, x. split; [rewrite <- Hexts; exact Hext|].
    split; [|reflexivity].
    assert (Hglob : forall pattern,
               fnmatch (List.last (c0 :: rel0) "") pattern = true ->
               In x (rglob fs (instance_data_dir self0) pattern)).
    { intros pattern Hmatch. apply rglob_In. split.
      - unfold is_dir in Hdir. change (instance_data_dir self0) with (Path dir).
        destruct (node_at fs (Path dir)) as [[?|size]|]; try discriminate. eauto.
      - exists (parts (resolve fs (Path dir)) ++ c0 :: rel0), (RegularFile content), c0, rel0.
        auto. }
    destruct Hname as [Hname|Hname]; [left | right]; apply Hglob; exact Hname. }
  destruct (loaded_to fs self0 _ results _ Eres Hgathered) as ([k v] & Hin & Hloaded).
  destruct (load_shape fs self0 Hwf _ k v Hgathered Hloaded)
    as (c1 & rel1 & content1 & Hparts & _ & Hresolved & _ & Hk & Hin1 & Hv).
  change (instance_data_dir self0) with (Path dir) in Hparts, Hresolved.
  unfold x in Hparts, Hin1. rewrite resolve_below in Hparts, Hin1 by exact Hvalid.
  cbn [parts] in Hparts, Hin1. rewrite Hresolved in Hparts.
  apply app_inv_head in Hparts. rewrite <- Hparts in Hk. subst k.
  assert (content1 = content).
  { destruct Hwf as [_ ND].
    pose proof (In_lookup_node _ _ _ ND Hentry) as L.
    pose proof (In_lookup_node _ _ _ ND Hin1) as L1.
    rewrite L in L1. congruence. }
  subst content1.
  assert (Hcomp : forall data, compressed self data = compressed self0 data)
    by (intros; rewrite Hself; reflexivity).
  assert (Hstored : _storage self !! String.concat "/" (c0 :: rel0)
                    = Some (compressed self content)).
  { rewrite Hcomp, <- Hv. apply Hstaged, Hin. }
  split; [exact Hstored|].
  unfold read. rewrite Hstored.
  assert (Hround : decompressed self (compressed self content) = Ok content).
  { rewrite Hself. unfold decompressed, compressed.
    cbn [self0 fresh_backend set_storage _compress_fn _decompress_fn].
    destruct (resolve_compression_pair _ _ _ _ _ _ _ Hres)
      as [(-> & -> & _)|(codec & -> & -> & Hcodec)]; [reflexivity|].
    destruct Hcodec as [[-> _]|[[Hc' _]|[Hc' _]]];
      [apply Hz | apply (Hl _ Hc') | apply (Hs _ Hc')]. }
  rewrite Hround. reflexivity.
Qed.

End Construction.

(** *** The sample libraries and the sample tree *)

Lemma tagged_lossless : lossless (Samples.tagged Byte.x78).
Proof. intros data. reflexivity. Qed.

Lemma last_first_perm l : Permutation (Samples.last_first l) l.
Proof. symmetry. apply Permutation_rev. Qed.

Lemma dataset_wf : wf_fs Samples.dataset.
Proof.
  split.
  - repeat constructor; discriminate.
  - repeat constructor; simpl; intuition discriminate.
Qed.

Lemma write_then_read_returns_payload_witness :
  In "zlib" ["none"; "zlib"; "lz4"; "snappy"]
  /\ fst (write Samples.save_tensor "a.png" (DBytes [Byte.x01; Byte.x02])
            (Samples.backend_with (Some (Samples.tagged Byte.x78)) None ∅)) = Ok tt
  /\ read "a.png" false
       (snd (write Samples.save_tensor "a.png" (DBytes [Byte.x01; Byte.x02])
               (Samples.backend_with (Some (Samples.tagged Byte.x78)) None ∅)))
     = (Ok (DBytes [Byte.x01; Byte.x02]),
        snd (write Samples.save_tensor "a.png" (DBytes [Byte.x01; Byte.x02])
               (Samples.backend_with (Some (Samples.tagged Byte.x78)) None ∅))).
Proof.
  apply (write_then_read_returns_payload
           (Samples.tagged Byte.x78) None None Samples.save_tensor (Some " ZLib ")
           (Some (compress (Samples.tagged Byte.x78)))
           (Some (decompress (Samples.tagged Byte.x78))) "zlib").
  - exact tagged_lossless.
  - intros codec H. discriminate H.
  - intros codec H. discriminate H.
  - reflexivity.
  - reflexivity.
  - reflexivity.
Defined.

Lemma write_rejects_other_types_witness :
  write Samples.save_tensor "a.png" (DOther "str") (Samples.backend_with None None ∅)
  = (Err TypeError, Samples.backend_with None None ∅).
Proof.
  apply (write_rejects_other_types Samples.save_tensor). reflexivity.
Defined.

Lemma missing_identifier_errors_witness :
  read "a.png" false (Samples.backend_with None None ∅)
  = (Err (KeyError "a.png"), Samples.backend_with None None ∅)
  /\ delete "a.png" (Samples.backend_with None None ∅)
     = (Ok tt, Samples.backend_with None None ∅)
  /\ read_image nat Samples.open_image "/data/sub/b.png" (Samples.backend_with None None ∅)
     = (Err (FileNotFoundError "/data/sub/b.png"), Samples.backend_with None None ∅)
  /\ torch_load Samples.load_tensor "/data/sub/b.png" (Samples.backend_with None None ∅)
     = (Err (KeyError (_relative_key (Samples.backend_with None None ∅) "/data/sub/b.png")),
        Samples.backend_with None None ∅).
Proof.
  apply (missing_identifier_errors Samples.load_tensor nat Samples.open_image).
  - reflexivity.
  - reflexivity.
Defined.

Lemma storage_changes_only_under_written_or_deleted_key_witness :
  let self := Samples.backend_with None None {[ "a.png" := [Byte.x01] ]} in
  let calls := [CWrite "b.png" (DBytes [Byte.x02]); CRead "a.png" false;
                CDelete "b.png"; CTorchSave (DTensor 0%nat) "/data/t.pt"] in
  (snd (read "b.png" false self) = self
   /\ snd (exists_ "b.png" self) = self
   /\ snd (open_file "b.png" "rb" self) = self
   /\ snd (list_files None self) = self
   /\ snd (read_image nat Samples.open_image "/data/a.png" self) = self
   /\ snd (torch_load Samples.load_tensor "/data/a.png" self) = self
   /\ snd (get_abs_path (Some "a.png") self) = self)
  /\ _storage (snd (write Samples.save_tensor "b.png" (DBytes [Byte.x02]) self)) !! "a.png"
     = _storage self !! "a.png"
  /\ _storage (snd (delete "b.png" self)) !! "a.png" = _storage self !! "a.png"
  /\ _storage (run Samples.save_tensor Samples.load_tensor nat Samples.open_image calls self)
       !! "a.png"
     = _storage self !! "a.png".
Proof.
  intros self calls.
  apply (storage_changes_only_under_written_or_deleted_key
           Samples.save_tensor Samples.load_tensor nat Samples.open_image
           self "b.png" "a.png" (DBytes [Byte.x02]) calls false "rb" "/data/a.png"
           None (Some "a.png")).
  - discriminate.
  - intros c [<-|[<-|[<-|[<-|[]]]]]; vm_compute; intuition discriminate.
Defined.

Lemma mixed_case_wf : wf_fs Samples.mixed_case.
Proof.
  split.
  - repeat constructor; discriminate.
  - repeat constructor; simpl; intuition discriminate.
Qed.

Lemma globbed_files_are_staged_and_served_witness :
  exists self,
    __init__ (Samples.tagged Byte.x78) None None ["jpg"; "PNG"] Samples.last_first
      Samples.dataset "cache" "/data" None (Some "zlib") None 16 = Ok self
    /\ _storage self !! String.concat "/" ["sub"; "b.PNG"]
       = Some (compressed self [Byte.x03])
    /\ read (String.concat "/" ["sub"; "b.PNG"]) false self
       = (Ok (DBytes [Byte.x03]), self).
Proof.
  eexists. split; [vm_compute; reflexivity|].
  apply (globbed_files_are_staged_and_served
           (Samples.tagged Byte.x78) None None ["jpg"; "PNG"] Samples.last_first
           Samples.dataset "cache" "/data" None (Some "zlib") None 16
           _ ["sub"; "b.PNG"] [Byte.x03] "png").
  - exact last_first_perm.
  - exact dataset_wf.
  - exact tagged_lossless.
  - intros codec H. discriminate H.
  - intros codec H. discriminate H.
  - vm_compute. reflexivity.
  - reflexivity.
  - repeat constructor.
  - right. left. reflexivity.
  - discriminate.
  - vm_compute. intuition.
  - right. reflexivity.
Defined.

(** C2 at a failing input: the directory holds [a.Png], the configured
    extension is [Png], which is the file's extension letter for letter, and
    the constructor returns with nothing staged under [a.Png]: it looked for
    [*.png] and [*.PNG].  The test of the sibling [list_files], which
    lowercases the suffix, accepts the name. *)
Lemma mixed_case_extension_not_staged :
  In (["data"; "a.Png"], RegularFile [Byte.x01; Byte.x02]) (entries Samples.mixed_case)
  /\ PyStr.lstrip_dots (suffix (Path "/data/a.Png")) = "Png"
  /\ match __init__ (Samples.tagged Byte.x78) None None ["jpg"; "PNG"] Samples.last_first
             Samples.mixed_case "cache" "/data" (Some ["Png"]) None None 16 with
     | Ok self =>
         _file_extensions self = ["png"]
         /\ _storage self !! "a.Png" = None
         /\ _storage self = ∅
         /\ Representation.extension_wanted (_file_extensions self) "a.Png" = true
     | Err _ => False
     end.
Proof.
  split; [right; left; reflexivity|]. split; [reflexivity|].
  vm_compute. repeat split.
Qed.

Lemma memory_limit_checked_when_loading_witness :
  (forall total,
      total_size Samples.dataset
        (_gather_files Samples.dataset
           (fresh_backend ["jpg"; "PNG"] "cache" "/data" None None None "none"
              (Some (Qmake 2 (2 ^ 30))) 16)) = Ok total ->
      limit_bytes_of_gb (Qmake 2 (2 ^ 30)) < total ->
      _load_dataset Samples.last_first Samples.dataset
        (fresh_backend ["jpg"; "PNG"] "cache" "/data" None None None "none"
           (Some (Qmake 2 (2 ^ 30))) 16)
      = (Err MemoryError,
         fresh_backend ["jpg"; "PNG"] "cache" "/data" None None None "none"
           (Some (Qmake 2 (2 ^ 30))) 16)
      /\ _storage (fresh_backend ["jpg"; "PNG"] "cache" "/data" None None None "none"
                     (Some (Qmake 2 (2 ^ 30))) 16) = ∅
      /\ __init__ (Samples.tagged Byte.x78) None None ["jpg"; "PNG"] Samples.last_first
           Samples.dataset "cache" "/data" None None (Some (Qmake 2 (2 ^ 30))) 16
         = Err MemoryError)
  /\ (forall self,
        __init__ (Samples.tagged Byte.x78) None None ["jpg"; "PNG"] Samples.last_first
          Samples.dataset "cache" "/data" None None (Some (Qmake 2 (2 ^ 30))) 16 = Ok self ->
        exists total,
          total_size Samples.dataset
            (_gather_files Samples.dataset
               (fresh_backend ["jpg"; "PNG"] "cache" "/data" None None None "none"
                  (Some (Qmake 2 (2 ^ 30))) 16)) = Ok total
          /\ total <= limit_bytes_of_gb (Qmake 2 (2 ^ 30))
          /\ ("none" = "none" -> held_bytes (_storage self) = total)).
Proof.
  apply (memory_limit_checked_when_loading
           (Samples.tagged Byte.x78) None None ["jpg"; "PNG"] Samples.last_first
           Samples.dataset "cache" "/data" None None (Qmake 2 (2 ^ 30)) 16
           None None "none").
  - exact last_first_perm.
  - exact dataset_wf.
  - reflexivity.
  - reflexivity.
  - reflexivity.
Defined.

(** C4 as stated fails: a backend built under a limit of eight bytes holds
    three, and nineteen after one [write]. *)
Lemma write_exceeds_memory_limit :
  match __init__ (Samples.tagged Byte.x78) None None ["jpg"; "PNG"] Samples.last_first
          Samples.dataset "cache" "/data" None None (Some (Qmake 8 (2 ^ 30))) 16 with
  | Ok self =>
      _memory_limit_bytes self = Some 8
      /\ held_bytes (_storage self) = 3
      /\ fst (write Samples.save_tensor "big.bin" (DBytes (repeat Byte.x00 16)) self) = Ok tt
      /\ held_bytes
           (_storage (snd (write Samples.save_tensor "big.bin"
                             (DBytes (repeat Byte.x00 16)) self))) = 19
  | Err _ => False
  end.
Proof. vm_compute. repeat split. Qed.

End BackendFacts.

(** ** More about the hint functions and their callers *)

Module UvmMore.
Import Uvm UvmSpec.

Lemma emits_ret {A} P (a : A) : emits P (ret a).
Proof. intros w h. constructor. Qed.

Lemma emits_bind {A B} P (m : M A) (k : A -> M B) :
  emits P m -> (forall a, emits P (k a)) -> emits P (bind m k).
Proof.
  intros Hm Hk w h. unfold bind. specialize (Hm w h).
  destruct (m w h) as [[a|] e1]; [|exact Hm].
  specialize (Hk a w (e1 ++ h)). destruct (k a w (e1 ++ h)) as [r e2].
  simpl in *. apply Forall_app. split; assumption.
Qed.

Lemma emits_try {A} P (m handler : M A) :
  emits P m -> emits P handler -> emits P (try_except m handler).
Proof.
  intros Hm Hh w h. unfold try_except. specialize (Hm w h).
  destruct (m w h) as [[a|] e1]; [exact Hm|].
  specialize (Hh w (e1 ++ h)). destruct (handler w (e1 ++ h)) as [r e2].
  simpl in *. apply Forall_app. split; assumption.
Qed.

Lemma emits_query (P : Event -> Prop) q : (forall b, P (EQuery q b)) -> emits P (query q).
Proof. intros H w h. repeat constructor. apply H. Qed.

Lemma emits_op (P : Event -> Prop) o : (forall r, P (EOp o r)) -> emits P (op o).
Proof.
  intros H w h. unfold op. destruct (perform w h o); repeat constructor; apply H.
Qed.

Lemma emits_for_each {A} P (l : list A) (body : A -> M unit) :
  (forall a, In a l -> emits P (body a)) -> emits P (for_each l body).
Proof.
  induction l as [|a l IH]; intros H; [apply emits_ret|].
  cbn [for_each]. apply emits_bind.
  - apply H. left. reflexivity.
  - intros _. apply IH. intros a' Ha'. apply H. right. exact Ha'.
Qed.

Lemma emits_weaken {A} (P Q : Event -> Prop) (m : M A) :
  (forall e, P e -> Q e) -> emits P m -> emits Q m.
Proof. intros HPQ Hm w h. eapply Forall_impl; [apply Hm | exact HPQ]. Qed.

Lemma never_raises_ret {A} (a : A) : never_raises (ret a).
Proof. intros w h. exists a. reflexivity. Qed.

Lemma never_raises_bind {A B} (m : M A) (k : A -> M B) :
  never_raises m -> (forall a, never_raises (k a)) -> never_raises (bind m k).
Proof.
  intros Hm Hk w h. unfold bind. destruct (Hm w h) as [a Ha].
  destruct (m w h) as [r e1]. simpl in Ha. subst r.
  destruct (Hk a w (e1 ++ h)) as [b Hb].
  destruct (k a w (e1 ++ h)) as [r e2]. simpl in *. eauto.
Qed.

Lemma never_raises_query q : never_raises (query q).
Proof. intros w h. eexists. reflexivity. Qed.

Lemma never_raises_for_each {A} (l : list A) (body : A -> M unit) :
  (forall a, never_raises (body a)) -> never_raises (for_each l body).
Proof.
  intros H. induction l as [|a l IH]; [apply never_raises_ret|].
  cbn [for_each]. apply never_raises_bind; [apply H | intros _; exact IH].
Qed.

Lemma apply_preferred_location_returns ov env t prefer_cpu :
  never_raises (_apply_preferred_location ov env t prefer_cpu).
Proof.
  intros w h.
  destruct (UvmFacts.apply_preferred_location_best_effort w ov env t prefer_cpu h)
    as (b & Hb & _).
  exists b. exact Hb.
Qed.

Lemma prefetch_to_device_returns ov env t device :
  never_raises (prefetch_to_device ov env t device).
Proof.
  intros w h.
  destruct (UvmFacts.prefetch_to_device_best_effort w ov env t device h) as (b & Hb & _).
  exists b. exact Hb.
Qed.

Lemma hint_if_cuda_tensor_returns ov env value :
  never_raises (Audio.hint_if_cuda_tensor ov env value).
Proof.
  destruct value; try apply never_raises_ret.
  cbn [Audio.hint_if_cuda_tensor]. apply never_raises_bind; [apply never_raises_query|].
  intros [|]; [|apply never_raises_ret].
  apply never_raises_bind; [apply apply_preferred_location_returns|]. intros _.
  apply never_raises_bind; [apply prefetch_to_device_returns|]. intros _.
  apply never_raises_ret.
Qed.

(** X17. Neither batch pass propagates an exception: whatever the runtime does,
    [optimize_batch_for_gh200] and [apply_audio_uvm_hints] return. *)
Theorem batch_passes_never_raise :
  forall (ov : Override) (env : Environ) (batch : list (string * Obj)),
    never_raises (optimize_batch_for_gh200 ov env batch)
    /\ never_raises (Audio.apply_audio_uvm_hints ov env batch).
Proof.
  intros ov env batch. split.
  - unfold optimize_batch_for_gh200.
    destruct (negb (gh200_uvm_enabled ov env)); [apply never_raises_ret|].
    apply never_raises_bind.
    + apply never_raises_for_each. intros t.
      apply never_raises_bind; [apply apply_preferred_location_returns|].
      intros _. apply never_raises_ret.
    + intros _. apply never_raises_for_each. intros key.
      apply never_raises_for_each. intros t.
      apply never_raises_bind; [apply apply_preferred_location_returns|]. intros _.
      apply never_raises_bind; [apply prefetch_to_device_returns|]. intros _.
      apply never_raises_ret.
  - unfold Audio.apply_audio_uvm_hints.
    destruct (negb (gh200_uvm_enabled ov env)); [apply never_raises_ret|].
    apply never_raises_for_each. intros key.
    destruct (batch_get batch key); try apply never_raises_ret.
    + apply hint_if_cuda_tensor_returns.
    + apply never_raises_for_each. intros kv. apply hint_if_cuda_tensor_returns.
Qed.

Lemma about_none t e : event_tensor e = None -> about t e.
Proof. intros H. left. exact H. Qed.

Ltac emits_about :=
  repeat first
    [ apply emits_ret
    | apply emits_query; intros; unfold about; cbn; auto
    | apply emits_op; intros; unfold about; cbn; auto
    | apply emits_bind; [|intros]
    | apply emits_try
    | match goal with |- emits _ (if ?b then _ else _) => destruct b end
    | match goal with |- emits _ (match ?x with _ => _ end) => destruct x end ].

Lemma apply_preferred_location_about ov env t prefer_cpu :
  emits (about t) (_apply_preferred_location ov env t prefer_cpu).
Proof.
  unfold _apply_preferred_location, unavailable_or_not_cuda, advise_through_torch,
    advise_through_cudart, _cudart, _element_span_bytes, tensor_pointer,
    _current_cuda_device.
  emits_about.
Qed.

Lemma prefetch_to_device_about ov env t device :
  emits (about t) (prefetch_to_device ov env t device).
Proof.
  unfold prefetch_to_device, unavailable_or_not_cuda, prefetch_through_cudart,
    _cudart, _element_span_bytes, tensor_pointer, _current_cuda_device.
  emits_about.
Qed.

Lemma about_in ts t e : In t ts -> about t e -> about_one_of ts e.
Proof. intros Hin [H|H] t' Ht'; congruence. Qed.

(** X18. The hint functions access (probe, measure, take the pointer of, pass to
    [memory_advise]) the tensor they are given and no other, and
    [optimize_batch_for_gh200] accesses only the tensors found under
    [latents], [encoder_hidden_states], [text_embeddings] and
    [pooled_prompt_embeds], at any depth of nesting: a tensor under any
    other key of the batch is never accessed. *)
Theorem optimize_batch_leaves_other_keys_alone :
  forall (ov : Override) (env : Environ) (batch : list (string * Obj))
         (t : Tensor) (device : option Z),
    emits (about t) (prefer_cpu_residency ov env t)
    /\ emits (about t) (prefer_gpu_residency ov env t)
    /\ emits (about t) (prefetch_to_device ov env t device)
    /\ emits (about_one_of
                (_iter_tensors (batch_get batch "latents")
                 ++ _iter_tensors (batch_get batch "encoder_hidden_states")
                 ++ _iter_tensors (batch_get batch "text_embeddings")
                 ++ _iter_tensors (batch_get batch "pooled_prompt_embeds")))
         (optimize_batch_for_gh200 ov env batch).
Proof.
  intros ov env batch t device.
  split; [apply apply_preferred_location_about|].
  split; [apply apply_preferred_location_about|].
  split; [apply prefetch_to_device_about|].
  unfold optimize_batch_for_gh200.
  destruct (negb (gh200_uvm_enabled ov env)); [apply emits_ret|].
  apply emits_bind.
  - apply emits_for_each. intros t' Ht'. apply emits_bind; [|intros; apply emits_ret].
    eapply emits_weaken; [|apply apply_preferred_location_about].
    intros e. apply about_in. apply in_or_app. left. exact Ht'.
  - intros _. apply emits_for_each. intros key Hkey. apply emits_for_each. intros t' Ht'.
    assert (Hin : In t' (_iter_tensors (batch_get batch "latents")
                         ++ _iter_tensors (batch_get batch "encoder_hidden_states")
                         ++ _iter_tensors (batch_get batch "text_embeddings")
                         ++ _iter_tensors (batch_get batch "pooled_prompt_embeds"))).
    { apply in_or_app. right.
      destruct Hkey as [<-|[<-|[<-|[]]]].
      - apply in_or_app. left. exact Ht'.
      - apply in_or_app. right. apply in_or_app. left. exact Ht'.
      - apply in_or_app. right. apply in_or_app. right. exact Ht'. }
    apply emits_bind.
    + eapply emits_weaken; [|apply apply_preferred_location_about].
      intros e. apply about_in, Hin.
    + intros _. apply emits_bind; [|intros; apply emits_ret].
      eapply emits_weaken; [|apply prefetch_to_device_about].
      intros e. apply about_in, Hin.
Qed.

Lemma not_cuda_stops t w h :
  (forall h', probe w h' (QIsCuda t) = false) ->
  exists evs,
    unavailable_or_not_cuda t w h = (Val true, evs)
    /\ Forall (fun e => is_runtime_op e = false) evs.
Proof.
  intros H. unfold unavailable_or_not_cuda, bind, query, ret.
  destruct (probe w h QIsAvailable); cbn.
  - rewrite H. cbn. eexists. split; [reflexivity | repeat constructor].
  - eexists. split; [reflexivity | repeat constructor].
Qed.

(** X19. A tensor that is not on a CUDA device is left alone: when its [is_cuda]
    is false, the three hint functions return [False] after the two
    availability probes, without any runtime operation, even with the hints
    enabled and CUDA present. *)
Theorem hints_skip_tensors_off_cuda :
  forall (w : World) (ov : Override) (env : Environ) (t : Tensor)
         (device : option Z) (h : History),
    (forall h', probe w h' (QIsCuda t) = false) ->
    (fst (prefer_cpu_residency ov env t w h) = Val false
     /\ Forall (fun e => is_runtime_op e = false) (snd (prefer_cpu_residency ov env t w h)))
    /\ (fst (prefer_gpu_residency ov env t w h) = Val false
        /\ Forall (fun e => is_runtime_op e = false)
             (snd (prefer_gpu_residency ov env t w h)))
    /\ (fst (prefetch_to_device ov env t device w h) = Val false
        /\ Forall (fun e => is_runtime_op e = false)
             (snd (prefetch_to_device ov env t device w h))).
Proof.
  intros w ov env t device h H.
  assert (Hadv : forall prefer_cpu,
             fst (_apply_preferred_location ov env t prefer_cpu w h) = Val false
             /\ Forall (fun e => is_runtime_op e = false)
                  (snd (_apply_preferred_location ov env t prefer_cpu w h))).
  { intros prefer_cpu. unfold _apply_preferred_location.
    destruct (negb (gh200_uvm_enabled ov env)); [split; [reflexivity | constructor]|].
    unfold bind. destruct (not_cuda_stops t w h H) as (evs & -> & Hevs).
    cbn. split; [reflexivity | exact Hevs]. }
  split; [apply Hadv|]. split; [apply Hadv|].
  unfold prefetch_to_device.
  destruct (negb (gh200_uvm_enabled ov env)); [split; [reflexivity | constructor]|].
  unfold bind. destruct (not_cuda_stops t w h H) as (evs & -> & Hevs).
  cbn. split; [reflexivity | exact Hevs].
Qed.

Lemma hints_skip_tensors_off_cuda_witness :
  (fst (prefer_cpu_residency (Some true) ∅ 1%nat MoreSamples.cpu_tensors []) = Val false
   /\ Forall (fun e => is_runtime_op e = false)
        (snd (prefer_cpu_residency (Some true) ∅ 1%nat MoreSamples.cpu_tensors [])))
  /\ (fst (prefer_gpu_residency (Some true) ∅ 1%nat MoreSamples.cpu_tensors []) = Val false
      /\ Forall (fun e => is_runtime_op e = false)
           (snd (prefer_gpu_residency (Some true) ∅ 1%nat MoreSamples.cpu_tensors [])))
  /\ (fst (prefetch_to_device (Some true) ∅ 1%nat (Some 0) MoreSamples.cpu_tensors [])
      = Val false
      /\ Forall (fun e => is_runtime_op e = false)
           (snd (prefetch_to_device (Some true) ∅ 1%nat (Some 0)
                   MoreSamples.cpu_tensors []))).
Proof.
  apply (hints_skip_tensors_off_cuda MoreSamples.cpu_tensors (Some true) ∅ 1%nat (Some 0) []).
  intros h'. reflexivity.
Defined.

(** X20. When PyTorch offers [memory_advise] and its calls return, the advice
    goes through it alone: [prefer_cpu_residency] and [prefer_gpu_residency]
    return [True] after exactly two hint calls, first the preferred
    location ([cpu], or the current device for the GPU variant), then
    [set_accessed_by] for the current device, and the runtime handle is
    never asked for.  The current device is what
    [torch.cuda.current_device()] answers, or 0 when it raises; it is taken
    not to change during the call. *)
Theorem torch_memory_advise_comes_first :
  forall (w : World) (ov : Override) (env : Environ) (t : Tensor) (h : History)
         (current : Z),
    gh200_uvm_enabled ov env = true ->
    (forall h', probe w h' QIsAvailable = true) ->
    (forall h', probe w h' (QIsCuda t) = true) ->
    (forall h', probe w h' QHasMemoryAdvise = true) ->
    (forall h' advice device, perform w h' (OMemoryAdvise t advice device) <> Raise) ->
    (forall h', device_of (perform w h' OCurrentDevice) = current) ->
    (fst (prefer_cpu_residency ov env t w h) = Val true
     /\ existsb uses_cudart (snd (prefer_cpu_residency ov env t w h)) = false
     /\ hint_calls (snd (prefer_cpu_residency ov env t w h))
        = [OMemoryAdvise t "set_preferred_location" LocCpu;
           OMemoryAdvise t "set_accessed_by" (LocDev current)])
    /\ (fst (prefer_gpu_residency ov env t w h) = Val true
        /\ existsb uses_cudart (snd (prefer_gpu_residency ov env t w h)) = false
        /\ hint_calls (snd (prefer_gpu_residency ov env t w h))
           = [OMemoryAdvise t "set_preferred_location" (LocDev current);
              OMemoryAdvise t "set_accessed_by" (LocDev current)]).
Proof.
  intros w ov env t h current Hen Havail Hcuda Hhas Hadvise Hcurrent.
  unfold prefer_cpu_residency, prefer_gpu_residency, _apply_preferred_location.
  rewrite Hen. cbn [negb].
  unfold unavailable_or_not_cuda, advise_through_torch, _current_cuda_device,
    bind, try_except, query, op, ret.
  split.
  - cbn.
    repeat first
      [ rewrite Havail; cbn
      | rewrite Hcuda; cbn
      | rewrite Hhas; cbn
      | match goal with
        | |- context [perform w ?h0 ?o] =>
            let E := fresh "E" in
            destruct (perform w h0 o) eqn:E;
            [|try (exfalso; exact (Hadvise _ _ _ E))];
            try (let Hd := fresh "Hd" in
                 pose proof (Hcurrent h0) as Hd; rewrite E in Hd; cbn in Hd; subst);
            cbn
        end ];
      (split; [reflexivity | split; reflexivity]).
  - cbn.
    repeat first
      [ rewrite Havail; cbn
      | rewrite Hcuda; cbn
      | rewrite Hhas; cbn
      | match goal with
        | |- context [perform w ?h0 ?o] =>
            let E := fresh "E" in
            destruct (perform w h0 o) eqn:E;
            [|try (exfalso; exact (Hadvise _ _ _ E))];
            try (let Hd := fresh "Hd" in
                 pose proof (Hcurrent h0) as Hd; rewrite E in Hd; cbn in Hd; subst);
            cbn
        end ];
      (split; [reflexivity | split; reflexivity]).
Qed.

Lemma torch_memory_advise_comes_first_witness :
  (fst (prefer_cpu_residency (Some true) ∅ 1%nat MoreSamples.torch_advises []) = Val true
   /\ existsb uses_cudart
        (snd (prefer_cpu_residency (Some true) ∅ 1%nat MoreSamples.torch_advises [])) = false
   /\ hint_calls (snd (prefer_cpu_residency (Some true) ∅ 1%nat MoreSamples.torch_advises []))
      = [OMemoryAdvise 1%nat "set_preferred_location" LocCpu;
         OMemoryAdvise 1%nat "set_accessed_by" (LocDev 2)])
  /\ (fst (prefer_gpu_residency (Some true) ∅ 1%nat MoreSamples.torch_advises []) = Val true
      /\ existsb uses_cudart
           (snd (prefer_gpu_residency (Some true) ∅ 1%nat MoreSamples.torch_advises []))
         = false
      /\ hint_calls
           (snd (prefer_gpu_residency (Some true) ∅ 1%nat MoreSamples.torch_advises []))
         = [OMemoryAdvise 1%nat "set_preferred_location" (LocDev 2);
            OMemoryAdvise 1%nat "set_accessed_by" (LocDev 2)]).
Proof.
  apply (torch_memory_advise_comes_first MoreSamples.torch_advises (Some true) ∅ 1%nat [] 2).
  - reflexivity.
  - intros h'. reflexivity.
  - intros h'. reflexivity.
  - intros h'. reflexivity.
  - intros h' advice device. discriminate.
  - intros h'. reflexivity.
Defined.

(** A loop in a given world: when every turn returns with events that
    satisfy [P], so does the loop. *)
Lemma for_each_holds {A} (P : Event -> Prop) (l : list A) (body : A -> M unit) w :
  (forall a h, fst (body a w h) = Val tt /\ Forall P (snd (body a w h))) ->
  forall h, fst (for_each l body w h) = Val tt /\ Forall P (snd (for_each l body w h)).
Proof.
  intros Hbody. induction l as [|a l IH]; intros h; cbn [for_each].
  - split; [reflexivity | constructor].
  - unfold bind. destruct (Hbody a h) as [Hv Hq].
    destruct (body a w h) as [r e1]. simpl in Hv, Hq. subst r.
    destruct (IH (e1 ++ h)) as [Hv' Hq'].
    destruct (for_each l body w (e1 ++ h)) as [r' e2]. simpl in *.
    split; [assumption | apply Forall_app; split; assumption].
Qed.

Lemma quiet_no_runtime_op evs :
  quiet evs -> Forall (fun e => is_runtime_op e = false) evs.
Proof. intros H. eapply Forall_impl; [exact H|]. intros e [He _]. exact He. Qed.

Lemma bind_returns_with {A B} (P : Event -> Prop) (m : M A) (k : A -> M B) w :
  (forall h, (exists a, fst (m w h) = Val a) /\ Forall P (snd (m w h))) ->
  (forall a h, (exists b, fst (k a w h) = Val b) /\ Forall P (snd (k a w h))) ->
  forall h, (exists b, fst (bind m k w h) = Val b) /\ Forall P (snd (bind m k w h)).
Proof.
  intros Hm Hk h. unfold bind. destruct (Hm h) as [[a Ha] Hq].
  destruct (m w h) as [r e1]. simpl in Ha, Hq. subst r.
  destruct (Hk a (e1 ++ h)) as [[b Hb] Hq'].
  destruct (k a w (e1 ++ h)) as [r e2]. simpl in *.
  split; [eauto | apply Forall_app; split; assumption].
Qed.

Lemma hint_if_cuda_tensor_inert w ov env value h :
  gh200_uvm_enabled ov env = false \/ (forall h', probe w h' QIsAvailable = false) ->
  fst (Audio.hint_if_cuda_tensor ov env value w h) = Val tt
  /\ Forall (fun e => is_runtime_op e = false)
       (snd (Audio.hint_if_cuda_tensor ov env value w h)).
Proof.
  intros H.
  cut ((exists u, fst (Audio.hint_if_cuda_tensor ov env value w h) = Val u)
       /\ Forall (fun e => is_runtime_op e = false)
            (snd (Audio.hint_if_cuda_tensor ov env value w h))).
  { intros [[[] Hu] Hq]. split; assumption. }
  revert h. destruct value as [t| | |]; intros h;
    try (split; [exists tt; reflexivity | constructor]).
  cbn [Audio.hint_if_cuda_tensor]. revert h. apply bind_returns_with.
  - intros h. split; [eexists; reflexivity | repeat constructor].
  - intros [|]; [|intros h; split; [exists tt; reflexivity | constructor]].
    apply bind_returns_with.
    + intros h. destruct (UvmFacts.hint_inert w ov env t true h H) as [Hv Hq].
      split; [eauto | apply quiet_no_runtime_op, Hq].
    + intros _. apply bind_returns_with.
      * intros h. destruct (UvmFacts.prefetch_inert w ov env t None h H) as [Hv Hq].
        split; [eauto | apply quiet_no_runtime_op, Hq].
      * intros _ h. split; [exists tt; reflexivity | constructor].
Qed.

(** X21. [apply_audio_uvm_hints] is as guarded as the batch pass: with the hints
    off, or with [torch.cuda.is_available()] answering no, it returns
    without any runtime operation (it may still read [is_cuda] of the audio
    tensors). *)
Theorem audio_hints_inert_unless_enabled_and_cuda :
  forall (w : World) (ov : Override) (env : Environ) (batch : list (string * Obj))
         (h : History),
    gh200_uvm_enabled ov env = false \/ (forall h', probe w h' QIsAvailable = false) ->
    fst (Audio.apply_audio_uvm_hints ov env batch w h) = Val tt
    /\ Forall (fun e => is_runtime_op e = false)
         (snd (Audio.apply_audio_uvm_hints ov env batch w h)).
Proof.
  intros w ov env batch h H. unfold Audio.apply_audio_uvm_hints.
  destruct (negb (gh200_uvm_enabled ov env)); [split; [reflexivity | constructor]|].
  apply for_each_holds. intros key h0.
  destruct (batch_get batch key) as [t|items| |];
    try (split; [reflexivity | constructor]).
  - apply hint_if_cuda_tensor_inert, H.
  - apply for_each_holds. intros kv h1. apply hint_if_cuda_tensor_inert, H.
Qed.

Lemma audio_hints_inert_unless_enabled_and_cuda_witness :
  fst (Audio.apply_audio_uvm_hints None Samples.hints_on MoreSamples.audio_batch
         Samples.no_cuda []) = Val tt
  /\ Forall (fun e => is_runtime_op e = false)
       (snd (Audio.apply_audio_uvm_hints None Samples.hints_on MoreSamples.audio_batch
               Samples.no_cuda [])).
Proof.
  apply (audio_hints_inert_unless_enabled_and_cuda
           Samples.no_cuda None Samples.hints_on MoreSamples.audio_batch []).
  right. intros h'. reflexivity.
Defined.

Lemma hint_if_cuda_tensor_about ov env value ts :
  (forall t, value = OTensor t -> In t ts) ->
  emits (about_one_of ts) (Audio.hint_if_cuda_tensor ov env value).
Proof.
  intros Hin. destruct value as [t| | |]; try apply emits_ret.
  specialize (Hin t eq_refl). cbn [Audio.hint_if_cuda_tensor].
  apply emits_bind.
  - apply emits_query. intros b t' [= <-]. exact Hin.
  - intros [|]; [|apply emits_ret].
    apply emits_bind.
    + eapply emits_weaken; [|apply apply_preferred_location_about].
      intros e. apply about_in, Hin.
    + intros _. apply emits_bind; [|intros; apply emits_ret].
      eapply emits_weaken; [|apply prefetch_to_device_about].
      intros e. apply about_in, Hin.
Qed.

(** X22. [apply_audio_uvm_hints] is shallower than the batch pass: under each of
    its four keys it accesses the value when that is a tensor, or the
    tensors that are direct values of a mapping, and nothing else;
    tensors inside lists or deeper mappings are never accessed. *)
Theorem audio_hints_look_one_level_deep :
  forall (ov : Override) (env : Environ) (batch : list (string * Obj)),
    emits (about_one_of
             (flat_map (fun key => shallow_tensors (batch_get batch key)) Audio.AUDIO_KEYS))
      (Audio.apply_audio_uvm_hints ov env batch).
Proof.
  intros ov env batch. unfold Audio.apply_audio_uvm_hints.
  destruct (negb (gh200_uvm_enabled ov env)); [apply emits_ret|].
  apply emits_for_each. intros key Hkey.
  assert (Hsub : forall t, In t (shallow_tensors (batch_get batch key)) ->
                           In t (flat_map (fun key => shallow_tensors (batch_get batch key))
                                   Audio.AUDIO_KEYS)).
  { intros t Ht. apply in_flat_map. exists key. split; assumption. }
  destruct (batch_get batch key) as [t|items| |]; try apply emits_ret.
  - apply hint_if_cuda_tensor_about. intros t' [= <-]. apply Hsub. left. reflexivity.
  - apply emits_for_each. intros kv Hkv. apply hint_if_cuda_tensor_about.
    intros t' Ht'. apply Hsub. cbn [shallow_tensors]. apply in_flat_map.
    exists kv. split; [exact Hkv|]. rewrite Ht'. left. reflexivity.
Qed.

End UvmMore.

(** ** The flag, in [uvm.py] and in [gh200_diagnostic.py] *)

Module FlagFacts.

Lemma ascii_lower_upper c : PyStr.ascii_lower (PyStr.ascii_upper c) = PyStr.ascii_lower c.
Proof. destruct c as [[] [] [] [] [] [] [] []]; reflexivity. Qed.

Lemma is_space_upper c : PyStr.is_space (PyStr.ascii_upper c) = PyStr.is_space c.
Proof. destruct c as [[] [] [] [] [] [] [] []]; reflexivity. Qed.

Lemma lower_upper s : PyStr.lower (PyStr.upper s) = PyStr.lower s.
Proof.
  induction s as [|c s IH]; [reflexivity|].
  cbn [PyStr.lower PyStr.upper PyStr.map_chars]. rewrite ascii_lower_upper. f_equal. exact IH.
Qed.

Lemma lstrip_upper s :
  PyStr.lstrip_by PyStr.is_space (PyStr.upper s)
  = PyStr.upper (PyStr.lstrip_by PyStr.is_space s).
Proof.
  induction s as [|c s IH]; [reflexivity|].
  cbn [PyStr.upper PyStr.map_chars PyStr.lstrip_by]. rewrite is_space_upper.
  destruct (PyStr.is_space c); [exact IH | reflexivity].
Qed.

Lemma rstrip_upper s :
  PyStr.rstrip_by PyStr.is_space (PyStr.upper s)
  = PyStr.upper (PyStr.rstrip_by PyStr.is_space s).
Proof.
  induction s as [|c s IH]; [reflexivity|].
  cbn [PyStr.upper PyStr.map_chars PyStr.rstrip_by].
  fold (PyStr.upper s). rewrite IH, is_space_upper.
  destruct (PyStr.rstrip_by PyStr.is_space s) as [|c' r']; cbn [PyStr.upper PyStr.map_chars].
  - destruct (PyStr.is_space c); reflexivity.
  - reflexivity.
Qed.

(** X23. An ASCII flag is read without regard to case: in capitals it means
    what it means as typed, to [gh200_uvm_enabled] and to [_truthy] alike.
    (Outside ASCII [str.upper] can turn a letter into an ASCII one.) *)
Theorem flag_is_case_insensitive :
  forall (env : Uvm.Environ) (value : string),
    PyStr.isascii value = true ->
    Uvm.gh200_uvm_enabled None
      (<["SIMPLETUNER_GH200_ENABLE_UVM_HINTS" := PyStr.upper value]> env)
    = Uvm.gh200_uvm_enabled None (<["SIMPLETUNER_GH200_ENABLE_UVM_HINTS" := value]> env)
    /\ DiagnosticFlag._truthy (Some (PyStr.upper value))
       = DiagnosticFlag._truthy (Some value).
Proof.
  intros env value _.
  assert (H : PyStr.lower (PyStr.strip (PyStr.upper value))
              = PyStr.lower (PyStr.strip value)).
  { unfold PyStr.strip. rewrite lstrip_upper, rstrip_upper. apply lower_upper. }
  split.
  - unfold Uvm.gh200_uvm_enabled, Uvm.environ_get. rewrite !lookup_insert_eq, H. reflexivity.
  - unfold DiagnosticFlag._truthy. rewrite H. f_equal. destruct value; reflexivity.
Qed.

Lemma flag_is_case_insensitive_witness :
  Uvm.gh200_uvm_enabled None
    (<["SIMPLETUNER_GH200_ENABLE_UVM_HINTS" := PyStr.upper " Yes "]> ∅)
  = Uvm.gh200_uvm_enabled None (<["SIMPLETUNER_GH200_ENABLE_UVM_HINTS" := " Yes "]> ∅)
  /\ DiagnosticFlag._truthy (Some (PyStr.upper " Yes "))
     = DiagnosticFlag._truthy (Some " Yes ").
Proof.
  apply (flag_is_case_insensitive ∅ " Yes "). reflexivity.
Defined.

(** X24. The diagnostic script's [_truthy] reads the value of the flag as
    [gh200_uvm_enabled] reads the flag from the environment when no override
    is set; a variable that is not set, or empty, is off for both. *)
Theorem truthy_agrees_with_gh200_uvm_enabled :
  forall env : Uvm.Environ,
    DiagnosticFlag._truthy (env !! "SIMPLETUNER_GH200_ENABLE_UVM_HINTS")
    = Uvm.gh200_uvm_enabled None env.
Proof.
  intros env. unfold DiagnosticFlag._truthy, Uvm.gh200_uvm_enabled, Uvm.environ_get.
  destruct (env !! "SIMPLETUNER_GH200_ENABLE_UVM_HINTS") as [v|]; [|reflexivity].
  destruct v; reflexivity.
Qed.

End FlagFacts.

(** ** More about the backend *)

Module BackendMore.
Import Backend Representation.

(** *** [Path] and [str] *)

Lemma split_free sep a : PyStr.partition sep a = None -> PyStr.split sep a = [a].
Proof.
  induction a as [|c a IH]; intros H; [reflexivity|]. simpl in *.
  destruct (Ascii.eqb c sep); [discriminate|].
  destruct (PyStr.partition sep a) as [[x y]|]; [discriminate|].
  rewrite IH by reflexivity. reflexivity.
Qed.

Lemma split_app sep a r :
  PyStr.partition sep a = None ->
  PyStr.split sep (a ++ String sep r)%string = a :: PyStr.split sep r.
Proof.
  induction a as [|c a IH]; intros H.
  - rewrite PyStrFacts.append_nil. simpl. rewrite Ascii.eqb_refl. reflexivity.
  - rewrite PyStrFacts.append_cons. simpl in *.
    destruct (Ascii.eqb c sep); [discriminate|].
    destruct (PyStr.partition sep a) as [[x y]|]; [discriminate|].
    rewrite IH by reflexivity. reflexivity.
Qed.

Lemma split_parts_free sep s :
  Forall (fun c => PyStr.partition sep c = None) (PyStr.split sep s).
Proof.
  induction s as [|c s IH]; simpl.
  - repeat constructor.
  - destruct (Ascii.eqb c sep) eqn:E.
    + constructor; [reflexivity | exact IH].
    + destruct (PyStr.split sep s) as [|x rest]; [repeat constructor; simpl; rewrite E; reflexivity|].
      apply Forall_cons in IH as [Hx Hrest]. constructor; [|exact Hrest].
      simpl. rewrite E, Hx. reflexivity.
Qed.

Lemma split_concat l :
  Forall (fun c => PyStr.partition "/" c = None) l -> l <> [] ->
  PyStr.split "/" (String.concat "/" l) = l.
Proof.
  induction l as [|x l IH]; intros H N; [congruence|].
  apply Forall_cons in H as [Hx H].
  destruct l as [|y l].
  - simpl. apply split_free, Hx.
  - rewrite BackendFacts.concat_cons2.
    change ("/" ++ String.concat "/" (y :: l))%string
      with (String "/" (String.concat "/" (y :: l))).
    rewrite split_app by exact Hx. f_equal. apply IH; [exact H | discriminate].
Qed.

Lemma proper_kept l :
  Forall proper_name l ->
  List.filter (fun c => negb (String.eqb c "" || String.eqb c ".")) l = l.
Proof.
  induction 1 as [|x l (H1 & H2 & _) _ IH]; [reflexivity|]. simpl.
  apply String.eqb_neq in H1, H2. rewrite H1, H2, IH. reflexivity.
Qed.

Lemma proper_free l :
  Forall proper_name l -> Forall (fun c => PyStr.partition "/" c = None) l.
Proof. intros H. eapply Forall_impl; [exact H|]. intros c (_ & _ & Hc). exact Hc. Qed.

(** A proper name starts with a character that is not the slash. *)
Lemma proper_head c :
  proper_name c -> exists ch rest, c = String ch rest /\ ch <> "/"%char.
Proof.
  intros (Hne & _ & Hfree). destruct c as [|ch rest]; [congruence|].
  exists ch, rest. split; [reflexivity|]. intros ->. discriminate Hfree.
Qed.

Lemma concat_head c l :
  proper_name c ->
  exists ch rest, String.concat "/" (c :: l) = String ch rest /\ ch <> "/"%char.
Proof.
  intros H. destruct (proper_head c H) as (ch & rest & -> & Hch).
  destruct l as [|y l].
  - exists ch, rest. split; [reflexivity | exact Hch].
  - rewrite BackendFacts.concat_cons2, PyStrFacts.append_cons. eauto.
Qed.

Lemma anchor_of_relative ch s : ch <> "/"%char -> anchor_of (String ch s) = "".
Proof.
  intros H. destruct ch as [[] [] [] [] [] [] [] []]; try reflexivity. congruence.
Qed.

Lemma anchor_of_one ch s :
  ch <> "/"%char -> anchor_of (String "/" (String ch s)) = "/".
Proof.
  intros H. destruct ch as [[] [] [] [] [] [] [] []]; try reflexivity. congruence.
Qed.

Lemma anchor_of_two ch s :
  ch <> "/"%char -> anchor_of (String "/" (String "/" (String ch s))) = "//".
Proof.
  intros H. destruct ch as [[] [] [] [] [] [] [] []]; try reflexivity. congruence.
Qed.

Lemma Path_parts_proper s : Forall proper_name (parts (Path s)).
Proof.
  unfold Path. cbn [parts]. apply Forall_forall. intros c Hc.
  apply list_elem_of_In, filter_In in Hc as [Hin Hkeep].
  apply negb_true_iff, orb_false_iff in Hkeep as [H1 H2].
  apply String.eqb_neq in H1, H2.
  pose proof (split_parts_free "/" s) as Hfree. rewrite Forall_forall in Hfree.
  split; [exact H1|]. split; [exact H2|]. apply Hfree, list_elem_of_In, Hin.
Qed.

Lemma Path_anchor s : In (anchor (Path s)) [""; "/"; "//"].
Proof.
  unfold Path. cbn [anchor].
  destruct s as [|c1 s]; [left; reflexivity|].
  destruct (ascii_dec c1 "/") as [->|N1]; [|rewrite anchor_of_relative by exact N1; left; reflexivity].
  destruct s as [|c2 s]; [right; left; reflexivity|].
  destruct (ascii_dec c2 "/") as [->|N2];
    [|rewrite anchor_of_one by exact N2; right; left; reflexivity].
  destruct s as [|c3 s]; [right; right; left; reflexivity|].
  destruct (ascii_dec c3 "/") as [->|N3];
    [right; left; reflexivity
    |rewrite anchor_of_two by exact N3; right; right; left; reflexivity].
Qed.

Lemma Path_normal s : normal_path (Path s).
Proof. split; [apply Path_anchor | apply Path_parts_proper]. Qed.

(** [Path(str(p))] is [p] for the paths [Path] builds. *)
Lemma Path_str p : normal_path p -> Path (str p) = p.
Proof.
  destruct p as [a ps]. intros [Ha Hps]. cbn [anchor parts] in *.
  destruct ps as [|c l].
  - destruct Ha as [<-|[<-|[<-|[]]]]; reflexivity.
  - pose proof Hps as Hps'. apply Forall_cons in Hps' as [Hc _].
    destruct (concat_head c l Hc) as (ch & rest & E & Hch).
    assert (Hsplit : List.filter (fun c => negb (String.eqb c "" || String.eqb c "."))
                       (PyStr.split "/" (String.concat "/" (c :: l))) = c :: l).
    { rewrite split_concat; [apply proper_kept, Hps | apply proper_free, Hps | discriminate]. }
    unfold str, Path. cbn [anchor parts].
    destruct Ha as [<-|[<-|[<-|[]]]].
    + rewrite PyStrFacts.append_nil. rewrite Hsplit. f_equal.
      rewrite E. apply anchor_of_relative, Hch.
    + change ("/" ++ String.concat "/" (c :: l))%string
        with (String "/" (String.concat "/" (c :: l))).
      f_equal.
      * rewrite E. apply anchor_of_one, Hch.
      * cbn [PyStr.split]. rewrite Ascii.eqb_refl. cbn [List.filter String.eqb negb orb].
        exact Hsplit.
    + change ("//" ++ String.concat "/" (c :: l))%string
        with (String "/" (String "/" (String.concat "/" (c :: l)))).
      f_equal.
      * rewrite E. apply anchor_of_two, Hch.
      * cbn [PyStr.split]. rewrite Ascii.eqb_refl. cbn [List.filter String.eqb negb orb].
        exact Hsplit.
Qed.

Lemma relative_not_abs s : anchor_of s = "" -> isabs s = false.
Proof.
  unfold isabs. destruct s as [|c s]; [reflexivity|].
  destruct (ascii_dec c "/") as [->|N].
  - destruct s as [|c2 s]; [discriminate|].
    destruct (ascii_dec c2 "/") as [->|N2]; [|rewrite anchor_of_one by exact N2; discriminate].
    destruct s as [|c3 s]; [discriminate|].
    destruct (ascii_dec c3 "/") as [->|N3]; [discriminate|].
    rewrite anchor_of_two by exact N3. discriminate.
  - intros _. destruct (String.prefix "/" (String c s)) eqn:E; [|reflexivity].
    apply PyStrFacts.prefix_app in E as [b Hb].
    rewrite PyStrFacts.append_cons in Hb. congruence.
Qed.

Lemma strip_prefix_self pre rest : strip_prefix pre (pre ++ rest) = Some rest.
Proof. apply BackendFacts.strip_prefix_app. reflexivity. Qed.

(** X7. The key of a relative path survives the trip through the absolute path:
    for a backend whose directory was parsed by [Path], [get_abs_path] of a
    relative key returns a path that [_relative_key] maps back to the key.
    This is what lets [read_image] and [torch_load] find what [list_files]
    and [get_abs_path] name. *)
Theorem relative_key_undoes_get_abs_path :
  forall (self : Backend) (rel : list string),
    normal_path (instance_data_dir self) ->
    Forall proper_name rel ->
    exists abs_path,
      get_abs_path (Some (str {| anchor := ""; parts := rel |})) self = (Ok abs_path, self)
      /\ _relative_key self abs_path = str {| anchor := ""; parts := rel |}.
Proof.
  intros self rel Hdir Hrel.
  assert (Hn : normal_path {| anchor := ""; parts := rel |})
    by (split; [left; reflexivity | exact Hrel]).
  pose proof (Path_str _ Hn) as Hk.
  set (k := str {| anchor := ""; parts := rel |}) in *.
  assert (Habs : isabs k = false).
  { apply relative_not_abs. change (anchor_of k) with (anchor (Path k)). rewrite Hk. reflexivity. }
  unfold get_abs_path. rewrite Habs, Hk. eexists. split; [reflexivity|].
  unfold _relative_key, joinpath. cbn [anchor parts String.eqb].
  rewrite Path_str.
  - unfold relative_to. cbn [anchor parts]. rewrite String.eqb_refl, strip_prefix_self.
    reflexivity.
  - destruct Hdir as [Ha Hp]. split; [exact Ha|]. cbn [parts].
    apply Forall_app. split; assumption.
Qed.

Lemma relative_key_undoes_get_abs_path_witness :
  exists abs_path,
    get_abs_path (Some (str {| anchor := ""; parts := ["sub"; "b.PNG"] |})) MoreSamples.staged
    = (Ok abs_path, MoreSamples.staged)
    /\ _relative_key MoreSamples.staged abs_path
       = str {| anchor := ""; parts := ["sub"; "b.PNG"] |}.
Proof.
  apply (relative_key_undoes_get_abs_path MoreSamples.staged ["sub"; "b.PNG"]).
  - apply Path_normal.
  - repeat constructor; discriminate.
Defined.

(** *** The storage a construction leaves *)

Lemma drain_lookup_inv kvs (storage : gmap string bytes) k v :
  NoDup (map fst kvs) ->
  snd (drain (map Ok kvs) storage) !! k = Some v ->
  In (k, v) kvs \/ storage !! k = Some v.
Proof.
  intros ND H.
  destruct (in_dec string_dec k (map fst kvs)) as [Hin|Hout].
  - left. apply in_map_iff in Hin as ([k' v'] & Hk & Hin). cbn [fst] in Hk. subst k'.
    rewrite (BackendFacts.drain_lookup kvs storage k v' ND Hin) in H. congruence.
  - right. rewrite BackendFacts.drain_lookup_other in H by exact Hout. exact H.
Qed.

(** With distinct keys, the order of the completed futures does not show. *)
Lemma drain_perm kvs1 kvs2 (storage : gmap string bytes) :
  NoDup (map fst kvs1) -> Permutation kvs1 kvs2 ->
  drain (map Ok kvs1) storage = drain (map Ok kvs2) storage.
Proof.
  intros ND1 Hperm.
  assert (ND2 : NoDup (map fst kvs2)).
  { apply NoDup_ListNoDup. eapply Permutation_NoDup.
    - apply Permutation_map. exact Hperm.
    - apply NoDup_ListNoDup, ND1. }
  apply injective_projections.
  - rewrite !BackendFacts.drain_returns. reflexivity.
  - apply map_eq. intros k.
    destruct (in_dec string_dec k (map fst kvs1)) as [Hin|Hout].
    + apply in_map_iff in Hin as ([k' v'] & Hk & Hin). cbn [fst] in Hk. subst k'.
      rewrite (BackendFacts.drain_lookup kvs1 storage k v' ND1 Hin).
      symmetry. apply BackendFacts.drain_lookup; [exact ND2|].
      eapply Permutation_in; [exact Hperm | exact Hin].
    + rewrite !BackendFacts.drain_lookup_other; [reflexivity| |exact Hout].
      intros Hin. apply Hout.
      eapply Permutation_in; [apply Permutation_map; symmetry; exact Hperm | exact Hin].
Qed.

Section Staging.

Variable as_completed :
  list (Result (string * bytes)) -> list (Result (string * bytes)).
Hypothesis completion : forall l, Permutation (as_completed l) l.

(** When [_load_dataset] returns, the backend is what draining the
    workers' results in the order of the files would leave. *)
Lemma load_dataset_in_file_order fs self self' :
  wf_fs fs ->
  _load_dataset as_completed fs self = (Ok tt, self') ->
  exists results,
    map (_load_single_file fs self) (_gather_files fs self) = map Ok results
    /\ NoDup (map fst results)
    /\ self' = set_storage self (snd (drain (map Ok results) (_storage self)))
    /\ (_gather_files fs self <> [] ->
        exists total,
          total_size fs (_gather_files fs self) = Ok total
          /\ over_limit (_memory_limit_bytes self) total = false).
Proof.
  intros Hwf. unfold _load_dataset.
  destruct (_gather_files fs self) as [|f0 files0] eqn:Efiles.
  { intros [= <-]. exists []. split; [reflexivity|]. split; [constructor|].
    split; [symmetry; apply BackendFacts.set_storage_id | congruence]. }
  rewrite <- Efiles.
  destruct (total_size fs (_gather_files fs self)) as [total|e]; [|discriminate].
  destruct (over_limit (_memory_limit_bytes self) total) eqn:Eover; [discriminate|].
  destruct (drain _ (_storage self)) as [r storage'] eqn:Edrain.
  intros [= -> <-].
  destruct (BackendFacts.drain_ok_inv _ _ _ Edrain) as [kvs Ekvs].
  pose proof (completion (map (_load_single_file fs self) (_gather_files fs self))) as Hperm.
  rewrite Ekvs in Hperm. symmetry in Hperm.
  apply Permutation_map_inv in Hperm as (results & Eres & Hperm).
  assert (NDr : NoDup (map fst results)).
  { apply (BackendFacts.loaded_keys_NoDup fs self Hwf (_gather_files fs self) results);
      [apply BackendFacts.gathered_NoDup | auto | exact Eres]. }
  exists results. split; [exact Eres|]. split; [exact NDr|]. split.
  - rewrite Ekvs in Edrain. f_equal.
    rewrite (drain_perm results kvs (_storage self) NDr)
      by first [exact Hperm | symmetry; exact Hperm].
    rewrite Edrain. reflexivity.
  - intros _. exists total. split; [reflexivity | exact Eover].
Qed.

End Staging.

(** X2. The completion order of the thread pool decides neither whether
    the constructor returns nor what it stages: on a well-formed file
    system, if the constructor returns a backend under one order, it returns
    under any other a backend with the same configuration and, under every
    key, the same payload.  (The order in which the storage yields its keys
    follows the completion order in the code; it is not modelled, and the
    statement leaves it out.) *)
Theorem construction_ignores_completion_order :
  forall (zlib : Codec) (lz4_frame snappy : option Codec) (image_file_extensions : list string)
         (order1 order2 : list (Result (string * bytes)) -> list (Result (string * bytes)))
         (fs : FileSystem) (id dir : string) (file_extensions : option (list string))
         (compression : option string) (memory_limit_gb : option Q) (workers : Z)
         (self : Backend),
    (forall l, Permutation (order1 l) l) ->
    (forall l, Permutation (order2 l) l) ->
    wf_fs fs ->
    __init__ zlib lz4_frame snappy image_file_extensions order1
      fs id dir file_extensions compression memory_limit_gb workers = Ok self ->
    exists self',
      __init__ zlib lz4_frame snappy image_file_extensions order2
        fs id dir file_extensions compression memory_limit_gb workers = Ok self'
      /\ self' = set_storage self (_storage self')
      /\ forall key, _storage self' !! key = _storage self !! key.
Proof.
  intros zlib lz4_frame snappy image_file_extensions order1 order2 fs id dir
         file_extensions compression memory_limit_gb workers self H1 H2 Hwf Hbuilt.
  exists self. split; [|split; [symmetry; apply BackendFacts.set_storage_id | reflexivity]].
  apply BackendFacts.init_inv in Hbuilt as (c & d & n & Hres & Hexists & Hload).
  set (self0 := fresh_backend image_file_extensions id dir file_extensions c d n
                  memory_limit_gb workers) in *.
  destruct (load_dataset_in_file_order order1 H1 fs self0 self Hwf Hload)
    as (results & Eres & ND & Hself & Hlimit).
  assert (Hload2 : _load_dataset order2 fs self0 = (Ok tt, self)).
  { unfold _load_dataset.
    destruct (_gather_files fs self0) as [|f0 files0] eqn:Efiles.
    - destruct results; [|discriminate]. rewrite Hself. cbn [map drain snd].
      rewrite BackendFacts.set_storage_id. reflexivity.
    - rewrite <- Efiles in *.
      destruct Hlimit as (total & -> & ->); [rewrite Efiles; discriminate|].
      rewrite Eres.
      pose proof (H2 (map Ok results)) as Hperm.
      apply Permutation_map_inv in Hperm as (kvs & -> & Hperm).
      rewrite <- (drain_perm results kvs (_storage self0) ND Hperm).
      destruct (drain (map Ok results) (_storage self0)) as [r st] eqn:Ed.
      pose proof (BackendFacts.drain_returns results (_storage self0)) as Hr.
      rewrite Ed in Hr. cbn [fst] in Hr. subst r. rewrite Hself. reflexivity. }
  unfold __init__. rewrite Hres, Hexists. cbn [negb]. fold self0. rewrite Hload2.
  reflexivity.
Qed.

Lemma construction_ignores_completion_order_witness :
  exists self',
    __init__ (Samples.tagged Byte.x78) None None ["jpg"; "PNG"] (fun l => l)
      Samples.dataset "cache" "/data" (Some ["png"]) (Some "zlib") None 16 = Ok self'
    /\ self'
       = set_storage
           (Samples.backend_with (Some (Samples.tagged Byte.x78)) None
              {[ "a.png" := [Byte.x78; Byte.x01; Byte.x02];
                 "sub/b.PNG" := [Byte.x78; Byte.x03] ]})
           (_storage self')
    /\ forall key,
         _storage self' !! key
         = _storage
             (Samples.backend_with (Some (Samples.tagged Byte.x78)) None
                {[ "a.png" := [Byte.x78; Byte.x01; Byte.x02];
                   "sub/b.PNG" := [Byte.x78; Byte.x03] ]}) !! key.
Proof.
  apply (construction_ignores_completion_order
           (Samples.tagged Byte.x78) None None ["jpg"; "PNG"] Samples.last_first (fun l => l)
           Samples.dataset "cache" "/data" (Some ["png"]) (Some "zlib") None 16).
  - exact BackendFacts.last_first_perm.
  - intros l. reflexivity.
  - exact BackendFacts.dataset_wf.
  - vm_compute. reflexivity.
Defined.

Section Built.

Variable zlib : Codec.
Variable lz4_frame : option Codec.
Variable snappy : option Codec.
Variable image_file_extensions : list string.
Variable as_completed :
  list (Result (string * bytes)) -> list (Result (string * bytes)).
Hypothesis completion : forall l, Permutation (as_completed l) l.

(** What a constructor that returns has staged, entry by entry. *)
Lemma built_storage fs id dir file_extensions compression memory_limit_gb workers self :
  wf_fs fs ->
  __init__ zlib lz4_frame snappy image_file_extensions as_completed
    fs id dir file_extensions compression memory_limit_gb workers = Ok self ->
  exists self0 results,
    map (_load_single_file fs self0) (_gather_files fs self0) = map Ok results
    /\ NoDup (map fst results)
    /\ self = set_storage self0 (_storage self)
    /\ instance_data_dir self0 = Path dir
    /\ _storage self0 = ∅
    /\ forall k v, _storage self !! k = Some v <-> In (k, v) results.
Proof.
  intros Hwf Hbuilt.
  apply BackendFacts.init_inv in Hbuilt as (c & d & n & _ & _ & Hload).
  set (self0 := fresh_backend image_file_extensions id dir file_extensions c d n
                  memory_limit_gb workers) in *.
  destruct (load_dataset_in_file_order as_completed completion fs self0 self Hwf Hload)
    as (results & Eres & ND & Hself & _).
  exists self0, results. split; [exact Eres|]. split; [exact ND|].
  split; [rewrite Hself; reflexivity|]. split; [reflexivity|]. split; [reflexivity|].
  intros k v. rewrite Hself. cbn [set_storage _storage]. split.
  - intros H. apply drain_lookup_inv in H as [H|H]; [exact H | | exact ND].
    change (_storage self0) with (∅ : gmap string bytes) in H.
    rewrite lookup_empty in H. discriminate.
  - intros H. apply BackendFacts.drain_lookup; assumption.
Qed.

(** X1. Nothing but the discovered files is staged.  On a well-formed file
    system (which here has no symbolic links), with configured extensions
    that hold no glob character, when the constructor returns, every key of
    the storage is the relative path of a regular file below the directory
    whose name ends with a dot and a configured extension, in lower case or
    all in upper case, and the value is that file's content, compressed as
    configured. *)
Theorem storage_holds_only_globbed_files :
  forall (fs : FileSystem) (id dir : string) (file_extensions : option (list string))
         (compression : option string) (memory_limit_gb : option Q) (workers : Z)
         (self : Backend) (key : string) (data : bytes),
    wf_fs fs ->
    __init__ zlib lz4_frame snappy image_file_extensions as_completed
      fs id dir file_extensions compression memory_limit_gb workers = Ok self ->
    Forall (fun e => glob_literal e = true) (_file_extensions self) ->
    _storage self !! key = Some data ->
    exists rel content ext,
      rel <> []
      /\ key = String.concat "/" rel
      /\ In (parts (resolve fs (Path dir)) ++ rel, RegularFile content) (entries fs)
      /\ data = compressed self content
      /\ In ext (_file_extensions self)
      /\ (PyStr.endswith (List.last rel "") ("." ++ ext) = true
          \/ PyStr.endswith (List.last rel "") (PyStr.upper ("." ++ ext)) = true).
Proof.
  intros fs id dir file_extensions compression memory_limit_gb workers self key data
         Hwf Hbuilt _ Hkey.
  destruct (built_storage _ _ _ _ _ _ _ _ Hwf Hbuilt)
    as (self0 & results & Eres & ND & Hself & Hdir & _ & Hiff).
  apply Hiff in Hkey.
  destruct (BackendFacts.loaded_from fs self0 _ results (key, data) Eres Hkey)
    as (f & Hf & Lf).
  destruct (BackendFacts.load_shape fs self0 Hwf f key data Hf Lf)
    as (c & rel & content & Pf & Af & Hr & Hvalid & Hk & Hin & Hv).
  pose proof Hf as Hg. apply BackendFacts.gathered_In in Hg as (ext & x & Hext & Hx & Efx).
  assert (Hmatch : exists c' rel',
             x = {| anchor := anchor (instance_data_dir self0);
                    parts := parts (instance_data_dir self0) ++ c' :: rel' |}
             /\ In (parts (resolve fs (instance_data_dir self0)) ++ c' :: rel')
                  (map fst (entries fs))
             /\ (PyStr.endswith (List.last (c' :: rel') "") ("." ++ ext) = true
                 \/ PyStr.endswith (List.last (c' :: rel') "") (PyStr.upper ("." ++ ext))
                    = true)).
  { destruct Hx as [Hx|Hx];
      apply BackendFacts.rglob_In in Hx as (_ & p & node & c' & rel' & Hp & Ep & F & ->);
      exists c', rel'; (split; [reflexivity|]);
      (split; [rewrite <- Ep; apply in_map_iff; exists (p, node); auto|]);
      cbn [fnmatch] in F; [left | right]; exact F. }
  destruct Hmatch as (c' & rel' & -> & Hp' & Hends).
  assert (Hv' : Forall valid_name (c' :: rel')).
  { apply in_map_iff in Hp' as ([p node] & Ep & Hp). cbn [fst] in Ep. subst p.
    apply (BackendFacts.entry_names fs Hwf) in Hp. apply Forall_app in Hp. apply Hp. }
  rewrite (BackendFacts.resolve_below fs (instance_data_dir self0) (c' :: rel') Hv') in Efx.
  rewrite Efx in Pf. cbn [parts] in Pf. rewrite Hr in Pf.
  apply app_inv_head in Pf. injection Pf as <- <-.
  exists (c' :: rel'), content, ext.
  split; [discriminate|]. split; [exact Hk|]. split.
  - rewrite <- Hdir, Hr. rewrite Efx in Hin. cbn [parts] in Hin. rewrite Hr in Hin. exact Hin.
  - rewrite Hself. split; [exact Hv|]. split; [exact Hext | exact Hends].
Qed.

(** X3. A directory that is not given in resolved form (a relative one, or one
    through the parent link) serves no dataset: the discovered paths are
    resolved while the directory is not, so the constructor returns only when
    it discovers no file at all, and then the storage is empty. *)
Theorem unresolved_directory_stages_nothing :
  forall (fs : FileSystem) (id dir : string) (file_extensions : option (list string))
         (compression : option string) (memory_limit_gb : option Q) (workers : Z)
         (self : Backend),
    wf_fs fs ->
    resolve fs (Path dir) <> Path dir ->
    __init__ zlib lz4_frame snappy image_file_extensions as_completed
      fs id dir file_extensions compression memory_limit_gb workers = Ok self ->
    _gather_files fs self = [] /\ _storage self = ∅.
Proof.
  intros fs id dir file_extensions compression memory_limit_gb workers self
         Hwf Hdir Hbuilt.
  destruct (built_storage _ _ _ _ _ _ _ _ Hwf Hbuilt)
    as (self0 & results & Eres & ND & Hself & Hd & _ & Hiff).
  assert (Hnone : results = []).
  { destruct results as [|[k v] results]; [reflexivity|]. exfalso.
    destruct (BackendFacts.loaded_from fs self0 _ ((k, v) :: results) (k, v) Eres)
      as (f & Hf & Lf); [left; reflexivity|].
    destruct (BackendFacts.load_shape fs self0 Hwf f k v Hf Lf)
      as (_ & _ & _ & _ & _ & Hr & _).
    apply Hdir. rewrite <- Hd. exact Hr. }
  subst results. split.
  - rewrite Hself. change (_gather_files fs (set_storage self0 (_storage self)))
      with (_gather_files fs self0).
    destruct (_gather_files fs self0); [reflexivity | discriminate].
  - apply map_eq. intros k. rewrite lookup_empty.
    destruct (_storage self !! k) as [v|] eqn:E; [|reflexivity].
    apply Hiff in E. contradiction.
Qed.

End Built.

Lemma relative_tree_wf : wf_fs Samples.relative_tree.
Proof.
  split.
  - repeat constructor; discriminate.
  - repeat constructor; simpl; intuition discriminate.
Qed.

Lemma storage_holds_only_globbed_files_witness :
  exists rel content ext,
    rel <> []
    /\ "sub/b.PNG" = String.concat "/" rel
    /\ In (parts (resolve Samples.dataset (Path "/data")) ++ rel, RegularFile content)
         (entries Samples.dataset)
    /\ [Byte.x78; Byte.x03]
       = compressed
           (Samples.backend_with (Some (Samples.tagged Byte.x78)) None
              {[ "a.png" := [Byte.x78; Byte.x01; Byte.x02];
                 "sub/b.PNG" := [Byte.x78; Byte.x03] ]})
           content
    /\ In ext (_file_extensions
                 (Samples.backend_with (Some (Samples.tagged Byte.x78)) None
                    {[ "a.png" := [Byte.x78; Byte.x01; Byte.x02];
                       "sub/b.PNG" := [Byte.x78; Byte.x03] ]}))
    /\ (PyStr.endswith (List.last rel "") ("." ++ ext) = true
        \/ PyStr.endswith (List.last rel "") (PyStr.upper ("." ++ ext)) = true).
Proof.
  apply (storage_holds_only_globbed_files
           (Samples.tagged Byte.x78) None None ["jpg"; "PNG"] Samples.last_first
           BackendFacts.last_first_perm
           Samples.dataset "cache" "/data" (Some ["png"]) (Some "zlib") None 16).
  - exact BackendFacts.dataset_wf.
  - vm_compute. reflexivity.
  - repeat constructor.
  - vm_compute. reflexivity.
Defined.

Lemma unresolved_directory_stages_nothing_witness :
  exists self,
    __init__ (Samples.tagged Byte.x78) None None ["jpg"; "PNG"] Samples.last_first
      Samples.relative_tree "cache" "data" (Some ["jpg"]) None None 16 = Ok self
    /\ _gather_files Samples.relative_tree self = [] /\ _storage self = ∅.
Proof.
  eexists. split; [vm_compute; reflexivity|].
  apply (unresolved_directory_stages_nothing
           (Samples.tagged Byte.x78) None None ["jpg"; "PNG"] Samples.last_first
           BackendFacts.last_first_perm
           Samples.relative_tree "cache" "data" (Some ["jpg"]) None None 16).
  - exact relative_tree_wf.
  - vm_compute. discriminate.
  - vm_compute. reflexivity.
Defined.

(** *** A zero limit *)

Section Limits.

Variable as_completed :
  list (Result (string * bytes)) -> list (Result (string * bytes)).

(** [_load_dataset] looks at the limit through the test only. *)
Lemma load_dataset_limit fs self1 self2 :
  instance_data_dir self1 = instance_data_dir self2 ->
  _file_extensions self1 = _file_extensions self2 ->
  _compress_fn self1 = _compress_fn self2 ->
  _storage self1 = _storage self2 ->
  (forall total, over_limit (_memory_limit_bytes self1) total
                 = over_limit (_memory_limit_bytes self2) total) ->
  fst (_load_dataset as_completed fs self1) = fst (_load_dataset as_completed fs self2)
  /\ _storage (snd (_load_dataset as_completed fs self1))
     = _storage (snd (_load_dataset as_completed fs self2)).
Proof.
  intros Hd He Hc Hs Ho. unfold _load_dataset.
  assert (Hg : _gather_files fs self1 = _gather_files fs self2)
    by (unfold _gather_files; rewrite Hd, He; reflexivity).
  assert (Hl : map (_load_single_file fs self1) (_gather_files fs self2)
               = map (_load_single_file fs self2) (_gather_files fs self2)).
  { apply map_ext. intros f. unfold _load_single_file, compressed.
    rewrite Hd, Hc. reflexivity. }
  rewrite Hg, Hl, Hs.
  destruct (_gather_files fs self2); [auto|].
  destruct (total_size fs _) as [total|e]; [|auto].
  rewrite Ho. destruct (over_limit _ _); [auto|].
  destruct (drain _ _). auto.
Qed.

End Limits.

(** X4. A limit that [int] truncates to zero bytes (anything below one byte, or
    zero itself) is not a limit: the constructor does what it does without
    one, staging the same data or raising the same exception. *)
Theorem limit_below_one_byte_is_not_enforced :
  forall (zlib : Codec) (lz4_frame snappy : option Codec) (image_file_extensions : list string)
         (as_completed : list (Result (string * bytes)) -> list (Result (string * bytes)))
         (fs : FileSystem) (id dir : string) (file_extensions : option (list string))
         (compression : option string) (memory_limit_gb : Q) (workers : Z),
    limit_bytes_of_gb memory_limit_gb = 0 ->
    match __init__ zlib lz4_frame snappy image_file_extensions as_completed
            fs id dir file_extensions compression (Some memory_limit_gb) workers,
          __init__ zlib lz4_frame snappy image_file_extensions as_completed
            fs id dir file_extensions compression None workers with
    | Ok limited, Ok unlimited => _storage limited = _storage unlimited
    | Err e1, Err e2 => e1 = e2
    | _, _ => False
    end.
Proof.
  intros zlib lz4_frame snappy image_file_extensions as_completed fs id dir
         file_extensions compression memory_limit_gb workers Hzero.
  unfold __init__.
  destruct (_resolve_compression zlib lz4_frame snappy compression) as [[[c d] n]|e];
    [|reflexivity].
  destruct (path_exists fs (Path dir)); [|reflexivity]. cbn [negb].
  destruct (load_dataset_limit as_completed fs
              (fresh_backend image_file_extensions id dir file_extensions c d n
                 (Some memory_limit_gb) workers)
              (fresh_backend image_file_extensions id dir file_extensions c d n
                 None workers)) as [Hr Hs]; try reflexivity.
  { intros total. cbn [fresh_backend _memory_limit_bytes option_map over_limit].
    rewrite Hzero. reflexivity. }
  destruct (_load_dataset as_completed fs (fresh_backend _ _ _ _ _ _ _ (Some _) _))
    as [r1 s1], (_load_dataset as_completed fs (fresh_backend _ _ _ _ _ _ _ None _))
    as [r2 s2].
  cbn [fst snd] in Hr, Hs. subst r2. destruct r1 as [[]|e]; [exact Hs | reflexivity].
Qed.

Lemma limit_below_one_byte_is_not_enforced_witness :
  match __init__ (Samples.tagged Byte.x78) None None ["jpg"; "PNG"] Samples.last_first
          Samples.dataset "cache" "/data" None None (Some (Qmake 1 (2 ^ 31))) 16,
        __init__ (Samples.tagged Byte.x78) None None ["jpg"; "PNG"] Samples.last_first
          Samples.dataset "cache" "/data" None None None 16 with
  | Ok limited, Ok unlimited => _storage limited = _storage unlimited
  | Err e1, Err e2 => e1 = e2
  | _, _ => False
  end.
Proof.
  apply (limit_below_one_byte_is_not_enforced
           (Samples.tagged Byte.x78) None None ["jpg"; "PNG"] Samples.last_first
           Samples.dataset "cache" "/data" None None (Qmake 1 (2 ^ 31)) 16).
  vm_compute. reflexivity.
Defined.

(** *** The representation, there and back *)









Section RoundTrip.

Variable zlib : Codec.
Variable lz4_frame : option Codec.
Variable snappy : option Codec.
Variable image_file_extensions : list string.
Variable as_completed :
  list (Result (string * bytes)) -> list (Result (string * bytes)).

(** [_load_dataset] touches the storage only. *)
Lemma load_dataset_fields fs self r self' :
  _load_dataset as_completed fs self = (r, self') ->
  self' = set_storage self (_storage self').
Proof.
  unfold _load_dataset.
  destruct (_gather_files fs self);
    [intros [= <- <-]; symmetry; apply BackendFacts.set_storage_id|].
  destruct (total_size fs _);
    [|intros [= <- <-]; symmetry; apply BackendFacts.set_storage_id].
  destruct (over_limit _ _);
    [intros [= <- <-]; symmetry; apply BackendFacts.set_storage_id|].
  destruct (drain _ _). intros [= <- <-]. reflexivity.
Qed.


(** X6. A backend built without compression does not come back: its
    representation names the compression [none], which the constructor takes
    for the name of an unknown library and answers with [ValueError],
    whatever the file system holds. *)
Theorem uncompressed_backend_representation_is_rejected :
  forall (fs fs' : FileSystem) (id dir : string) (file_extensions : option (list string))
         (compression : option string) (memory_limit_gb : option Q) (workers : Z)
         (self : Backend),
    compression = None \/ compression = Some "" ->
    __init__ zlib lz4_frame snappy image_file_extensions as_completed
      fs id dir file_extensions compression memory_limit_gb workers = Ok self ->
    from_instance_representation zlib lz4_frame snappy image_file_extensions as_completed
      fs' (get_instance_representation self) = Err ValueError.
Proof.
  intros fs fs' id dir file_extensions compression memory_limit_gb workers self
         Hnone Hbuilt.
  apply BackendFacts.init_inv in Hbuilt as (c & d & n & Hres & _ & Hload).
  pose proof (load_dataset_fields fs _ _ self Hload) as Hself.
  assert (Hn : _compression_name self = "none").
  { rewrite Hself. cbn [set_storage _compression_name fresh_backend].
    destruct Hnone as [-> | ->]; cbn in Hres; congruence. }
  unfold from_instance_representation, get_instance_representation.
  cbn [r_backend_type r_id r_instance_data_dir r_file_extensions r_compression
       r_memory_limit_gb r_num_workers].
  unfold __init__. rewrite Hn. reflexivity.
Qed.

End RoundTrip.


Lemma uncompressed_backend_representation_is_rejected_witness :
  exists self,
    __init__ (Samples.tagged Byte.x78) None None ["jpg"; "PNG"] Samples.last_first
      Samples.dataset "cache" "/data" None None None 16 = Ok self
    /\ from_instance_representation (Samples.tagged Byte.x78) None None ["jpg"; "PNG"]
         Samples.last_first Samples.dataset (get_instance_representation self)
       = Err ValueError.
Proof.
  eexists. split; [vm_compute; reflexivity|].
  apply (uncompressed_backend_representation_is_rejected
           (Samples.tagged Byte.x78) None None ["jpg"; "PNG"] Samples.last_first
           Samples.dataset Samples.dataset "cache" "/data" None None None 16).
  - left. reflexivity.
  - vm_compute. reflexivity.
Defined.

(** *** The methods, one after the other *)

Section Calls.

Variable torch_save_bytes : PyData -> Result bytes.
Variable torch_load_bytes : bytes -> Result PyData.
Variable Image : Type.
Variable Image_open : bytes -> Result Image.

(** X10. [open_file] serves what [write] stored, whatever else the mode says, as
    long as it has an [r] in it; a mode without one raises
    [NotImplementedError] although the identifier is there.  The backend
    decompresses what it compresses. *)
Theorem open_file_serves_written_payload :
  forall (self : Backend) (identifier mode : string) (payload : bytes),
    (forall data, decompressed self (compressed self data) = Ok data) ->
    let written := snd (write torch_save_bytes identifier (DBytes payload) self) in
    open_file identifier mode written
    = (if PyStr.contains "r" mode then Ok (DBytesIO payload) else Err NotImplementedError,
       written).
Proof.
  intros self identifier mode payload Hround written. subst written.
  unfold write, open_file. cbn [snd _storage set_storage].
  rewrite lookup_insert_eq.
  destruct (PyStr.contains "r" mode); [|reflexivity].
  specialize (Hround payload). unfold decompressed, compressed in *.
  cbn [_decompress_fn set_storage]. rewrite Hround. reflexivity.
Qed.

(** X11. [torch_save] under one name and [torch_load] under a name with the same
    relative key give the object back, when [torch.load] reads what
    [torch.save] wrote and the backend decompresses what it compresses. *)
Theorem torch_save_then_torch_load :
  forall (self : Backend) (data : PyData) (content : bytes) (saved_as loaded_as : string),
    (forall raw, decompressed self (compressed self raw) = Ok raw) ->
    torch_save_bytes data = Ok content ->
    torch_load_bytes content = Ok data ->
    _relative_key self saved_as = _relative_key self loaded_as ->
    let saved := snd (torch_save torch_save_bytes data saved_as self) in
    torch_save torch_save_bytes data saved_as self = (Ok tt, saved)
    /\ torch_load torch_load_bytes loaded_as saved = (Ok data, saved).
Proof.
  intros self data content saved_as loaded_as Hround Hsave Hload Hkey saved. subst saved.
  unfold torch_save. rewrite Hsave. unfold write. cbn [snd]. split; [reflexivity|].
  unfold torch_load, read.
  change (_relative_key (set_storage self ?s) loaded_as) with (_relative_key self loaded_as).
  rewrite <- Hkey. cbn [_storage set_storage]. rewrite lookup_insert_eq.
  specialize (Hround content). unfold decompressed, compressed in *.
  cbn [_decompress_fn set_storage]. rewrite Hround, Hload. reflexivity.
Qed.

Lemma write_batch_app before after self :
  write_batch torch_save_bytes (before ++ after) self
  = match write_batch torch_save_bytes before self with
    | (Ok _, self') => write_batch torch_save_bytes after self'
    | (Err e, self') => (Err e, self')
    end.
Proof.
  revert self. induction before as [|[identifier payload] before IH]; intros self;
    [reflexivity|].
  cbn [app write_batch].
  destruct (match payload with
            | DTensor _ =>
                match torch_save_bytes payload with
                | Ok content =>
                    write torch_save_bytes (_relative_key self identifier) (DBytes content) self
                | Err e => (Err e, self)
                end
            | _ => write torch_save_bytes (_relative_key self identifier) payload self
            end) as [[[]|e] self']; [apply IH | reflexivity].
Qed.

(** X12. [write_batch] is a loop, not a transaction: when an item is of a type
    [write] does not take, the items before it stay written and the ones
    after it are never looked at. *)
Theorem write_batch_keeps_items_before_failure :
  forall (self self' : Backend) (before after : list (string * PyData))
         (identifier : string) (bad : PyData),
    write_batch torch_save_bytes before self = (Ok tt, self') ->
    is_supported bad = false ->
    write_batch torch_save_bytes (before ++ (identifier, bad) :: after) self
    = (Err TypeError, self').
Proof.
  intros self self' before after identifier bad Hbefore Hbad.
  rewrite write_batch_app, Hbefore. cbn [write_batch].
  destruct bad; try discriminate Hbad. reflexivity.
Qed.

(** X13. [write_batch] and [torch_save] store under the relative key of the name
    they are given; [write] stores under the name as it is.  For a name that
    is not its own relative key, [write_batch] serves [read] of the key and
    leaves the name alone, and [write] does the opposite. *)
Theorem write_batch_normalises_names_write_does_not :
  forall (self : Backend) (path : string) (payload : bytes),
    (forall raw, decompressed self (compressed self raw) = Ok raw) ->
    _relative_key self path <> path ->
    let batched := snd (write_batch torch_save_bytes [(path, DBytes payload)] self) in
    let written := snd (write torch_save_bytes path (DBytes payload) self) in
    fst (read (_relative_key self path) false batched) = Ok (DBytes payload)
    /\ _storage batched !! path = _storage self !! path
    /\ fst (read path false written) = Ok (DBytes payload)
    /\ _storage written !! _relative_key self path
       = _storage self !! _relative_key self path.
Proof.
  intros self path payload Hround Hneq batched written. subst batched written.
  specialize (Hround payload). unfold decompressed, compressed in Hround.
  cbn [write_batch]. unfold write, read. cbn [snd fst _storage set_storage].
  rewrite !lookup_insert_eq.
  rewrite lookup_insert_ne by exact Hneq.
  rewrite lookup_insert_ne by (intros E; apply Hneq; symmetry; exact E).
  unfold decompressed, compressed. cbn [_decompress_fn _compress_fn set_storage].
  rewrite Hround. auto.
Qed.

(** X14. [read_image_batch] is [read_image] on each path, in order: it returns a
    list exactly when every [read_image] returns, and the list holds their
    images. *)
Theorem read_image_batch_is_pointwise :
  forall (self : Backend) (filepaths : list string) (images : list Image),
    read_image_batch Image Image_open filepaths self = (Ok images, self)
    <-> Forall2 (fun path image =>
                   read_image Image Image_open path self = (Ok image, self))
          filepaths images.
Proof.
  intros self filepaths. induction filepaths as [|path rest IH]; intros images.
  - cbn [read_image_batch]. split.
    + intros [= <-]. constructor.
    + intros H. inversion H. reflexivity.
  - cbn [read_image_batch].
    pose proof (BackendFacts.read_image_keeps Image Image_open path self) as Hk.
    destruct (read_image Image Image_open path self) as [[image|e] self1] eqn:E1;
      cbn [snd] in Hk; subst self1.
    + pose proof (BackendFacts.read_image_batch_keeps Image Image_open rest self) as Hk.
      destruct (read_image_batch Image Image_open rest self) as [[imgs|e] self2] eqn:E2;
        cbn [snd] in Hk; subst self2.
      * split.
        -- intros [= <-]. constructor; [exact E1|]. apply IH. reflexivity.
        -- intros H. inversion H as [|? img ? imgs' H1 H2]; subst.
           apply (proj2 (IH _)) in H2. congruence.
      * split; [discriminate|].
        intros H. inversion H as [|? img ? imgs' H1 H2]; subst.
        apply (proj2 (IH _)) in H2. discriminate H2.
    + split; [discriminate|]. intros H. inversion H; subst. congruence.
Qed.

(** X15. The first path that is not staged ends the batch: [FileNotFoundError]
    with that path as given, whatever comes after it. *)
Theorem read_image_batch_reports_first_missing :
  forall (self : Backend) (before after : list string) (missing : string)
         (images : list Image),
    read_image_batch Image Image_open before self = (Ok images, self) ->
    _storage self !! _relative_key self missing = None ->
    read_image_batch Image Image_open (before ++ missing :: after) self
    = (Err (FileNotFoundError missing), self).
Proof.
  intros self before after missing. induction before as [|path rest IH]; intros images.
  - intros _ Hmissing. cbn [app read_image_batch]. unfold read_image, read.
    rewrite Hmissing. reflexivity.
  - cbn [app read_image_batch]. intros Hok Hmissing.
    pose proof (BackendFacts.read_image_keeps Image Image_open path self) as Hk.
    destruct (read_image Image Image_open path self) as [[image|e] self1];
      cbn [snd] in Hk; subst self1; [|discriminate].
    pose proof (BackendFacts.read_image_batch_keeps Image Image_open rest self) as Hk.
    destruct (read_image_batch Image Image_open rest self) as [[imgs|e] self2] eqn:E2;
      cbn [snd] in Hk; subst self2; [|discriminate].
    rewrite (IH imgs eq_refl Hmissing). reflexivity.
Qed.

(** X16. [delete] and [exists] around [write]: a written identifier exists; a
    deleted one does not, [read] of it raises [KeyError], and deleting it
    again changes nothing. *)
Theorem delete_forgets_identifier :
  forall (self : Backend) (identifier : string) (payload : bytes) (as_byte_io : bool),
    fst (exists_ identifier (snd (write torch_save_bytes identifier (DBytes payload) self)))
    = Ok true
    /\ fst (exists_ identifier (snd (delete identifier self))) = Ok false
    /\ read identifier as_byte_io (snd (delete identifier self))
       = (Err (KeyError identifier), snd (delete identifier self))
    /\ delete identifier (snd (delete identifier self))
       = (Ok tt, snd (delete identifier self)).
Proof.
  intros self identifier payload as_byte_io.
  unfold exists_, write, delete, read. cbn [fst snd _storage set_storage].
  rewrite lookup_insert_eq, lookup_delete_eq.
  split; [f_equal; apply bool_decide_eq_true; eauto|].
  split; [f_equal; apply bool_decide_eq_false; intros [v Hv]; discriminate|].
  split; [reflexivity|].
  rewrite BackendFacts.set_storage_twice. f_equal. f_equal.
  apply delete_id, lookup_delete_eq.
Qed.

End Calls.

Lemma uncompressed_round_trip storage raw :
  decompressed (Samples.backend_with None None storage)
    (compressed (Samples.backend_with None None storage) raw) = Ok raw.
Proof. reflexivity. Qed.

Lemma tagged_round_trip storage raw :
  decompressed (Samples.backend_with (Some (Samples.tagged Byte.x78)) None storage)
    (compressed (Samples.backend_with (Some (Samples.tagged Byte.x78)) None storage) raw)
  = Ok raw.
Proof. reflexivity. Qed.

Lemma open_file_serves_written_payload_witness :
  open_file "a.png" "rb"
    (snd (write Samples.save_tensor "a.png" (DBytes [Byte.x01])
            (Samples.backend_with (Some (Samples.tagged Byte.x78)) None ∅)))
  = (Ok (DBytesIO [Byte.x01]),
     snd (write Samples.save_tensor "a.png" (DBytes [Byte.x01])
            (Samples.backend_with (Some (Samples.tagged Byte.x78)) None ∅))).
Proof.
  apply (open_file_serves_written_payload Samples.save_tensor
           (Samples.backend_with (Some (Samples.tagged Byte.x78)) None ∅)
           "a.png" "rb" [Byte.x01]).
  intros data. reflexivity.
Defined.

Lemma torch_save_then_torch_load_witness :
  torch_save Samples.save_tensor (DTensor 1) "/data/cache/t.pt"
    (Samples.backend_with (Some (Samples.tagged Byte.x78)) None ∅)
  = (Ok tt, snd (torch_save Samples.save_tensor (DTensor 1) "/data/cache/t.pt"
                   (Samples.backend_with (Some (Samples.tagged Byte.x78)) None ∅)))
  /\ torch_load Samples.load_tensor "cache/t.pt"
       (snd (torch_save Samples.save_tensor (DTensor 1) "/data/cache/t.pt"
               (Samples.backend_with (Some (Samples.tagged Byte.x78)) None ∅)))
     = (Ok (DTensor 1),
        snd (torch_save Samples.save_tensor (DTensor 1) "/data/cache/t.pt"
               (Samples.backend_with (Some (Samples.tagged Byte.x78)) None ∅))).
Proof.
  apply (torch_save_then_torch_load Samples.save_tensor Samples.load_tensor
           (Samples.backend_with (Some (Samples.tagged Byte.x78)) None ∅)
           (DTensor 1) [Byte.x01] "/data/cache/t.pt" "cache/t.pt").
  - intros raw. reflexivity.
  - reflexivity.
  - reflexivity.
  - vm_compute. reflexivity.
Defined.

Lemma write_batch_keeps_items_before_failure_witness :
  write_batch Samples.save_tensor
    ([("a.png", DBytes [Byte.x01])] ++ ("b.png", DOther "str") :: [("c.png", DBytes [])])
    (Samples.backend_with None None ∅)
  = (Err TypeError, Samples.backend_with None None {[ "a.png" := [Byte.x01] ]}).
Proof.
  apply (write_batch_keeps_items_before_failure Samples.save_tensor
           (Samples.backend_with None None ∅)
           (Samples.backend_with None None {[ "a.png" := [Byte.x01] ]})
           [("a.png", DBytes [Byte.x01])] [("c.png", DBytes [])] "b.png" (DOther "str")).
  - vm_compute. reflexivity.
  - reflexivity.
Defined.

Lemma write_batch_normalises_names_write_does_not_witness :
  fst (read (_relative_key (Samples.backend_with None None ∅) "/data/a.png") false
         (snd (write_batch Samples.save_tensor [("/data/a.png", DBytes [Byte.x01])]
                 (Samples.backend_with None None ∅))))
  = Ok (DBytes [Byte.x01])
  /\ _storage (snd (write_batch Samples.save_tensor [("/data/a.png", DBytes [Byte.x01])]
                      (Samples.backend_with None None ∅))) !! "/data/a.png"
     = _storage (Samples.backend_with None None ∅) !! "/data/a.png"
  /\ fst (read "/data/a.png" false
            (snd (write Samples.save_tensor "/data/a.png" (DBytes [Byte.x01])
                    (Samples.backend_with None None ∅))))
     = Ok (DBytes [Byte.x01])
  /\ _storage (snd (write Samples.save_tensor "/data/a.png" (DBytes [Byte.x01])
                      (Samples.backend_with None None ∅)))
       !! _relative_key (Samples.backend_with None None ∅) "/data/a.png"
     = _storage (Samples.backend_with None None ∅)
         !! _relative_key (Samples.backend_with None None ∅) "/data/a.png".
Proof.
  apply (write_batch_normalises_names_write_does_not Samples.save_tensor
           (Samples.backend_with None None ∅) "/data/a.png" [Byte.x01]).
  - intros raw. reflexivity.
  - vm_compute. discriminate.
Defined.

Lemma read_image_batch_reports_first_missing_witness :
  read_image_batch nat Samples.open_image (["/data/a.png"] ++ "gone.png" :: ["sub/b.PNG"])
    MoreSamples.staged
  = (Err (FileNotFoundError "gone.png"), MoreSamples.staged).
Proof.
  apply (read_image_batch_reports_first_missing nat Samples.open_image
           MoreSamples.staged ["/data/a.png"] ["sub/b.PNG"] "gone.png" [2%nat]).
  - vm_compute. reflexivity.
  - vm_compute. reflexivity.
Defined.

(** *** What [list_files] reports *)

(** [file] stands under [folder] in the dictionary [list_files] fills. *)
Lemma setdefault_append_has results parent file folder f :
  (exists files, In (folder, files) (setdefault_append results parent file) /\ In f files)
  <-> (exists files, In (folder, files) results /\ In f files)
      \/ (folder = parent /\ f = file).
Proof.
  induction results as [|[k files] rest IH]; cbn [setdefault_append].
  - split.
    + intros (fs' & [[= <- <-]|[]] & [<-|[]]). right. auto.
    + intros [(fs' & [] & _)|[-> ->]]. exists [file]. split; left; reflexivity.
  - destruct (String.eqb k parent) eqn:E.
    + apply String.eqb_eq in E. subst k. split.
      * intros (fs' & [[= <- <-]|Hin] & Hf).
        -- apply in_app_or in Hf as [Hf|[<-|[]]].
           ++ left. exists files. split; [left; reflexivity | exact Hf].
           ++ right. auto.
        -- left. exists fs'. split; [right; exact Hin | exact Hf].
      * intros [(fs' & [[= <- <-]|Hin] & Hf)|[-> ->]].
        -- exists (files ++ [file]). split; [left; reflexivity|].
           apply in_or_app. left. exact Hf.
        -- exists fs'. split; [right; exact Hin | exact Hf].
        -- exists (files ++ [file]). split; [left; reflexivity|].
           apply in_or_app. right. left. reflexivity.
    + split.
      * intros (fs' & [[= <- <-]|Hin] & Hf).
        -- left. exists files. split; [left; reflexivity | exact Hf].
        -- destruct (proj1 IH (ex_intro _ fs' (conj Hin Hf))) as [(fs2 & H2 & Hf2)|Hnew].
           ++ left. exists fs2. split; [right; exact H2 | exact Hf2].
           ++ right. exact Hnew.
      * intros [(fs' & [[= <- <-]|Hin] & Hf)|Hnew].
        -- exists files. split; [left; reflexivity | exact Hf].
        -- destruct (proj2 IH (or_introl (ex_intro _ fs' (conj Hin Hf)))) as (fs2 & H2 & Hf2).
           exists fs2. split; [right; exact H2 | exact Hf2].
        -- destruct (proj2 IH (or_intror Hnew)) as (fs2 & H2 & Hf2).
           exists fs2. split; [right; exact H2 | exact Hf2].
Qed.

Lemma setdefault_append_keys results parent file k :
  In k (map fst (setdefault_append results parent file))
  <-> In k (map fst results) \/ k = parent.
Proof.
  induction results as [|[k' files] rest IH]; cbn [setdefault_append map fst In].
  - intuition.
  - destruct (String.eqb k' parent) eqn:E.
    + apply String.eqb_eq in E. subst k'. cbn [map fst In]. intuition.
    + cbn [map fst In]. rewrite IH. intuition.
Qed.

Lemma setdefault_append_NoDup results parent file :
  List.NoDup (map fst results) ->
  List.NoDup (map fst (setdefault_append results parent file)).
Proof.
  induction results as [|[k files] rest IH]; cbn [setdefault_append map fst]; intros ND.
  - constructor; [intros [] | constructor].
  - inversion ND as [|? ? Hk ND']; subst.
    destruct (String.eqb k parent) eqn:E; cbn [map fst].
    + constructor; assumption.
    + constructor; [|apply IH; exact ND'].
      rewrite setdefault_append_keys. intros [H|H]; [exact (Hk H)|].
      apply String.eqb_neq in E. exact (E H).
Qed.

Section Listing.

Variable self : Backend.
Variable wanted : list string.

(** One turn of the loop of [list_files]. *)
Let step (results : list (string * list string)) (rel_path : string) :=
  if match wanted with [] => false | _ => true end
     && negb (PyStr.mem (PyStr.lstrip_dots (PyStr.lower (suffix (Path rel_path)))) wanted)
  then results
  else setdefault_append results (str (parent (Path rel_path)))
         (str (joinpath (instance_data_dir self) (Path rel_path))).

Lemma step_skips results rel_path :
  extension_wanted wanted rel_path = false -> step results rel_path = results.
Proof.
  unfold step, extension_wanted. destruct wanted; [discriminate|].
  intros ->. reflexivity.
Qed.

Lemma step_appends results rel_path :
  extension_wanted wanted rel_path = true ->
  step results rel_path
  = setdefault_append results (str (parent (Path rel_path)))
      (str (joinpath (instance_data_dir self) (Path rel_path))).
Proof.
  unfold step, extension_wanted. destruct wanted; [reflexivity|].
  intros ->. reflexivity.
Qed.

Lemma loop_has keys results folder f :
  (exists files, In (folder, files) (fold_left step keys results) /\ In f files)
  <-> (exists files, In (folder, files) results /\ In f files)
      \/ exists key,
           In key keys /\ extension_wanted wanted key = true
           /\ folder = str (parent (Path key))
           /\ f = str (joinpath (instance_data_dir self) (Path key)).
Proof.
  revert results. induction keys as [|key keys IH]; intros results; cbn [fold_left].
  - split; [auto | intros [H|(key & [] & _)]; exact H].
  - rewrite IH. destruct (extension_wanted wanted key) eqn:E.
    + rewrite step_appends by exact E. rewrite setdefault_append_has. split.
      * intros [[H|[-> ->]]|(key' & Hin & Hw & Hf)].
        -- left. exact H.
        -- right. exists key. split; [left; reflexivity | auto].
        -- right. exists key'. split; [right; exact Hin | auto].
      * intros [H|(key' & [<-|Hin] & Hw & Hfolder & Hf)].
        -- left. left. exact H.
        -- left. right. auto.
        -- right. exists key'. auto.
    + rewrite step_skips by exact E. split.
      * intros [H|(key' & Hin & Hw)]; [left; exact H|].
        right. exists key'. split; [right; exact Hin | exact Hw].
      * intros [H|(key' & [<-|Hin] & Hw & Hrest)]; [left; exact H | congruence |].
        right. exists key'. auto.
Qed.

Lemma loop_NoDup keys results :
  List.NoDup (map fst results) -> List.NoDup (map fst (fold_left step keys results)).
Proof.
  revert results. induction keys as [|key keys IH]; intros results ND; [exact ND|].
  cbn [fold_left]. apply IH. unfold step.
  destruct (_ && _); [exact ND | apply setdefault_append_NoDup, ND].
Qed.

End Listing.

Lemma storage_keys (storage : gmap string bytes) key :
  In key (map fst (map_to_list storage)) <-> is_Some (storage !! key).
Proof.
  rewrite in_map_iff. split.
  - intros ([k v] & <- & Hin). apply list_elem_of_In, elem_of_map_to_list in Hin.
    cbn [fst]. eauto.
  - intros [v Hv]. exists (key, v). split; [reflexivity|].
    apply list_elem_of_In, elem_of_map_to_list. exact Hv.
Qed.

Lemma listed_groups (results : list (string * list string)) folder file :
  listed (map (fun '(folder, files) => (folder, [], files)) results) folder file
  <-> exists files, In (folder, files) results /\ In file files.
Proof.
  unfold listed. split.
  - intros (files & Hin & Hf). apply in_map_iff in Hin as ([k fs'] & [= <- <-] & Hin).
    exists fs'. auto.
  - intros (files & Hin & Hf). exists files. split; [|exact Hf].
    apply in_map_iff. exists (folder, files). auto.
Qed.

Lemma list_files_listed self file_extensions groups folder file :
  list_files file_extensions self = (Ok groups, self) ->
  listed groups folder file
  <-> exists key,
        is_Some (_storage self !! key)
        /\ extension_wanted (wanted_extensions self file_extensions) key = true
        /\ folder = str (parent (Path key))
        /\ file = str (joinpath (instance_data_dir self) (Path key)).
Proof.
  unfold list_files. intros [= <-].
  fold (wanted_extensions self file_extensions).
  rewrite listed_groups.
  rewrite (loop_has self (wanted_extensions self file_extensions)). split.
  - intros [(files & [] & _)|(key & Hin & Hrest)].
    exists key. split; [apply storage_keys, Hin | exact Hrest].
  - intros (key & Hin & Hrest). right. exists key.
    split; [apply storage_keys, Hin | exact Hrest].
Qed.

(** X8. [list_files] always returns, and leaves the backend alone.  A file is
    listed under a folder exactly when it names a staged key with a wanted
    extension: the folder is the key's parent and the file is the key joined
    onto the directory.  No folder comes twice, and the middle component of
    every triple is the empty list. *)
Theorem list_files_lists_wanted_keys :
  forall (self : Backend) (file_extensions : option (list string)),
  exists groups,
    list_files file_extensions self = (Ok groups, self)
    /\ (forall folder file,
          listed groups folder file
          <-> exists key,
                is_Some (_storage self !! key)
                /\ extension_wanted (wanted_extensions self file_extensions) key = true
                /\ folder = str (parent (Path key))
                /\ file = str (joinpath (instance_data_dir self) (Path key)))
    /\ List.NoDup (map (fun g => fst (fst g)) groups)
    /\ Forall (fun g => snd (fst g) = []) groups.
Proof.
  intros self file_extensions. eexists. split; [reflexivity|].
  split; [|split].
  - intros folder file. apply list_files_listed. reflexivity.
  - fold (wanted_extensions self file_extensions).
    set (results := fold_left _ _ []).
    rewrite map_map.
    assert (ND : List.NoDup (map fst results))
      by (subst results;
          apply (loop_NoDup self (wanted_extensions self file_extensions)); constructor).
    erewrite map_ext; [exact ND|]. intros [k fs']. reflexivity.
  - apply Forall_forall. intros g Hg. apply list_elem_of_In in Hg.
    apply in_map_iff in Hg as ([k fs'] & <- & _). reflexivity.
Qed.

Lemma relative_key_of_joined self rel :
  normal_path (instance_data_dir self) ->
  Forall proper_name rel ->
  _relative_key self
    (str (joinpath (instance_data_dir self) (Path (str {| anchor := ""; parts := rel |}))))
  = str {| anchor := ""; parts := rel |}.
Proof.
  intros Hdir Hrel.
  assert (Hn : normal_path {| anchor := ""; parts := rel |})
    by (split; [left; reflexivity | exact Hrel]).
  rewrite (Path_str _ Hn).
  unfold _relative_key, joinpath. cbn [anchor parts String.eqb].
  rewrite Path_str.
  - unfold relative_to. cbn [anchor parts]. rewrite String.eqb_refl, strip_prefix_self.
    reflexivity.
  - destruct Hdir as [Ha Hp]. split; [exact Ha|]. cbn [parts].
    apply Forall_app. split; assumption.
Qed.

(** X9. What [list_files] reports can be handed to [read_image].  For a backend
    whose directory was parsed by [Path] and a staged key made of plain
    components, with a wanted extension, the key's file is listed under the
    key's parent, and [read_image] of the listed name decodes the payload
    stored under the key. *)
Theorem listed_files_open_as_images :
  forall (Image : Type) (Image_open : bytes -> Result Image)
         (self : Backend) (file_extensions : option (list string)) (rel : list string)
         (data payload : bytes) (image : Image) (groups : list (string * list string * list string)),
    normal_path (instance_data_dir self) ->
    Forall proper_name rel ->
    _storage self !! str {| anchor := ""; parts := rel |} = Some data ->
    extension_wanted (wanted_extensions self file_extensions)
      (str {| anchor := ""; parts := rel |}) = true ->
    decompressed self data = Ok payload ->
    Image_open payload = Ok image ->
    list_files file_extensions self = (Ok groups, self) ->
    exists file,
      listed groups (str {| anchor := ""; parts := removelast rel |}) file
      /\ read_image Image Image_open file self = (Ok image, self).
Proof.
  intros Image Image_open self file_extensions rel data payload image groups
         Hdir Hrel Hkey Hwanted Hdata Himage Hlist.
  set (key := str {| anchor := ""; parts := rel |}) in *.
  assert (Hn : normal_path {| anchor := ""; parts := rel |})
    by (split; [left; reflexivity | exact Hrel]).
  exists (str (joinpath (instance_data_dir self) (Path key))). split.
  - apply (list_files_listed self file_extensions groups _ _ Hlist). exists key. split; [eauto|]. split; [exact Hwanted|]. split; [|reflexivity].
    unfold key. rewrite (Path_str _ Hn). reflexivity.
  - pose proof (relative_key_of_joined self rel Hdir Hrel) as Hback. fold key in Hback.
    unfold read_image, read. rewrite Hback, Hkey, Hdata, Himage. reflexivity.
Qed.

Lemma listed_files_open_as_images_witness :
  exists file,
    listed
      [ ("sub", [], ["/data/sub/b.PNG"]); (".", [], ["/data/a.png"]) ]
      (str {| anchor := ""; parts := removelast ["sub"; "b.PNG"] |}) file
    /\ read_image nat Samples.open_image file MoreSamples.staged
       = (Ok 1%nat, MoreSamples.staged).
Proof.
  apply (listed_files_open_as_images nat Samples.open_image MoreSamples.staged None
           ["sub"; "b.PNG"] [Byte.x03] [Byte.x03] 1%nat).
  - apply Path_normal.
  - repeat constructor; discriminate.
  - vm_compute. reflexivity.
  - vm_compute. reflexivity.
  - reflexivity.
  - reflexivity.
  - vm_compute. reflexivity.
Defined.

End BackendMore.

(** ** The model on concrete inputs *)

Module Checks.

Example strip_then_lower : PyStr.lower (PyStr.strip "  Yes ") = "yes".
Proof. reflexivity. Qed.

Example split_keeps_empty_parts : PyStr.split "," "a:1,,b" = ["a:1"; ""; "b"].
Proof. reflexivity. Qed.

Example split_at_first_colon : PyStr.partition ":" "k:v:w" = Some ("k", "v:w").
Proof. reflexivity. Qed.

Example flag_is_stripped_and_lowercased :
  Uvm.gh200_uvm_enabled None {[ "SIMPLETUNER_GH200_ENABLE_UVM_HINTS" := " ON " ]} = true.
Proof. reflexivity. Qed.

Example override_beats_flag :
  Uvm.gh200_uvm_enabled (Uvm.set_uvm_hint_override (Some false) None) Samples.hints_on
  = false.
Proof. reflexivity. Qed.

Example alloc_conf_last_part_wins :
  Diagnostic.check_uvm_env Z Samples.tenths
    {[ "PYTORCH_CUDA_ALLOC_CONF" :=
         "use_uvm:True, UVM_Oversubscription_Ratio : 2.5 ,uvm_access_pattern: GPU_First,x,uvm_oversubscription_ratio:fast" ]}
  = {| Diagnostic.enabled := true;
       Diagnostic.raw :=
         "use_uvm:True, UVM_Oversubscription_Ratio : 2.5 ,uvm_access_pattern: GPU_First,x,uvm_oversubscription_ratio:fast";
       Diagnostic.oversubscription_ratio := Some (Diagnostic.RatioRaw "fast");
       Diagnostic.access_pattern := Some "gpu_first" |}.
Proof. reflexivity. Qed.

Example alloc_conf_is_case_sensitive :
  Diagnostic.enabled
    (Diagnostic.check_uvm_env Z Samples.tenths
       {[ "PYTORCH_CUDA_ALLOC_CONF" := "use_uvm:true,uvm_oversubscription_ratio:4" ]})
  = false
  /\ Diagnostic.oversubscription_ratio
       (Diagnostic.check_uvm_env Z Samples.tenths
          {[ "PYTORCH_CUDA_ALLOC_CONF" := "use_uvm:true,uvm_oversubscription_ratio:4" ]})
     = Some (Diagnostic.RatioFloat 40).
Proof. split; reflexivity. Qed.

Example path_parsing :
  Backend.Path "/data//x/./y/../z"
  = {| Backend.anchor := "/"; Backend.parts := ["data"; "x"; "y"; ".."; "z"] |}
  /\ Backend.str (Backend.Path "data/sub/") = "data/sub"
  /\ Backend.str (Backend.Path "") = "."
  /\ Backend.suffix (Backend.Path "a/b.tar.gz") = ".gz"
  /\ Backend.suffix (Backend.Path ".hidden") = "".
Proof. repeat split. Qed.

Example relative_key_of_staged_path :
  Backend._relative_key (Samples.backend_with None None ∅) "/data/sub/b.PNG" = "sub/b.PNG"
  /\ Backend._relative_key (Samples.backend_with None None ∅) "/elsewhere/b.PNG"
     = "/elsewhere/b.PNG".
Proof. split; reflexivity. Qed.

(** The keys staged from the sample tree, whatever the completion order. *)
Example sample_tree_staged :
  match Backend.__init__ (Samples.tagged Byte.x78) None None ["jpg"; "PNG"]
          Samples.last_first Samples.dataset "cache" "/data" None None None 16 with
  | Backend.Ok self =>
      Backend._storage self
      = {[ "a.png" := [Byte.x01; Byte.x02]; "sub/b.PNG" := [Byte.x03] ]}
  | Backend.Err _ => False
  end.
Proof. vm_compute. reflexivity. Qed.

(** A compression name of [none], as [get_instance_representation] reports
    it, is not accepted back. *)
Example compression_named_none_is_unknown :
  Backend._resolve_compression (Samples.tagged Byte.x78) None None (Some "none")
  = Backend.Err Backend.ValueError.
Proof. reflexivity. Qed.

(** A directory given relative to the current one: the discovered paths are
    resolved, [relative_to] the unresolved directory fails, and the
    constructor raises. *)
Example relative_directory_raises :
  Backend.__init__ (Samples.tagged Byte.x78) None None ["jpg"; "PNG"]
    Samples.last_first Samples.relative_tree "cache" "data" None None None 16
  = Backend.Err Backend.ValueError.
Proof. vm_compute. reflexivity. Qed.

(** [torch.cuda.memory_advise] raises, the runtime works: the run goes on
    through [cudaMemAdvise] and returns what that path returns. *)
Example memory_advise_failure_is_followed_by_cudart :
  existsb UvmSpec.memory_advise_failed
    (snd (Uvm.prefer_cpu_residency (Some true) ∅ 1%nat Samples.advise_raises [])) = true
  /\ exists early,
       Uvm.prefer_cpu_residency (Some true) ∅ 1%nat Samples.advise_raises []
       = (fst (UvmSpec.cudart_fallback 1%nat true Samples.advise_raises early),
          (snd (UvmSpec.cudart_fallback 1%nat true Samples.advise_raises early)
           ++ early)%list)
       /\ fst (UvmSpec.cudart_fallback 1%nat true Samples.advise_raises early) = Uvm.Val true.
Proof.
  split; [vm_compute; reflexivity|].
  eexists [Uvm.EOp (Uvm.OMemoryAdvise 1%nat "set_preferred_location" Uvm.LocCpu) Uvm.Raise;
           Uvm.EQuery Uvm.QHasMemoryAdvise true;
           Uvm.EQuery (Uvm.QIsCuda 1%nat) true;
           Uvm.EQuery Uvm.QIsAvailable true].
  split; vm_compute; reflexivity.
Qed.

(** A limit that truncates to zero bytes is not enforced. *)
Example zero_limit_is_no_limit :
  match Backend.__init__ (Samples.tagged Byte.x78) None None ["jpg"; "PNG"]
          Samples.last_first Samples.dataset "cache" "/data" None None
          (Some (Qmake 1 (2 ^ 31))) 16 with
  | Backend.Ok self =>
      Backend._memory_limit_bytes self = Some 0
      /\ Backend.held_bytes (Backend._storage self) = 3
  | Backend.Err _ => False
  end.
Proof. vm_compute. split; reflexivity. Qed.

(** The limit is compared with the raw sizes: three raw bytes pass a limit of
    three, and five are held once each file carries its compression tag. *)
Example compressed_contents_can_exceed_limit :
  match Backend.__init__ (Samples.tagged Byte.x78) None None ["jpg"; "PNG"]
          Samples.last_first Samples.dataset "cache" "/data" None (Some "zlib")
          (Some (Qmake 3 (2 ^ 30))) 16 with
  | Backend.Ok self =>
      Backend._memory_limit_bytes self = Some 3
      /\ Backend.held_bytes (Backend._storage self) = 5
  | Backend.Err _ => False
  end.
Proof. vm_compute. split; reflexivity. Qed.

End Checks.
